(** * HWI: chunked wire protocol (trezorlib/transport/protocol.py) and the
      BitBox02 client's keypath policy and PSBT translation
      (hwilib/devices/bitbox02.py).

    The Python code is embedded shallowly: byte strings are [list byte],
    Python integers are [Z], exceptions are values of [exn] carried by
    [result], and the objects the code mutates (the physical handle, the
    protocol's session counter, the device) are threaded explicitly. *)

From Stdlib Require Import ZArith List Lia Bool ZifyNat.
From Stdlib Require String.
From Stdlib Require Import Strings.Byte.
From Equations Require Import Equations.
Import ListNotations String.StringSyntax.

Local Open Scope string_scope.
Local Open Scope list_scope.
Local Open Scope Z_scope.

(** ** Python values shared by both source files *)

Abbreviation bytes := (list byte).

(** Exceptions the two source files raise or let through.  The argument of
    [BadArgumentError] identifies the message of the [raise] site. *)
Inductive BadArgument :=
| SighashNotAll (sighash : Z)            (* "The BitBox02 only supports SIGHASH_ALL. Found sighash: {}" *)
| WrongPrevTxHash (input_index : nat)    (* "Input {} has a non_witness_utxo with the wrong hash" *)
| NoUtxoFound (input_index : nat)        (* "No utxo found for input {}" *)
| PrevTxMissing (input_index : nat)      (* "Previous transaction missing for input {}" *)
| NoKeyFound (input_index : nat)         (* "No key found for input {}" *)
| AccountMismatch                        (* "The bip44 account index must be the same for all inputs and changes" *)
| LegacyP2PKH                            (* "The BitBox02 does not support legacy p2pkh scripts" *)
| InputScriptNotRecognized (input_index : nat) (* "Input script type not recognized of input {}." *)
| OutputNotRecognized (output_index : nat)     (* "Output type not recognized of output {}" *)
| InvalidInput.                          (* "invalid input" *)

Inductive exn :=
| RuntimeError (msg : String.string)
| StructError                (* struct.error *)
| ReadBlocked                (* handle.read_chunk() with nothing left to deliver *)
| BadArgumentError (why : BadArgument)
| ValueError
| KeypathError (keypath : list Z) (is_testnet : bool)
| UnavailableActionError (msg : String.string)
| ActionCanceledError
| DeviceNotReadyError
| IndexError
| NameError                  (* a local read before any assignment *)
| AssertionError
| UserAbortException
| Bitbox02Exception (code : Z)
| FirmwareVersionOutdatedException.

Inductive result (A : Type) :=
| Ok (a : A)
| Raise (e : exn).
Arguments Ok {A} a.
Arguments Raise {A} e.

Definition bind {A B} (r : result A) (k : A -> result B) : result B :=
  match r with
  | Ok a => k a
  | Raise e => Raise e
  end.

Notation "x <- r ;; k" := (bind r (fun x => k))
  (at level 61, r at next level, right associativity).
Notation "' p <- r ;; k" := (bind r (fun p => k))
  (at level 61, p pattern, r at next level, right associativity).

Definition is_ok {A} (r : result A) : bool :=
  match r with Ok _ => true | Raise _ => false end.

Definition byte_of_Z (z : Z) : byte :=
  match Byte.of_N (Z.to_N (z mod 256)) with
  | Some b => b
  | None => x00
  end.

Definition Z_of_byte (b : byte) : Z := Z.of_N (Byte.to_N b).

Fixpoint bytes_eqb (a b : bytes) : bool :=
  match a, b with
  | [], [] => true
  | x :: a', y :: b' => Byte.eqb x y && bytes_eqb a' b'
  | _, _ => false
  end.

(** [bytes.ljust(width, fill)] *)
Definition ljust (width : nat) (fill : byte) (b : bytes) : bytes :=
  b ++ repeat fill (width - length b).

(** [struct.pack(">HL", a, b)]: big-endian unsigned 16 bits then unsigned 32
    bits; a value out of range raises [struct.error]. *)
Definition pack_HL (a b : Z) : result bytes :=
  if (0 <=? a) && (a <? 2 ^ 16) && (0 <=? b) && (b <? 2 ^ 32) then
    Ok [ byte_of_Z (a / 2 ^ 8); byte_of_Z a;
         byte_of_Z (b / 2 ^ 24); byte_of_Z (b / 2 ^ 16);
         byte_of_Z (b / 2 ^ 8); byte_of_Z b ]
  else Raise StructError.

(** [struct.unpack(">HL", data)]: [struct.error] unless [data] has exactly
    [struct.calcsize(">HL")] = 6 bytes. *)
Definition unpack_HL (data : bytes) : result (Z * Z) :=
  match data with
  | [a1; a0; b3; b2; b1; b0] =>
      Ok (Z_of_byte a1 * 2 ^ 8 + Z_of_byte a0,
          Z_of_byte b3 * 2 ^ 24 + Z_of_byte b2 * 2 ^ 16
          + Z_of_byte b1 * 2 ^ 8 + Z_of_byte b0)
  | _ => Raise StructError
  end.

(** ** trezorlib/transport/protocol.py *)

Module Protocol.

Definition REPLEN : nat := 64.

(** The physical layer ([class Handle]) is an external collaborator.  It is
    modelled by the calls made on it, oldest first, and by the chunks it
    still has to deliver to [read_chunk]. *)
Inductive HandleCall :=
| h_open
| h_close
| h_read_chunk
| h_write_chunk (chunk : bytes).

Record Handle := mkHandle {
  calls : list HandleCall;
  pending : list bytes
}.

Definition open (h : Handle) : Handle :=
  mkHandle (calls h ++ [h_open]) (pending h).

Definition close (h : Handle) : Handle :=
  mkHandle (calls h ++ [h_close]) (pending h).

Definition write_chunk (h : Handle) (chunk : bytes) : Handle :=
  mkHandle (calls h ++ [h_write_chunk chunk]) (pending h).

Definition read_chunk (h : Handle) : result (bytes * Handle) :=
  match pending h with
  | [] => Raise ReadBlocked
  | chunk :: rest => Ok (chunk, mkHandle (calls h ++ [h_read_chunk]) rest)
  end.

(** [class Protocol]: the handle and the session counter. *)
Record Protocol := mkProtocol {
  handle : Handle;
  session_counter : Z
}.

(** [Protocol.__init__] *)
Definition init (h : Handle) : Protocol := mkProtocol h 0.

Definition begin_session (p : Protocol) : Protocol :=
  let h := if session_counter p =? 0 then open (handle p) else handle p in
  mkProtocol h (session_counter p + 1).

Definition end_session (p : Protocol) : Protocol :=
  let h := if session_counter p =? 1 then close (handle p) else handle p in
  mkProtocol h (session_counter p - 1).

(* Keep the slices folded in the equations generated below. *)
#[local] Arguments firstn : simpl never.
#[local] Arguments skipn : simpl never.
#[local] Arguments ljust : simpl never.

(** The body of [while buffer:] in [ProtocolV1.write]. *)
Equations? write_loop (h : Handle) (buffer : bytes) : Handle
  by wf (length buffer) lt :=
  write_loop h [] := h;
  write_loop h (b :: rest) :=
    let buffer := b :: rest in
    let chunk := x3f :: firstn (REPLEN - 1) buffer in
    let chunk := ljust REPLEN x00 chunk in
    write_loop (write_chunk h chunk) (skipn 63 buffer).
Proof.
  rewrite length_skipn. subst buffer. simpl length. lia.
Qed.

(** [ProtocolV1.write].  [msg_type] is [mapping.get_type(msg)] and [ser] the
    bytes [protobuf.dump_message] produced for [msg]. *)
Definition write (p : Protocol) (msg_type : Z) (ser : bytes) : result Protocol :=
  header <- pack_HL msg_type (Z.of_nat (length ser)) ;;
  let buffer := [x23; x23] ++ header ++ ser in
  Ok (mkProtocol (write_loop (handle p) buffer) (session_counter p)).

Definition read_first (h : Handle) : result (Z * Z * bytes * Handle) :=
  '(chunk, h) <- read_chunk h ;;
  if negb (bytes_eqb (firstn 3 chunk) [x3f; x23; x23]) then
    Raise (RuntimeError "Unexpected magic characters")
  else
    let headerlen := 6%nat in
    match unpack_HL (firstn headerlen (skipn 3 chunk)) with
    | Raise _ => Raise (RuntimeError "Cannot parse header")
    | Ok (msg_type, datalen) =>
        let data := skipn (3 + headerlen) chunk in
        Ok (msg_type, datalen, data, h)
    end.

Definition read_next (h : Handle) : result (bytes * Handle) :=
  '(chunk, h) <- read_chunk h ;;
  if negb (bytes_eqb (firstn 1 chunk) [x3f]) then
    Raise (RuntimeError "Unexpected magic characters")
  else Ok (skipn 1 chunk, h).

Lemma read_next_pending h data h' :
  read_next h = Ok (data, h') -> (length (pending h') < length (pending h))%nat.
Proof.
  unfold read_next, read_chunk. destruct (pending h) as [|c rest]; simpl.
  - discriminate.
  - destruct (negb _); [discriminate|]. intro E. inversion E. simpl. lia.
Qed.

(** The loop [while len(buffer) < datalen: buffer.extend(self.read_next())]
    of [ProtocolV1.read]. *)
Equations read_loop (h : Handle) (datalen : Z) (buffer : bytes)
  : result (bytes * Handle) by wf (length (pending h)) lt :=
  read_loop h datalen buffer with Z.of_nat (length buffer) <? datalen := {
    | false := Ok (buffer, h)
    | true with Equations.Prop.Logic.inspect (read_next h) := {
        | @exist (Raise e) _ := Raise e
        | @exist (Ok (data, h')) E := read_loop h' datalen (buffer ++ data) } }.
Next Obligation. eapply read_next_pending; eauto. Qed.

(** [ProtocolV1.read], up to the bytes handed to [protobuf.load_message]
    together with the message type given to [mapping.get_class]. *)
Definition read (p : Protocol) : result (Z * bytes * Protocol) :=
  '(msg_type, datalen, first_chunk, h) <- read_first (handle p) ;;
  '(buffer, h) <- read_loop h datalen ([] ++ first_chunk) ;;
  let data := firstn (Z.to_nat datalen) buffer in
  Ok (msg_type, data, mkProtocol h (session_counter p)).

End Protocol.

(** ** hwilib/devices/bitbox02.py *)

(** Python truthiness of a byte string or a sequence. *)
Definition truthy {A} (l : list A) : bool :=
  match l with [] => false | _ :: _ => true end.

(** [l[i]] for a Python sequence: a negative index counts from the end, an
    index out of range raises [IndexError]. *)
Definition py_index {A} (l : list A) (i : Z) : result A :=
  let len := Z.of_nat (length l) in
  let j := if i <? 0 then i + len else i in
  if (0 <=? j) && (j <? len) then
    match nth_error l (Z.to_nat j) with
    | Some a => Ok a
    | None => Raise IndexError
    end
  else Raise IndexError.

(** [d[k] = v] on a dict kept in insertion order. *)
Fixpoint dict_set (d : list (bytes * bytes)) (k v : bytes) : list (bytes * bytes) :=
  match d with
  | [] => [(k, v)]
  | (k', v') :: d' =>
      if bytes_eqb k' k then (k', v) :: d' else (k', v') :: dict_set d' k v
  end.

(** [struct.unpack("<I", data)[0]] *)
Definition unpack_I_le (data : bytes) : result Z :=
  match data with
  | [b0; b1; b2; b3] =>
      Ok (Z_of_byte b0 + Z_of_byte b1 * 2 ^ 8
          + Z_of_byte b2 * 2 ^ 16 + Z_of_byte b3 * 2 ^ 24)
  | _ => Raise StructError
  end.

Module Bitbox02.

(** *** The transaction objects of [..serializations] the client reads *)

Record COutPoint := mkCOutPoint {
  hash : Z;
  n : Z
}.

Record CTxIn := mkCTxIn {
  prevout : COutPoint;
  scriptSig : bytes;
  nSequence : Z
}.

Record CTxOut := mkCTxOut {
  nValue : Z;
  scriptPubKey : bytes
}.

Record CTransaction := mkCTransaction {
  nVersion : Z;
  vin : list CTxIn;
  vout : list CTxOut;
  nLockTime : Z;
  sha256 : option Z
}.

(** [hd_keypaths]: public key to fingerprint followed by the path, in the
    dict's iteration order. *)
Definition HDKeypaths := list (bytes * list Z).

Record PartiallySignedInput := mkPartiallySignedInput {
  non_witness_utxo : option CTransaction;
  witness_utxo : option CTxOut;
  partial_sigs : list (bytes * bytes);
  sighash : option Z;
  redeem_script : bytes;
  hd_keypaths : HDKeypaths
}.

Record PartiallySignedOutput := mkPartiallySignedOutput {
  out_redeem_script : bytes;
  out_hd_keypaths : HDKeypaths
}.

Record PSBT := mkPSBT {
  tx : CTransaction;
  inputs : list PartiallySignedInput;
  outputs : list PartiallySignedOutput
}.

(** The helpers imported from [..serializations], whose code is not among
    the sources: they are parameters of everything below. *)
Record Serializations := mkSerializations {
  is_p2pkh : bytes -> bool;
  is_p2sh : bytes -> bool;
  is_p2wpkh : bytes -> bool;
  is_p2wsh : bytes -> bool;
  CTxOut_is_p2pkh : CTxOut -> bool;      (* [tx_out.is_p2pkh()] *)
  CTxOut_is_p2sh : CTxOut -> bool;       (* [tx_out.is_p2sh()] *)
  ser_uint256 : Z -> bytes;
  ser_sig_der : bytes -> bytes -> bytes
}.

(** *** The vendor API ([bitbox02] package) as the client uses it *)

Inductive SimpleType := BTCScriptConfig_P2WPKH_P2SH | BTCScriptConfig_P2WPKH.
Inductive OutputType := btc_P2PKH | btc_P2WPKH | btc_P2SH | btc_P2WSH.
Inductive BTCCoin := BTC | TBTC.
Inductive XPubType := XPUB | TPUB.

Record BTCScriptConfigWithKeypath := mkScriptConfig {
  script_config : SimpleType;
  keypath : list Z
}.

Record BTCPrevTxInputType := mkPrevTxInput {
  pi_prev_out_hash : bytes;
  pi_prev_out_index : Z;
  pi_signature_script : bytes;
  pi_sequence : Z
}.

Record BTCPrevTxOutputType := mkPrevTxOutput {
  po_value : Z;
  po_pubkey_script : bytes
}.

Record BTCPrevTx := mkPrevTx {
  pt_version : Z;
  pt_locktime : Z;
  pt_inputs : list BTCPrevTxInputType;
  pt_outputs : list BTCPrevTxOutputType
}.

Record BTCInputType := mkInput {
  in_prev_out_hash : bytes;
  in_prev_out_index : Z;
  in_prev_out_value : Z;
  in_sequence : Z;
  in_keypath : list Z;
  in_script_config_index : Z;
  in_prev_tx : BTCPrevTx
}.

Inductive BTCOutputType :=
| BTCOutputInternal (keypath : list Z) (value : Z) (script_config_index : Z)
| BTCOutputExternal (output_type : OutputType) (output_hash : bytes) (value : Z).

(** The arguments of one [btc_sign] call. *)
Record SignRequest := mkSignRequest {
  req_coin : BTCCoin;
  req_script_configs : list BTCScriptConfigWithKeypath;
  req_inputs : list BTCInputType;
  req_outputs : list BTCOutputType;
  req_locktime : Z;
  req_version : Z
}.

(** The arguments of one [btc_xpub] call. *)
Record XpubRequest := mkXpubRequest {
  xpub_keypath : list Z;
  xpub_coin : BTCCoin;
  xpub_type : XPubType;
  xpub_display : bool
}.

(** The paired device ([self.init()]): what it answers to the calls the
    client makes.  The answers are the device's, not the client's. *)
Record BitBox02 := mkBitBox02 {
  initialized : bool;                    (* [device_info()["initialized"]] *)
  root_fingerprint : bytes;
  btc_sign : SignRequest -> result (list (Z * bytes));
  btc_xpub : XpubRequest -> result String.string
}.

(** The requests that reach the device, oldest first. *)
Inductive DeviceCall :=
| call_device_info
| call_root_fingerprint
| call_btc_xpub (req : XpubRequest)
| call_btc_sign (req : SignRequest).

(** Modelled from the spec: [HARDENED] is imported from the vendor package
    [bitbox02.communication], which is not among the sources.  The spec's
    Derivation Path entry has the elements unsigned 32-bit integers, a
    hardened one having its high bit set. *)
Definition HARDENED : Z := 2 ^ 31.

Definition ERR_INVALID_INPUT : Z := 101.

Definition PURPOSE_P2WPKH_P2SH : Z := 49 + HARDENED.
Definition PURPOSE_P2WPKH : Z := 84 + HARDENED.
Definition PURPOSE_MULTISIG_P2WSH : Z := 48 + HARDENED.

Definition _keypath_check_account (bip44_account : Z) : bool :=
  (HARDENED <=? bip44_account) && (bip44_account <=? HARDENED + 99).

(** [dict[key]]: [None] stands for [KeyError]. *)
Fixpoint dict_get {V} (d : list (Z * V)) (key : Z) : option V :=
  match d with
  | [] => None
  | (k, v) :: d' => if k =? key then Some v else dict_get d' key
  end.

(** The dict literal of [_get_xpub], indexed by [self.is_testnet]. *)
Definition xpub_types (is_testnet : bool) : list (Z * XPubType) :=
  if is_testnet
  then [(PURPOSE_P2WPKH_P2SH, TPUB); (PURPOSE_P2WPKH, TPUB)]
  else [(PURPOSE_P2WPKH_P2SH, XPUB); (PURPOSE_P2WPKH, XPUB)].

Section Client.

(** The client object: the absent helpers, the vendor's [ERR_GENERIC]
    code, the device it is paired with and [self.is_testnet]. *)
Variable ser : Serializations.
Variable ERR_GENERIC : Z.
Variable bb02 : BitBox02.
Variable is_testnet : bool.

(** The decorator [bitbox02_exception], on the exception a call ends with. *)
Definition bitbox02_exception {A} (r : result A) : result A :=
  match r with
  | Raise UserAbortException => Raise ActionCanceledError
  | Raise (Bitbox02Exception code) =>
      if (code =? ERR_GENERIC) || (code =? ERR_INVALID_INPUT)
      then Raise (BadArgumentError InvalidInput)
      else Raise (Bitbox02Exception code)
  | Raise FirmwareVersionOutdatedException => Raise DeviceNotReadyError
  | r => r
  end.

Definition _get_coin : BTCCoin := if is_testnet then TBTC else BTC.

(** [_get_xpub]: the policy decides, then the request goes to the device. *)
Definition _get_xpub (keypath : list Z) : list DeviceCall * result String.string :=
  let expected_coin := if is_testnet then 1 + HARDENED else 0 + HARDENED in
  let checked :=
    match keypath with
    | [purpose; coin; account] =>
        (* singlesig *)
        if negb (coin =? expected_coin) || negb (_keypath_check_account account)
        then Raise ValueError
        else match dict_get (xpub_types is_testnet) purpose with
             | Some xpub_type => Ok xpub_type
             | None => Raise ValueError
             end
    | [purpose; coin; account; script_type] =>
        (* multisig *)
        if negb (purpose =? PURPOSE_MULTISIG_P2WSH)
           || negb (coin =? expected_coin)
           || negb (_keypath_check_account account)
           || negb (script_type =? 2 + HARDENED)
        then Raise ValueError
        else if is_testnet then Ok TPUB else Ok XPUB
    | _ => Raise ValueError
    end in
  match checked with
  | Raise e => ([], Raise e)
  | Ok xpub_type =>
      let req := mkXpubRequest keypath _get_coin xpub_type false in
      ([call_btc_xpub req], btc_xpub bb02 req)
  end.

(** [get_pubkey_at_path], from the parsed path on: [parse_path] is not
    among the sources, so [path_uint32s] is its value on [bip32_path]. *)
Definition get_pubkey_at_path (path_uint32s : list Z)
  : list DeviceCall * result String.string :=
  match _get_xpub path_uint32s with
  | (calls, Raise ValueError) => (calls, Raise (KeypathError path_uint32s is_testnet))
  | r => r
  end.

(** [get_master_fingerprint_hex]; the hexadecimal text is decoded again at
    its only use in [sign_tx], so the bytes stand for it. *)
Definition get_master_fingerprint_hex : list DeviceCall * result bytes :=
  if negb (initialized bb02)
  then ([call_device_info], Raise (UnavailableActionError "Not initialized"))
  else ([call_device_info; call_root_fingerprint], Ok (root_fingerprint bb02)).

(** *** [sign_tx] *)

(** The closure [find_our_key]; [master_fp] is the enclosing local. *)
Fixpoint find_our_key (master_fp : Z) (keypaths : HDKeypaths)
  : result (option (bytes * list Z)) :=
  match keypaths with
  | [] => Ok None
  | (pubkey, keypath_with_fingerprint) :: rest =>
      fp <- py_index keypath_with_fingerprint 0 ;;
      let keypath := skipn 1 keypath_with_fingerprint in
      if negb (fp =? master_fp) then find_our_key master_fp rest
      else Ok (Some (pubkey, keypath))
  end.

(** The closure [get_simple_type].  Its last message reads the enclosing
    local [input_index], which is unbound until the input loop has run. *)
Definition get_simple_type (input_index : option nat) (output : CTxOut)
  (redeem_script : bytes) : result SimpleType :=
  if is_p2pkh ser (scriptPubKey output) then
    Raise (BadArgumentError LegacyP2PKH)
  else if is_p2wpkh ser (scriptPubKey output) then
    Ok BTCScriptConfig_P2WPKH
  else if CTxOut_is_p2sh ser output && is_p2wpkh ser redeem_script then
    Ok BTCScriptConfig_P2WPKH_P2SH
  else match input_index with
       | Some i => Raise (BadArgumentError (InputScriptNotRecognized i))
       | None => Raise NameError
       end.

(** The dict literal [script_config_index_map]. *)
Definition script_config_index_map_literal (t : SimpleType) : Z :=
  match t with
  | BTCScriptConfig_P2WPKH => 0
  | BTCScriptConfig_P2WPKH_P2SH => 1
  end.

(** The locals of [sign_tx] that the two loops assign; [None] is Python's
    [None] for [bip44_account] and "not yet bound" for the other two. *)
Record Locals := mkLocals {
  bip44_account : option Z;
  input_index : option nat;
  script_config_index_map : option (SimpleType -> Z);
  inputs_acc : list BTCInputType;        (* [inputs] *)
  found_pubkeys : list bytes;
  outputs_acc : list BTCOutputType       (* [outputs] *)
}.

Definition initial_locals : Locals := mkLocals None None None [] [] [].

(** The sighash test that opens the input loop's body. *)
Definition check_sighash (psbt_in : PartiallySignedInput) : result unit :=
  match sighash psbt_in with
  | Some v =>
      if negb (v =? 0) && negb (v =? 1)
      then Raise (BadArgumentError (SighashNotAll v))
      else Ok tt
  | None => Ok tt
  end.

(** Lines from [utxo = None] to the two [is None] tests: the spent output
    and the previous transaction of one input. *)
Definition resolve_utxo (input_index : nat) (psbt_in : PartiallySignedInput)
  (tx_in : CTxIn) : result (CTxOut * CTransaction) :=
  '(utxo, prevtx) <-
    match non_witness_utxo psbt_in with
    | Some prev =>
        if match sha256 prev with
           | Some h => negb (hash (prevout tx_in) =? h)
           | None => true
           end
        then Raise (BadArgumentError (WrongPrevTxHash input_index))
        else
          utxo <- py_index (vout prev) (n (prevout tx_in)) ;;
          Ok (Some utxo, Some prev)
    | None =>
        match witness_utxo psbt_in with
        | Some w => Ok (Some w, None)
        | None => Ok (None, None)
        end
    end ;;
  match utxo with
  | None => Raise (BadArgumentError (NoUtxoFound input_index))
  | Some utxo =>
      match prevtx with
      | None => Raise (BadArgumentError (PrevTxMissing input_index))
      | Some prevtx => Ok (utxo, prevtx)
      end
  end.

(** The single-account test on the matched key path. *)
Definition check_account (bip44_account : option Z) (keypath : list Z)
  : result (option Z) :=
  match bip44_account with
  | None => a <- py_index keypath 2 ;; Ok (Some a)
  | Some account =>
      a <- py_index keypath 2 ;;
      if negb (account =? a) then Raise (BadArgumentError AccountMismatch)
      else Ok (Some account)
  end.

Definition prev_tx_of (prevtx : CTransaction) : BTCPrevTx :=
  mkPrevTx (nVersion prevtx) (nLockTime prevtx)
    (map (fun prev_in =>
            mkPrevTxInput (ser_uint256 ser (hash (prevout prev_in)))
              (n (prevout prev_in)) (scriptSig prev_in) (nSequence prev_in))
         (vin prevtx))
    (map (fun prev_out => mkPrevTxOutput (nValue prev_out) (scriptPubKey prev_out))
         (vout prevtx)).

(** One iteration of the loop over [zip(psbt.inputs, psbt.tx.vin)]. *)
Definition input_step (master_fp : Z) (st : Locals) (idx : nat)
  (psbt_in : PartiallySignedInput) (tx_in : CTxIn) : result Locals :=
  _ <- check_sighash psbt_in ;;
  '(utxo, prevtx) <- resolve_utxo idx psbt_in tx_in ;;
  found <- find_our_key master_fp (hd_keypaths psbt_in) ;;
  match found with
  | None => Raise (BadArgumentError (NoKeyFound idx))
  | Some (found_pubkey, keypath) =>
      if negb (truthy found_pubkey)
      then Raise (BadArgumentError (NoKeyFound idx))
      else
        account <- check_account (bip44_account st) keypath ;;
        simple_type <- get_simple_type (Some idx) utxo (redeem_script psbt_in) ;;
        Ok (mkLocals account (Some idx) (Some script_config_index_map_literal)
              (inputs_acc st ++
                 [mkInput (ser_uint256 ser (hash (prevout tx_in)))
                    (n (prevout tx_in)) (nValue utxo) (nSequence tx_in) keypath
                    (script_config_index_map_literal simple_type)
                    (prev_tx_of prevtx)])
              (found_pubkeys st ++ [found_pubkey])
              (outputs_acc st))
  end.

Fixpoint input_loop (master_fp : Z) (st : Locals) (idx : nat)
  (zipped : list (PartiallySignedInput * CTxIn)) : result Locals :=
  match zipped with
  | [] => Ok st
  | (psbt_in, tx_in) :: rest =>
      st <- input_step master_fp st idx psbt_in tx_in ;;
      input_loop master_fp st (S idx) rest
  end.

(** [is_change = keypath and keypath[-2] == 1] *)
Definition is_change (keypath : option (list Z)) : result bool :=
  match keypath with
  | None => Ok false
  | Some kp =>
      if truthy kp then v <- py_index kp (-2) ;; Ok (v =? 1)
      else Ok false
  end.

(** The [else] branch of the output loop: the output's script shape. *)
Definition external_output (output_index : nat) (tx_out : CTxOut)
  : result BTCOutputType :=
  let spk := scriptPubKey tx_out in
  if CTxOut_is_p2pkh ser tx_out then
    Ok (BTCOutputExternal btc_P2PKH (firstn 20 (skipn 3 spk)) (nValue tx_out))
  else if is_p2wpkh ser spk then
    Ok (BTCOutputExternal btc_P2WPKH (skipn 2 spk) (nValue tx_out))
  else if CTxOut_is_p2sh ser tx_out then
    Ok (BTCOutputExternal btc_P2SH (firstn 20 (skipn 2 spk)) (nValue tx_out))
  else if is_p2wsh ser spk then
    Ok (BTCOutputExternal btc_P2WSH (skipn 2 spk) (nValue tx_out))
  else Raise (BadArgumentError (OutputNotRecognized output_index)).

(** One iteration of the loop over [zip(psbt.outputs, psbt.tx.vout)]: the
    record appended to [outputs]. *)
Definition output_step (master_fp : Z) (st : Locals) (output_index : nat)
  (psbt_out : PartiallySignedOutput) (tx_out : CTxOut) : result BTCOutputType :=
  found <- find_our_key master_fp (out_hd_keypaths psbt_out) ;;
  let keypath := option_map snd found in
  change <- is_change keypath ;;
  if change : bool then
    simple_type <- get_simple_type (input_index st) tx_out (out_redeem_script psbt_out) ;;
    match script_config_index_map st, keypath with
    | Some index_map, Some kp =>
        Ok (BTCOutputInternal kp (nValue tx_out) (index_map simple_type))
    | _, _ => Raise NameError
    end
  else external_output output_index tx_out.

Fixpoint output_loop (master_fp : Z) (st : Locals) (output_index : nat)
  (zipped : list (PartiallySignedOutput * CTxOut)) : result Locals :=
  match zipped with
  | [] => Ok st
  | (psbt_out, tx_out) :: rest =>
      o <- output_step master_fp st output_index psbt_out tx_out ;;
      output_loop master_fp
        (mkLocals (bip44_account st) (input_index st) (script_config_index_map st)
           (inputs_acc st) (found_pubkeys st) (outputs_acc st ++ [o]))
        (S output_index) rest
  end.

(** Everything [sign_tx] does between the fingerprint query and the
    [btc_sign] call: the two loops, the assertion, and the arguments of
    the call. *)
Definition build_request (master_fp : Z) (psbt : PSBT)
  : result (SignRequest * Locals) :=
  st <- input_loop master_fp initial_locals 0 (combine (inputs psbt) (vin (tx psbt))) ;;
  st <- output_loop master_fp st 0 (combine (outputs psbt) (vout (tx psbt))) ;;
  match bip44_account st with
  | None => Raise AssertionError
  | Some account =>
      let bip44_network := if is_testnet then 1 + HARDENED else 0 + HARDENED in
      Ok (mkSignRequest (if is_testnet then TBTC else BTC)
            [ mkScriptConfig BTCScriptConfig_P2WPKH
                [84 + HARDENED; bip44_network; account];
              mkScriptConfig BTCScriptConfig_P2WPKH_P2SH
                [49 + HARDENED; bip44_network; account] ]
            (inputs_acc st) (outputs_acc st)
            (nLockTime (tx psbt)) (nVersion (tx psbt)),
          st)
  end.

(** The closing loop over [zip(sigs, found_pubkeys, psbt.inputs)]. *)
Fixpoint merge_sigs (sigs : list (Z * bytes)) (pubkeys : list bytes)
  (psbt_ins : list PartiallySignedInput) : list PartiallySignedInput :=
  match sigs, pubkeys, psbt_ins with
  | (_, sig) :: sigs', pubkey :: pubkeys', psbt_in :: psbt_ins' =>
      let r := firstn 32 sig in
      let s := firstn 32 (skipn 32 sig) in
      mkPartiallySignedInput (non_witness_utxo psbt_in) (witness_utxo psbt_in)
        (dict_set (partial_sigs psbt_in) pubkey (ser_sig_der ser r s))
        (sighash psbt_in) (redeem_script psbt_in) (hd_keypaths psbt_in)
      :: merge_sigs sigs' pubkeys' psbt_ins'
  | _, _, _ => psbt_ins
  end.

(** The body of [sign_tx]: the device calls it made and how it ended.  The
    value is the PSBT handed to [psbt.serialize()]. *)
Definition sign_tx_body (psbt : PSBT) : list DeviceCall * result PSBT :=
  match get_master_fingerprint_hex with
  | (calls, Raise e) => (calls, Raise e)
  | (calls, Ok fingerprint) =>
      match (master_fp <- unpack_I_le fingerprint ;; build_request master_fp psbt) with
      | Raise e => (calls, Raise e)
      | Ok (req, st) =>
          (calls ++ [call_btc_sign req],
           sigs <- btc_sign bb02 req ;;
           Ok (mkPSBT (tx psbt)
                 (merge_sigs sigs (found_pubkeys st) (inputs psbt))
                 (outputs psbt)))
      end
  end.

Definition sign_tx (psbt : PSBT) : list DeviceCall * result PSBT :=
  let '(calls, r) := sign_tx_body psbt in (calls, bitbox02_exception r).

End Client.

End Bitbox02.

(** ** hwilib/devices/bitbox02.py: the other methods of the client *)

Module Bitbox02Client.

Import Bitbox02.

(** Builtin exceptions these methods raise besides those of [exn]. *)
Inductive py_exn :=
| NotImplementedError (msg : String.string)
| Exception (msg : String.string)
| Known (e : exn).

Inductive outcome (A : Type) :=
| Return (a : A)
| Throw (e : py_exn).
Arguments Return {A} a.
Arguments Throw {A} e.

Definition lift {A} (r : result A) : outcome A :=
  match r with
  | Ok a => Return a
  | Raise e => Throw (Known e)
  end.

(** The decorator [bitbox02_exception] on these outcomes: it rewrites the
    vendor's exceptions and lets every other one through. *)
Definition decorated (ERR_GENERIC : Z) {A} (o : outcome A) : outcome A :=
  match o with
  | Throw (Known e) => lift (bitbox02_exception ERR_GENERIC (@Raise A e))
  | o => o
  end.

(** Python truthiness of a string. *)
Definition nonempty (s : String.string) : bool :=
  negb (String.eqb s "").

(** [_check_address_keypath_simple], from the parsed path on. *)
Definition _check_address_keypath_simple (is_testnet : bool)
  (path_uint32s : list Z) (expected_purpose : Z) : bool :=
  if negb (Nat.eqb (length path_uint32s) 5) then false
  else match path_uint32s with
       | [purpose; coin; account; change; address] =>
           if negb (purpose =? expected_purpose) then false
           else
             let expected_coin := if is_testnet then 1 + HARDENED else 0 + HARDENED in
             if negb (coin =? expected_coin) then false
             else if negb (_keypath_check_account account) then false
             else if negb ((change =? 0) || (change =? 1)) then false
             else if negb ((0 <=? address) && (address <=? 9999)) then false
             else true
       | _ => false
       end.

(** The arguments of one [btc_address] call. *)
Record AddressRequest := mkAddressRequest {
  addr_keypath : list Z;
  addr_coin : BTCCoin;
  addr_script_config : SimpleType;
  addr_display : bool
}.

(** [display_address], from the parsed path on: the [btc_address] calls
    made and how the method ends.  [btc_address] is the device's answer. *)
Definition display_address (ERR_GENERIC : Z) (is_testnet : bool)
  (btc_address : AddressRequest -> result String.string)
  (path_uint32s : list Z) (p2sh_p2wpkh bech32 : bool)
  (redeem_script : option String.string)
  : list AddressRequest * outcome String.string :=
  let body : list AddressRequest * outcome String.string :=
    if match redeem_script with Some s => nonempty s | None => false end then
      ([], Throw (NotImplementedError "BitBox02 multisig not integrated into HWI yet"))
    else
      let keypath_exception := KeypathError path_uint32s is_testnet in
      let chosen : outcome SimpleType :=
        if p2sh_p2wpkh then
          if negb (_check_address_keypath_simple is_testnet path_uint32s PURPOSE_P2WPKH_P2SH)
          then Throw (Known keypath_exception)
          else Return BTCScriptConfig_P2WPKH_P2SH
        else if bech32 then
          if negb (_check_address_keypath_simple is_testnet path_uint32s PURPOSE_P2WPKH)
          then Throw (Known keypath_exception)
          else Return BTCScriptConfig_P2WPKH
        else
          Throw (Known (UnavailableActionError
                          "The BitBox02 does not support legacy p2pkh addresses")) in
      match chosen with
      | Throw e => ([], Throw e)
      | Return script_config =>
          let req := mkAddressRequest path_uint32s (_get_coin is_testnet)
                       script_config true in
          ([req], lift (btc_address req))
      end in
  (fst body, decorated ERR_GENERIC (snd body)).

(** [init].  [self_bb02] is [self.bb02], [enumerated] the value of
    [devices.get_any_bitbox02s()] with [path_of] reading the decoded
    ["path"] entry, [connect] the vendor's [BitBox02(...)] constructor and
    [check_min_version] the call of that name.  The value is [self.bb02]
    afterwards and how the method ends. *)
Definition init {DI BB : Type} (self_bb02 : option BB) (device_path : String.string)
  (enumerated : list DI) (path_of : DI -> String.string)
  (connect : DI -> result BB) (check_min_version : BB -> result unit)
  : option BB * outcome BB :=
  match self_bb02 with
  | Some bb02 => (Some bb02, Return bb02)
  | None =>
      match enumerated with
      | [] =>
          (None,
           Throw (Exception
                    (String.append "Could not find the hid device info for path "
                       device_path)))
      | device_info :: _ =>
          if String.eqb (path_of device_info) device_path then
            match connect device_info with
            | Raise e => (None, Throw (Known e))
            | Ok bb02 =>
                match check_min_version bb02 with
                | Raise e => (None, Throw (Known e))
                | Ok _ => (Some bb02, Return bb02)
                end
            end
          else
            (* [bb02] is read before any assignment *)
            (None, Throw (Known NameError))
      end
  end.

(** The device-management calls of the vendor API. *)
Inductive MgmtCall :=
| m_device_info
| m_set_device_name (label : String.string)
| m_set_password
| m_create_backup
| m_restore_from_mnemonic.

(** What the device returned by [self.init()] answers to them. *)
Record MgmtDevice := mkMgmtDevice {
  info_initialized : bool;               (* [device_info()["initialized"]] *)
  set_device_name : String.string -> result unit;
  set_password : result bool;
  create_backup : result bool;
  restore_from_mnemonic : result bool
}.

(** A method's device calls so far and its result. *)
Definition Traced (A : Type) : Type := list MgmtCall * result A.

Definition ret {A} (a : A) : Traced A := ([], Ok a).

Definition call {A} (c : MgmtCall) (answer : result A) : Traced A := ([c], answer).

Definition then_ {A B} (m : Traced A) (k : A -> Traced B) : Traced B :=
  match m with
  | (calls, Ok a) => let '(calls', r) := k a in (calls ++ calls', r)
  | (calls, Raise e) => (calls, Raise e)
  end.

Definition finish (ERR_GENERIC : Z) {A} (m : Traced A) : Traced A :=
  (fst m, bitbox02_exception ERR_GENERIC (snd m)).

Definition setup_device (ERR_GENERIC : Z) (bb02 : MgmtDevice)
  (label passphrase : String.string) : Traced bool :=
  finish ERR_GENERIC
    (if nonempty passphrase then
       ([], Raise (UnavailableActionError
                     "Passphrase not needed when setting up a BitBox02."))
     else
       then_ (call m_device_info (Ok (info_initialized bb02))) (fun initialized =>
       if initialized : bool then
         ([], Raise (UnavailableActionError "The BitBox02 must be wiped before setup."))
       else
         then_ (if nonempty label
                then call (m_set_device_name label) (set_device_name bb02 label)
                else ret tt) (fun _ =>
         then_ (call m_set_password (set_password bb02)) (fun ok =>
         if negb ok then ret false
         else call m_create_backup (create_backup bb02))))).

Definition restore_device (ERR_GENERIC : Z) (bb02 : MgmtDevice)
  (label : String.string) (word_count : Z) : Traced bool :=
  finish ERR_GENERIC
    (then_ (call m_device_info (Ok (info_initialized bb02))) (fun initialized =>
     if initialized : bool then
       ([], Raise (UnavailableActionError "The BitBox02 must be wiped before restore."))
     else
       then_ (if nonempty label
              then call (m_set_device_name label) (set_device_name bb02 label)
              else ret tt) (fun _ =>
       call m_restore_from_mnemonic (restore_from_mnemonic bb02)))).

End Bitbox02Client.

(** ** Vocabulary of the statements about the protocol *)

Import Protocol Bitbox02.

(** A sequence of session calls made on one [Protocol] object. *)
Inductive SessionCall := call_begin | call_end.

Definition session_step (c : SessionCall) (p : Protocol) : Protocol :=
  match c with
  | call_begin => begin_session p
  | call_end => end_session p
  end.

Definition run_session (cs : list SessionCall) (p : Protocol) : Protocol :=
  fold_left (fun p c => session_step c p) cs p.

(** Balanced: no prefix ends more sessions than it began, and the whole
    sequence ends all of them. *)
Fixpoint balanced_from (depth : nat) (cs : list SessionCall) : bool :=
  match cs with
  | [] => Nat.eqb depth 0
  | call_begin :: cs' => balanced_from (S depth) cs'
  | call_end :: cs' =>
      match depth with
      | O => false
      | S depth' => balanced_from depth' cs'
      end
  end.

Definition balanced (cs : list SessionCall) : bool := balanced_from 0 cs.

(** What the session description asks of one step that takes the depth
    from [d] to [d']: the link's open at 0 to 1, its close at 1 to 0. *)
Definition transition_calls (d d' : Z) : list HandleCall :=
  if (d =? 0) && (d' =? 1) then [h_open]
  else if (d =? 1) && (d' =? 0) then [h_close]
  else [].

(** The block that carries bytes [63 * i ..] of the buffer. *)
Definition block_of (buffer : bytes) (i : nat) : bytes :=
  ljust REPLEN x00 (x3f :: firstn 63 (skipn (63 * i) buffer)).

(** The blocks a call of [write] hands to [write_chunk]. *)
Definition chunks_written (before : Protocol) (r : result Protocol) : list bytes :=
  match r with
  | Ok after =>
      flat_map (fun c => match c with h_write_chunk chunk => [chunk] | _ => [] end)
        (skipn (length (calls (handle before))) (calls (handle after)))
  | Raise _ => []
  end.

(** The number of blocks as the chunking property words it: a first block
    that holds [N - 3] payload bytes, then blocks of [N - 1]. *)
Definition claimed_block_count (payload_len : nat) : nat :=
  if (payload_len <=? REPLEN - 3)%nat then 1%nat
  else (1 + (payload_len - (REPLEN - 3) + (REPLEN - 2)) / (REPLEN - 1))%nat.

(** Several messages written one after the other, and as many read. *)
Fixpoint write_all (p : Protocol) (msgs : list (Z * bytes)) : result Protocol :=
  match msgs with
  | [] => Ok p
  | (msg_type, ser) :: msgs' =>
      p <- write p msg_type ser ;;
      write_all p msgs'
  end.

Fixpoint read_n (count : nat) (q : Protocol) : result (list (Z * bytes) * Protocol) :=
  match count with
  | O => Ok ([], q)
  | S count' =>
      '(msg_type, data, q) <- read q ;;
      '(msgs, q) <- read_n count' q ;;
      Ok ((msg_type, data) :: msgs, q)
  end.

(** A message [write] accepts: the tag fits 16 bits, the length 32. *)
Definition packable (msg : Z * bytes) : Prop :=
  0 <= fst msg < 2 ^ 16 /\ Z.of_nat (length (snd msg)) < 2 ^ 32.

(** One block that declares a 2-byte payload and is padded with [0xff]. *)
Definition sample_block : bytes :=
  [x3f; x23; x23; x00; x11; x00; x00; x00; x02; xaa; xbb] ++ repeat xff 53.

(** Sessions begun minus sessions ended. *)
Fixpoint net_depth (cs : list SessionCall) : Z :=
  match cs with
  | [] => 0
  | call_begin :: cs' => 1 + net_depth cs'
  | call_end :: cs' => -1 + net_depth cs'
  end.

(** ** Vocabulary of the statements about [sign_tx] *)

(** The exceptions the decorator rewrites come from the vendor package. *)
Definition vendor_exception (e : exn) : bool :=
  match e with
  | UserAbortException | Bitbox02Exception _ | FirmwareVersionOutdatedException => true
  | _ => false
  end.

(** The [btc_sign] requests among the device calls. *)
Definition sign_requests (calls : list DeviceCall) : list SignRequest :=
  flat_map (fun c => match c with call_btc_sign req => [req] | _ => [] end) calls.

(** The association [find_our_key] returns: the first one, in the dict's
    order, whose fingerprint is the device's. *)
Definition first_match (master_fp : Z) (keypaths : HDKeypaths)
  (pubkey : bytes) (path : list Z) : Prop :=
  exists before after,
    keypaths = before ++ (pubkey, master_fp :: path) :: after
    /\ Forall (fun entry => exists fp rest, snd entry = fp :: rest /\ fp <> master_fp)
         before.

(** The second-to-last element of a path is [v]. *)
Definition second_to_last (path : list Z) (v : Z) : Prop :=
  exists front last, path = front ++ [v; last].

(** The condition the change-output description gives: some association
    of the device's fingerprint, a change path, of the inputs' account. *)
Definition claimed_internal (master_fp account : Z) (keypaths : HDKeypaths) : Prop :=
  exists pubkey path,
    In (pubkey, master_fp :: path) keypaths
    /\ second_to_last path 1
    /\ py_index path 2 = Ok account.

(** The paths whose extended public key the client asks the device for:
    [m/49'/coin'/account'] and [m/84'/coin'/account'] for single
    signatures, [m/48'/coin'/account'/2'] for multisig, the account
    between 0' and 99'. *)
Definition exportable (is_testnet : bool) (keypath : list Z) : Prop :=
  let coin := if is_testnet then 1 + HARDENED else 0 + HARDENED in
  (exists purpose account,
     keypath = [purpose; coin; account]
     /\ (purpose = 49 + HARDENED \/ purpose = 84 + HARDENED)
     /\ HARDENED <= account <= HARDENED + 99)
  \/ (exists account,
        keypath = [48 + HARDENED; coin; account; 2 + HARDENED]
        /\ HARDENED <= account <= HARDENED + 99).

(** An address path under [purpose]: account 0' to 99', change 0 or 1,
    address index 0 to 9999. *)
Definition address_path (is_testnet : bool) (purpose : Z) (keypath : list Z) : Prop :=
  let coin := if is_testnet then 1 + HARDENED else 0 + HARDENED in
  exists account change address,
    keypath = [purpose; coin; account; change; address]
    /\ HARDENED <= account <= HARDENED + 99
    /\ (change = 0 \/ change = 1)
    /\ 0 <= address <= 9999.

(** The purpose that goes with a script type. *)
Definition purpose_of (t : SimpleType) : Z :=
  match t with
  | BTCScriptConfig_P2WPKH_P2SH => PURPOSE_P2WPKH_P2SH
  | BTCScriptConfig_P2WPKH => PURPOSE_P2WPKH
  end.

(** The value a request's output record carries. *)
Definition output_value (o : BTCOutputType) : Z :=
  match o with
  | BTCOutputInternal _ value _ => value
  | BTCOutputExternal _ _ value => value
  end.

(** The script of [output], with [redeem] as redeem script, is of the
    script type [t]: native segwit when the script itself is p2wpkh,
    segwit-in-P2SH when it is not and is p2sh over a p2wpkh redeem script;
    a p2pkh script is of neither type. *)
Definition script_type_of (ser : Serializations) (output : CTxOut) (redeem : bytes)
  (t : SimpleType) : Prop :=
  is_p2pkh ser (scriptPubKey output) = false
  /\ match t with
     | BTCScriptConfig_P2WPKH => is_p2wpkh ser (scriptPubKey output) = true
     | BTCScriptConfig_P2WPKH_P2SH =>
         is_p2wpkh ser (scriptPubKey output) = false
         /\ CTxOut_is_p2sh ser output = true
         /\ is_p2wpkh ser redeem = true
     end.

(** The place of a script type's descriptor in the request: native segwit
    first, segwit-in-P2SH second. *)
Definition descriptor_index (t : SimpleType) : Z :=
  match t with
  | BTCScriptConfig_P2WPKH => 0
  | BTCScriptConfig_P2WPKH_P2SH => 1
  end.

(** The input [(psbt_in, tx_in)] refers, by its script config index, to the
    descriptor in [configs] of its own script type: the one the output it
    spends has, whose path starts with that type's purpose. *)
Definition refers_to_descriptor (ser : Serializations)
  (configs : list BTCScriptConfigWithKeypath)
  (pair : PartiallySignedInput * CTxIn) (input : BTCInputType) : Prop :=
  let '(psbt_in, tx_in) := pair in
  exists prevtx utxo t descriptor,
    non_witness_utxo psbt_in = Some prevtx
    /\ py_index (vout prevtx) (n (prevout tx_in)) = Ok utxo
    /\ script_type_of ser utxo (redeem_script psbt_in) t
    /\ py_index configs (in_script_config_index input) = Ok descriptor
    /\ script_config descriptor = t
    /\ firstn 1 (keypath descriptor) = [purpose_of t].

(** The request entry that describes the input [(psbt_in, tx_in)]: the
    spent output is read in the full previous transaction, whose hash is
    the one the input refers to, the key is the first one of the device,
    the script config index is that of the spent script's type, and the
    previous transaction is given field by field. *)
Definition describes_input (ser : Serializations) (master_fp : Z)
  (pair : PartiallySignedInput * CTxIn) (input : BTCInputType) : Prop :=
  let '(psbt_in, tx_in) := pair in
  exists prevtx utxo pubkey t,
    non_witness_utxo psbt_in = Some prevtx
    /\ sha256 prevtx = Some (hash (prevout tx_in))
    /\ py_index (vout prevtx) (n (prevout tx_in)) = Ok utxo
    /\ find_our_key master_fp (hd_keypaths psbt_in)
       = Ok (Some (pubkey, in_keypath input))
    /\ in_prev_out_hash input = ser_uint256 ser (hash (prevout tx_in))
    /\ in_prev_out_index input = n (prevout tx_in)
    /\ in_prev_out_value input = nValue utxo
    /\ in_sequence input = nSequence tx_in
    /\ (in_script_config_index input = 0 \/ in_script_config_index input = 1)
    /\ script_type_of ser utxo (redeem_script psbt_in) t
    /\ in_script_config_index input = descriptor_index t
    /\ pt_version (in_prev_tx input) = nVersion prevtx
    /\ pt_locktime (in_prev_tx input) = nLockTime prevtx
    /\ map pi_prev_out_hash (pt_inputs (in_prev_tx input))
       = map (fun prev_in => ser_uint256 ser (hash (prevout prev_in))) (vin prevtx)
    /\ map pi_sequence (pt_inputs (in_prev_tx input)) = map nSequence (vin prevtx)
    /\ map pi_signature_script (pt_inputs (in_prev_tx input)) = map scriptSig (vin prevtx)
    /\ map pi_prev_out_index (pt_inputs (in_prev_tx input))
       = map (fun prev_in => n (prevout prev_in)) (vin prevtx)
    /\ map po_value (pt_outputs (in_prev_tx input)) = map nValue (vout prevtx)
    /\ map po_pubkey_script (pt_outputs (in_prev_tx input))
       = map scriptPubKey (vout prevtx).

(** The key [sign_tx] remembers for an input. *)
Definition signing_key (master_fp : Z) (pair : PartiallySignedInput * CTxIn)
  (pubkey : bytes) : Prop :=
  exists path,
    find_our_key master_fp (hd_keypaths (fst pair)) = Ok (Some (pubkey, path)).

(** [d.get(k)] on a dict kept in insertion order. *)
Fixpoint dict_lookup (d : list (bytes * bytes)) (k : bytes) : option bytes :=
  match d with
  | [] => None
  | (k', v') :: d' => if bytes_eqb k' k then Some v' else dict_lookup d' k
  end.

(** The signature [sign_tx] stores for a 64-byte answer of the device. *)
Definition stored_signature (ser : Serializations) (sig : bytes) : bytes :=
  ser_sig_der ser (firstn 32 sig) (firstn 32 (skipn 32 sig)).

(** [signed_in] is [psbt_in] apart from its [partial_sigs]. *)
Definition same_but_sigs (signed_in psbt_in : PartiallySignedInput) : Prop :=
  non_witness_utxo signed_in = non_witness_utxo psbt_in
  /\ witness_utxo signed_in = witness_utxo psbt_in
  /\ sighash signed_in = sighash psbt_in
  /\ redeem_script signed_in = redeem_script psbt_in
  /\ hd_keypaths signed_in = hd_keypaths psbt_in.

(** A spent or change script of one of the two types the device signs
    for, as [get_simple_type] tells them. *)
Definition simple_script (ser : Serializations) (output : CTxOut) (redeem : bytes)
  : Prop :=
  is_p2pkh ser (scriptPubKey output) = false
  /\ (is_p2wpkh ser (scriptPubKey output) = true
      \/ (CTxOut_is_p2sh ser output = true /\ is_p2wpkh ser redeem = true)).

(** An input the loop of [sign_tx] accepts in a transaction of [account]. *)
Definition acceptable_input (ser : Serializations) (master_fp : Z) (account : Z)
  (pair : PartiallySignedInput * CTxIn) : Prop :=
  let '(psbt_in, tx_in) := pair in
  (sighash psbt_in = None \/ sighash psbt_in = Some 0 \/ sighash psbt_in = Some 1)
  /\ exists prevtx utxo pubkey path,
       non_witness_utxo psbt_in = Some prevtx
       /\ sha256 prevtx = Some (hash (prevout tx_in))
       /\ py_index (vout prevtx) (n (prevout tx_in)) = Ok utxo
       /\ find_our_key master_fp (hd_keypaths psbt_in) = Ok (Some (pubkey, path))
       /\ pubkey <> []
       /\ py_index path 2 = Ok account
       /\ simple_script ser utxo (redeem_script psbt_in).



(** The type and hash sent for a script described as external: the first
    shape, in the order p2pkh, p2wpkh, p2sh, p2wsh, that the script has,
    with the hash cut out of the script at that shape's place. *)
Definition external_shape (ser : Serializations) (tx_out : CTxOut)
  (output_type : OutputType) (output_hash : bytes) : Prop :=
  let spk := scriptPubKey tx_out in
  (CTxOut_is_p2pkh ser tx_out = true
   /\ output_type = btc_P2PKH /\ output_hash = firstn 20 (skipn 3 spk))
  \/ (CTxOut_is_p2pkh ser tx_out = false /\ is_p2wpkh ser spk = true
      /\ output_type = btc_P2WPKH /\ output_hash = skipn 2 spk)
  \/ (CTxOut_is_p2pkh ser tx_out = false /\ is_p2wpkh ser spk = false
      /\ CTxOut_is_p2sh ser tx_out = true
      /\ output_type = btc_P2SH /\ output_hash = firstn 20 (skipn 2 spk))
  \/ (CTxOut_is_p2pkh ser tx_out = false /\ is_p2wpkh ser spk = false
      /\ CTxOut_is_p2sh ser tx_out = false /\ is_p2wsh ser spk = true
      /\ output_type = btc_P2WSH /\ output_hash = skipn 2 spk).

(** The request entry that describes the output [(psbt_out, tx_out)]:
    internal, by path, amount and the index of its script type's
    descriptor, when the device's first key of the output is on a change
    path; external, by type, hash and amount, when it is not. *)
Definition describes_output (ser : Serializations) (master_fp : Z)
  (pair : PartiallySignedOutput * CTxOut) (o : BTCOutputType) : Prop :=
  let '(psbt_out, tx_out) := pair in
  (exists pubkey path t,
     first_match master_fp (out_hd_keypaths psbt_out) pubkey path
     /\ second_to_last path 1
     /\ script_type_of ser tx_out (out_redeem_script psbt_out) t
     /\ o = BTCOutputInternal path (nValue tx_out) (descriptor_index t))
  \/ ((forall pubkey path,
         first_match master_fp (out_hd_keypaths psbt_out) pubkey path ->
         ~ second_to_last path 1)
      /\ exists output_type output_hash,
           external_shape ser tx_out output_type output_hash
           /\ o = BTCOutputExternal output_type output_hash (nValue tx_out)).

(** ** Sample transactions *)

(** An instance of the absent helpers, for the samples only: the usual
    script templates, read off the first bytes and the length. *)
Definition sample_is_p2pkh (s : bytes) : bool :=
  match s with
  | x76 :: xa9 :: x14 :: rest => Nat.eqb (length rest) 22
  | _ => false
  end.

Definition sample_is_p2sh (s : bytes) : bool :=
  match s with
  | xa9 :: x14 :: rest => Nat.eqb (length rest) 21
  | _ => false
  end.

Definition sample_is_p2wpkh (s : bytes) : bool :=
  match s with
  | x00 :: x14 :: rest => Nat.eqb (length rest) 20
  | _ => false
  end.

Definition sample_is_p2wsh (s : bytes) : bool :=
  match s with
  | x00 :: x20 :: rest => Nat.eqb (length rest) 32
  | _ => false
  end.

Definition sample_serializations : Serializations :=
  mkSerializations sample_is_p2pkh sample_is_p2sh sample_is_p2wpkh sample_is_p2wsh
    (fun o => sample_is_p2pkh (scriptPubKey o))
    (fun o => sample_is_p2sh (scriptPubKey o))
    (fun h => repeat (byte_of_Z h) 32)
    (fun r s => r ++ s ++ [x01]).

(** A device whose fingerprint unpacks to 1 and which signs every input. *)
Definition sample_device : BitBox02 :=
  mkBitBox02 true [x01; x00; x00; x00]
    (fun req => Ok (map (fun _ => (0, repeat x02 64)) (req_inputs req)))
    (fun _ => Ok "xpub").

Definition sample_p2wpkh_script : bytes := x00 :: x14 :: repeat xaa 20.

Definition sample_prevtx : CTransaction :=
  mkCTransaction 2 [] [mkCTxOut 5000 sample_p2wpkh_script] 0 (Some 7).

Definition sample_tx_in : CTxIn := mkCTxIn (mkCOutPoint 7 0) [] 4294967295.

(** An input spending [sample_prevtx], with one key of the sample device
    at [m/84'/0'/account'/0/0]. *)
Definition sample_input (account : Z) : PartiallySignedInput :=
  mkPartiallySignedInput (Some sample_prevtx) None [] None []
    [([x03], [1; 84 + HARDENED; 0 + HARDENED; account + HARDENED; 0; 0])].

Definition sample_external_output : PartiallySignedOutput :=
  mkPartiallySignedOutput [] [].

Definition sample_tx (n_in : nat) (n_out : nat) : CTransaction :=
  mkCTransaction 2 (repeat sample_tx_in n_in)
    (repeat (mkCTxOut 4000 sample_p2wpkh_script) n_out) 0 None.

(** Two native-segwit inputs of account 0' and one foreign output. *)
Definition psbt_two_segwit : PSBT :=
  mkPSBT (sample_tx 2 1) [sample_input 0; sample_input 0] [sample_external_output].

(** The same with the second input's key in account 1'. *)
Definition psbt_mixed_accounts : PSBT :=
  mkPSBT (sample_tx 2 1) [sample_input 0; sample_input 1] [sample_external_output].



(** One input that asks for SIGHASH_SINGLE (3). *)
Definition sighash_single_input : PartiallySignedInput :=
  mkPartiallySignedInput (Some sample_prevtx) None [] (Some 3) []
    [([x03], [1; 84 + HARDENED; 0 + HARDENED; 0 + HARDENED; 0; 0])].

Definition psbt_sighash_single : PSBT :=
  mkPSBT (sample_tx 2 1) [sample_input 0; sighash_single_input] [sample_external_output].

(** One input whose matched path stops at the coin type. *)
Definition short_path_input : PartiallySignedInput :=
  mkPartiallySignedInput (Some sample_prevtx) None [] None []
    [([x03], [1; 84 + HARDENED; 0 + HARDENED])].

Definition psbt_short_input_path : PSBT :=
  mkPSBT (sample_tx 1 1) [short_path_input] [sample_external_output].

(** An output whose matched path has the single element 1. *)
Definition short_path_output : PartiallySignedOutput :=
  mkPartiallySignedOutput [] [([x04], [1; 1])].

Definition psbt_short_output_path : PSBT :=
  mkPSBT (sample_tx 1 1) [sample_input 0] [short_path_output].

(** A change output of the device's account 5', in a transaction whose
    inputs are of account 0'. *)
Definition other_account_change : PartiallySignedOutput :=
  mkPartiallySignedOutput []
    [([x04], [1; 84 + HARDENED; 0 + HARDENED; 5 + HARDENED; 1; 0])].

Definition psbt_other_account_change : PSBT :=
  mkPSBT (sample_tx 1 1) [sample_input 0] [other_account_change].



(** The request [sign_tx] sends for [psbt_two_segwit]. *)
Definition sample_request : SignRequest :=
  Eval vm_compute in
    hd (mkSignRequest BTC [] [] [] 0 0)
      (sign_requests
         (fst (sign_tx sample_serializations 103 sample_device false psbt_two_segwit))).

(** ** Session counting *)

Lemma session_step_calls c p :
  calls (handle (session_step c p)) =
  calls (handle p)
    ++ transition_calls (session_counter p) (session_counter (session_step c p)).
Proof.
  unfold transition_calls.
  destruct c; simpl; destruct (Z.eqb_spec (session_counter p) 0) as [E|E];
    destruct (Z.eqb_spec (session_counter p) 1) as [E1|E1]; simpl;
    try rewrite E; try rewrite E1; simpl; try lia;
    repeat match goal with
           | |- context [if ?a =? ?b then _ else _] =>
               destruct (Z.eqb_spec a b); try lia
           end;
    simpl; now rewrite ?app_nil_r.
Qed.

Lemma session_step_counter c p :
  session_counter (session_step c p) =
  match c with
  | call_begin => session_counter p + 1
  | call_end => session_counter p - 1
  end.
Proof. now destruct c. Qed.

Lemma balanced_from_run cs : forall depth p,
  balanced_from depth cs = true ->
  session_counter p = Z.of_nat depth ->
  session_counter (run_session cs p) = 0
  /\ forall k, 0 <= session_counter (run_session (firstn k cs) p).
Proof.
  induction cs as [|c cs IH]; intros depth p Hb Hp.
  - simpl in Hb. apply Nat.eqb_eq in Hb. split.
    + simpl. lia.
    + intro k. rewrite firstn_nil. simpl. lia.
  - assert (Hstep : exists depth', balanced_from depth' cs = true
                      /\ session_counter (session_step c p) = Z.of_nat depth').
    { destruct c; simpl in Hb.
      - exists (S depth). split; [exact Hb|]. rewrite session_step_counter. lia.
      - destruct depth as [|depth']; [discriminate|].
        exists depth'. split; [exact Hb|]. rewrite session_step_counter. lia. }
    destruct Hstep as (depth' & Hb' & Hp').
    destruct (IH depth' (session_step c p) Hb' Hp') as [Hend Hall].
    split; [exact Hend|].
    intros [|k]; simpl; [lia|]. apply Hall.
Qed.

(** Over a balanced run from depth [depth] the handle sees the pending
    close, if a session is open, and then whole open/close pairs. *)
Lemma balanced_from_calls cs : forall depth p,
  balanced_from depth cs = true ->
  session_counter p = Z.of_nat depth ->
  exists pairs,
    calls (handle (run_session cs p))
    = calls (handle p)
        ++ (if Nat.eqb depth 0 then [] else [h_close])
        ++ concat (repeat [h_open; h_close] pairs).
Proof.
  induction cs as [|c cs IH]; intros depth p Hb Hp.
  - simpl in Hb. rewrite Hb. exists 0%nat. simpl. now rewrite app_nil_r.
  - destruct c; simpl in Hb.
    + destruct (IH (S depth) (begin_session p) Hb) as (pairs & Hcalls).
      { unfold begin_session. cbn [session_counter]. lia. }
      change (run_session (call_begin :: cs) p) with (run_session cs (begin_session p)).
      rewrite Hcalls. unfold begin_session. cbn [handle Nat.eqb].
      destruct depth as [|depth].
      * rewrite Hp. cbn [Z.of_nat Z.eqb Nat.eqb open calls].
        exists (S pairs). cbn [repeat concat app]. now rewrite <- app_assoc.
      * replace (session_counter p =? 0) with false by (symmetry; apply Z.eqb_neq; lia).
        exists pairs. reflexivity.
    + destruct depth as [|depth]; [discriminate|].
      destruct (IH depth (end_session p) Hb) as (pairs & Hcalls).
      { unfold end_session. cbn [session_counter]. lia. }
      change (run_session (call_end :: cs) p) with (run_session cs (end_session p)).
      rewrite Hcalls. unfold end_session. cbn [handle Nat.eqb].
      destruct depth as [|depth].
      * replace (session_counter p =? 1) with true by (symmetry; apply Z.eqb_eq; lia).
        cbn [Nat.eqb close calls app]. exists pairs. now rewrite <- app_assoc.
      * replace (session_counter p =? 1) with false by (symmetry; apply Z.eqb_neq; lia).
        exists pairs. reflexivity.
Qed.

(** C7: along a balanced sequence of [begin_session]/[end_session] calls
    on a fresh protocol object, the session counter is never negative;
    each call reaches the handle exactly as the depth transition it makes
    asks ([open] at 0 to 1, [close] at 1 to 0, nothing otherwise); the
    counter is back at 0 at the end, the handle having seen whole
    open/close pairs in that order; and begin, begin, end, end calls
    [open] once and then [close] once. *)
Theorem session_open_close_at_boundaries (h : Handle) (cs : list SessionCall) :
  balanced cs = true ->
  (forall k, 0 <= session_counter (run_session (firstn k cs) (init h)))
  /\ (forall k c, nth_error cs k = Some c ->
        let before := run_session (firstn k cs) (init h) in
        let after := session_step c before in
        calls (handle after) =
        calls (handle before)
          ++ transition_calls (session_counter before) (session_counter after))
  /\ session_counter (run_session cs (init h)) = 0
  /\ (exists pairs,
        calls (handle (run_session cs (init h)))
        = calls h ++ concat (repeat [h_open; h_close] pairs))
  /\ calls (handle (run_session [call_begin; call_begin; call_end; call_end] (init h)))
     = calls h ++ [h_open; h_close].
Proof.
  intro Hb.
  destruct (balanced_from_run cs 0 (init h) Hb eq_refl) as [Hend Hall].
  destruct (balanced_from_calls cs 0 (init h) Hb eq_refl) as (pairs & Hpairs).
  split; [exact Hall|]. split; [|split; [exact Hend|split]].
  - intros k c _. apply session_step_calls.
  - exists pairs. exact Hpairs.
  - simpl. now rewrite <- app_assoc.
Qed.

Lemma session_open_close_at_boundaries_witness :
  balanced [call_begin; call_begin; call_end; call_end] = true
  /\ calls (handle (run_session [call_begin; call_begin; call_end; call_end]
                      (init (mkHandle [] []))))
     = [h_open; h_close].
Proof.
  split; [reflexivity|].
  apply (session_open_close_at_boundaries (mkHandle [] [])
           [call_begin; call_begin; call_end; call_end] eq_refl).
Defined.

(** ** Bytes and the header *)

Lemma Z_of_byte_of_Z z : Z_of_byte (byte_of_Z z) = z mod 256.
Proof.
  unfold Z_of_byte, byte_of_Z.
  assert (Hr : 0 <= z mod 256 < 256) by (apply Z.mod_pos_bound; lia).
  destruct (Byte.of_N (Z.to_N (z mod 256))) as [b|] eqn:E.
  - apply Byte.to_of_N in E. rewrite E. lia.
  - apply Byte.of_N_None_iff in E. lia.
Qed.

Lemma bytes_eqb_refl (b : bytes) : bytes_eqb b b = true.
Proof.
  induction b as [|x b IH]; [reflexivity|].
  cbn [bytes_eqb]. now rewrite (Byte.byte_dec_lb (x := x) eq_refl), IH.
Qed.

Lemma unpack_pack_HL a b header :
  pack_HL a b = Ok header -> unpack_HL header = Ok (a, b).
Proof.
  unfold pack_HL.
  destruct ((0 <=? a) && (a <? 2 ^ 16) && (0 <=? b) && (b <? 2 ^ 32)) eqn:E;
    [|discriminate].
  repeat rewrite andb_true_iff in E. destruct E as [[[Ha0 Ha1] Hb0] Hb1].
  apply Z.leb_le in Ha0, Hb0. apply Z.ltb_lt in Ha1, Hb1.
  intro H. inversion H; subst header; clear H.
  unfold unpack_HL. rewrite !Z_of_byte_of_Z.
  change (2 ^ 8) with 256 in *. change (2 ^ 16) with 65536 in *.
  change (2 ^ 24) with 16777216 in *. change (2 ^ 32) with 4294967296 in *.
  f_equal. f_equal; Z.div_mod_to_equations; lia.
Qed.

Lemma pack_HL_ok a b :
  0 <= a < 2 ^ 16 -> 0 <= b < 2 ^ 32 ->
  exists h1 h2 h3 h4 h5 h6, pack_HL a b = Ok [h1; h2; h3; h4; h5; h6].
Proof.
  intros Ha Hb. unfold pack_HL.
  replace ((0 <=? a) && (a <? 2 ^ 16) && (0 <=? b) && (b <? 2 ^ 32)) with true.
  - repeat eexists.
  - symmetry. repeat rewrite andb_true_iff.
    repeat split; try apply Z.leb_le; try apply Z.ltb_lt; lia.
Qed.

(** ** The blocks [ProtocolV1.write] sends *)

(** [lia] after the quotients by a constant have been named. *)
Ltac div_lia := zify; Z.to_euclidean_division_equations; lia.

Lemma ljust_length width fill b :
  (length b <= width)%nat -> length (ljust width fill b) = width.
Proof. intro H. unfold ljust. rewrite length_app, repeat_length. lia. Qed.

Lemma block_of_length buffer i : length (block_of buffer i) = REPLEN.
Proof.
  unfold block_of. apply ljust_length. cbn [length].
  rewrite length_firstn. unfold REPLEN. lia.
Qed.

Lemma skipn1_block_of buffer i :
  skipn 1 (block_of buffer i) =
  firstn 63 (skipn (63 * i) buffer)
    ++ repeat x00 (63 - length (firstn 63 (skipn (63 * i) buffer))).
Proof. reflexivity. Qed.

Lemma write_loop_chunks : forall (len : nat) (buffer : bytes) (h : Handle),
  length buffer = len ->
  exists chunks,
    write_loop h buffer = mkHandle (calls h ++ map h_write_chunk chunks) (pending h)
    /\ length chunks = ((length buffer + 62) / 63)%nat
    /\ (forall i, (i < length chunks)%nat -> nth i chunks [] = block_of buffer i)
    /\ concat (map (skipn 1) chunks)
       = buffer ++ repeat x00 (63 * length chunks - length buffer).
Proof.
  induction len as [len IH] using lt_wf_ind. intros buffer h Hlen.
  destruct buffer as [|b rest].
  - exists []. rewrite write_loop_equation_1. simpl.
    rewrite app_nil_r. destruct h. repeat split. intros i Hi. lia.
  - rewrite write_loop_equation_2. cbv zeta.
    set (buffer := b :: rest) in *.
    assert (Hshort : (length (skipn 63 buffer) < len)%nat).
    { rewrite length_skipn. subst buffer. simpl length in *. lia. }
    destruct (IH _ Hshort (skipn 63 buffer)
                (write_chunk h (ljust REPLEN x00 (x3f :: firstn (REPLEN - 1) buffer)))
                eq_refl)
      as (chunks & Hw & Hn & Hnth & Hcat).
    exists (block_of buffer 0 :: chunks).
    assert (H0 : block_of buffer 0 = ljust REPLEN x00 (x3f :: firstn (REPLEN - 1) buffer)).
    { reflexivity. }
    rewrite length_skipn in Hn, Hcat.
    assert (Hpos : (1 <= length buffer)%nat) by (subst buffer; simpl; lia).
    repeat split.
    + rewrite Hw. simpl. rewrite <- app_assoc. now rewrite H0.
    + cbn [length]. rewrite Hn. clear -Hpos. div_lia.
    + intros [|i] Hi; [reflexivity|]. cbn [length] in Hi. cbn [nth].
      assert (Hi' : (i < length chunks)%nat) by (clear -Hi; lia).
      rewrite (Hnth i Hi'). unfold block_of. rewrite skipn_skipn.
      replace (63 * i + 63)%nat with (63 * S i)%nat by lia. reflexivity.
    + cbn [map concat]. rewrite Hcat, skipn1_block_of.
      change (skipn (63 * 0) buffer) with buffer. rewrite length_firstn.
      destruct (Nat.le_gt_cases 63 (length buffer)) as [Hge|Hlt].
      * replace (63 - Nat.min 63 (length buffer))%nat with 0%nat by lia.
        cbn [repeat]. rewrite app_nil_r, app_assoc, firstn_skipn.
        f_equal. f_equal. cbn [length]. rewrite Hn. clear -Hge. div_lia.
      * rewrite (skipn_all2 buffer) by lia.
        rewrite (firstn_all2 buffer) by lia.
        cbn [length]. rewrite Hn.
        replace ((length buffer - 63 + 62) / 63)%nat with 0%nat
          by (clear -Hlt; div_lia).
        replace (63 * 0 - (length buffer - 63))%nat with 0%nat by lia.
        replace (63 - Nat.min 63 (length buffer))%nat
          with (63 * 1 - length buffer)%nat by lia.
        cbn [app repeat]. now rewrite app_nil_r.
Qed.

Lemma last_nth {A} (l : list A) (d : A) : last l d = nth (length l - 1) l d.
Proof.
  induction l as [|a [|b l] IH]; try reflexivity.
  change (last (a :: b :: l) d) with (last (b :: l) d). rewrite IH.
  cbn [length]. replace (S (S (length l)) - 1)%nat with (S (length l - 0)) by lia.
  cbn [nth]. now replace (S (length l) - 1)%nat with (length l - 0)%nat by lia.
Qed.

Lemma Forall_of_nth {A} (P : A -> Prop) (l : list A) (d : A) :
  (forall i, (i < length l)%nat -> P (nth i l d)) -> Forall P l.
Proof.
  induction l as [|a l IH]; intro H; constructor.
  - apply (H 0%nat). simpl. lia.
  - apply IH. intros i Hi. apply (H (S i)). simpl. lia.
Qed.

(** C3, as stated, fails: a payload of [N - 3] = 61 bytes needs two blocks,
    where first-block room for [N - 3] payload bytes would give one. *)
Lemma write_block_count_not_claimed :
  let p := init (mkHandle [] []) in
  let ser := repeat x01 61 in
  length (chunks_written p (write p 17 ser)) = 2%nat
  /\ claimed_block_count (length ser) = 1%nat.
Proof. split; vm_compute; reflexivity. Qed.

(** C3, amended: [write] sends [1 + ceil (max 0 (L - (N - 9)) / (N - 1))]
    blocks for a payload of [L] bytes, each of exactly [N] = 64 bytes.  The
    first is the magic, the 6-byte header and the first [N - 9] = 55
    payload bytes; block [i >= 1] is ['?'] and the next [N - 1] = 63 payload
    bytes; each is filled up with zero bytes, which for the last block are
    the [63 * blocks - (8 + L)] bytes after the end of the payload. *)
Theorem write_block_count (p : Protocol) (msg_type : Z) (ser : bytes) :
  0 <= msg_type < 2 ^ 16 ->
  Z.of_nat (length ser) < 2 ^ 32 ->
  exists header chunks,
    pack_HL msg_type (Z.of_nat (length ser)) = Ok header
    /\ write p msg_type ser
       = Ok (mkProtocol
               (mkHandle (calls (handle p) ++ map h_write_chunk chunks)
                  (pending (handle p)))
               (session_counter p))
    /\ length chunks
       = (1 + (length ser - (REPLEN - 9) + (REPLEN - 2)) / (REPLEN - 1))%nat
    /\ Forall (fun chunk => length chunk = REPLEN) chunks
    /\ nth 0 chunks []
       = ljust REPLEN x00 ([x3f; x23; x23] ++ header ++ firstn (REPLEN - 9) ser)
    /\ (forall i, (1 <= i < length chunks)%nat ->
          nth i chunks []
          = ljust REPLEN x00
              (x3f :: firstn (REPLEN - 1)
                        (skipn (REPLEN - 9 + (REPLEN - 1) * (i - 1)) ser)))
    /\ last chunks []
       = (x3f :: skipn ((REPLEN - 1) * (length chunks - 1)) ([x23; x23] ++ header ++ ser))
           ++ repeat x00 ((REPLEN - 1) * length chunks - (8 + length ser)).
Proof.
  intros Ht Hlen.
  destruct (pack_HL_ok msg_type (Z.of_nat (length ser))) as (h1 & h2 & h3 & h4 & h5 & h6 & Hpack);
    [exact Ht | lia |].
  set (header := [h1; h2; h3; h4; h5; h6]) in *.
  set (buffer := [x23; x23] ++ header ++ ser).
  assert (Hbuf : length buffer = (8 + length ser)%nat) by reflexivity.
  destruct (write_loop_chunks (length buffer) buffer (handle p) eq_refl)
    as (chunks & Hw & Hn & Hnth & _).
  exists header, chunks. unfold REPLEN.
  assert (Hcount : length chunks = (1 + (length ser - 55 + 62) / 63)%nat).
  { rewrite Hn, Hbuf. clear. div_lia. }
  assert (Hpos : (0 < length chunks)%nat) by lia.
  repeat split.
  - exact Hpack.
  - unfold write. rewrite Hpack. cbn [bind]. fold buffer. now rewrite Hw.
  - exact Hcount.
  - apply Forall_of_nth with (d := []). intros i Hi. rewrite (Hnth i Hi).
    apply block_of_length.
  - rewrite (Hnth 0%nat Hpos). reflexivity.
  - intros i [Hi1 Hi2]. rewrite (Hnth i Hi2). unfold block_of, REPLEN.
    do 3 f_equal. unfold buffer.
    change ([x23; x23] ++ header ++ ser) with ((x23 :: x23 :: header) ++ ser).
    rewrite skipn_app, skipn_all2 by (cbn [length header]; lia).
    cbn [app length header]. f_equal. lia.
  - rewrite last_nth, (Hnth (length chunks - 1)%nat) by lia.
    fold buffer. unfold block_of, ljust, REPLEN.
    rewrite firstn_all2 by (rewrite length_skipn, Hn; clear; div_lia).
    f_equal. f_equal. cbn [length]. rewrite length_skipn, Hn, Hbuf. clear. div_lia.
Qed.

Lemma write_block_count_witness :
  exists header chunks,
    pack_HL 17 61 = Ok header
    /\ write (init (mkHandle [] [])) 17 (repeat x01 61)
       = Ok (mkProtocol (mkHandle (map h_write_chunk chunks) []) 0)
    /\ length chunks = 2%nat.
Proof.
  assert (Ht : 0 <= 17 < 2 ^ 16) by lia.
  assert (Hlen : Z.of_nat (length (repeat x01 61)) < 2 ^ 32) by (vm_compute; reflexivity).
  destruct (write_block_count (init (mkHandle [] [])) 17 (repeat x01 61) Ht Hlen)
    as (header & chunks & H1 & H2 & H3 & _).
  exists header, chunks. repeat split; assumption.
Defined.

(** ** Reading back what [write] sent *)

Lemma read_loop_unfold h datalen buffer :
  read_loop h datalen buffer =
  if Z.of_nat (length buffer) <? datalen then
    match read_next h with
    | Raise e => Raise e
    | Ok (data, h') => read_loop h' datalen (buffer ++ data)
    end
  else Ok (buffer, h).
Proof.
  funelim (read_loop h datalen buffer).
  all: match goal with H : (_ <? _) = _ |- _ => rewrite H end; try reflexivity.
  all: match goal with H : read_next _ = _ |- _ => rewrite H end; reflexivity.
Qed.

Lemma read_next_cons h chunk rest :
  pending h = chunk :: rest ->
  firstn 1 chunk = [x3f] ->
  read_next h = Ok (skipn 1 chunk, mkHandle (calls h ++ [h_read_chunk]) rest).
Proof.
  intros Hp Hmagic. unfold read_next, read_chunk. rewrite Hp. cbn [bind].
  now rewrite Hmagic.
Qed.

(** The loop consumes exactly the blocks it needs: [chunks] when the last
    of them is the first to bring the buffer up to [datalen]. *)
Lemma read_loop_blocks : forall (chunks : list bytes) h datalen buffer later,
  pending h = chunks ++ later ->
  Forall (fun chunk => length chunk = REPLEN /\ firstn 1 chunk = [x3f]) chunks ->
  datalen <= Z.of_nat (length buffer) + 63 * Z.of_nat (length chunks) ->
  (chunks <> [] ->
   Z.of_nat (length buffer) + 63 * Z.of_nat (length chunks) - 63 < datalen) ->
  read_loop h datalen buffer
  = Ok (buffer ++ concat (map (skipn 1) chunks),
        mkHandle (calls h ++ repeat h_read_chunk (length chunks)) later).
Proof.
  induction chunks as [|chunk chunks IH]; intros h datalen buffer later Hp Hall Hup Hlow;
    rewrite read_loop_unfold.
  - cbn [length] in Hup. replace (Z.of_nat (length buffer) <? datalen) with false
      by (symmetry; apply Z.ltb_ge; lia).
    cbn. rewrite !app_nil_r. destruct h; cbn in *. now subst.
  - specialize (Hlow ltac:(discriminate)). cbn [length] in Hup, Hlow.
    replace (Z.of_nat (length buffer) <? datalen) with true
      by (symmetry; apply Z.ltb_lt; lia).
    inversion Hall as [|? ? [Hsize Hmagic] Hall']; subst.
    rewrite (read_next_cons h chunk (chunks ++ later) Hp Hmagic).
    assert (Hdata : length (skipn 1 chunk) = 63%nat).
    { rewrite length_skipn, Hsize. reflexivity. }
    rewrite (IH (mkHandle (calls h ++ [h_read_chunk]) (chunks ++ later))
               datalen (buffer ++ skipn 1 chunk) later eq_refl Hall').
    + cbn [map concat calls length repeat]. rewrite <- !app_assoc. reflexivity.
    + rewrite length_app, Hdata. lia.
    + intros _. rewrite length_app, Hdata.
      lia.
Qed.

(** C4: for every 16-bit type tag and every payload whose length fits the
    32-bit length field, [write] succeeds, and [read] on a link that
    delivers the blocks [write] sent (followed by anything) returns the
    same type tag and payload, having consumed exactly those blocks. *)
Theorem write_read_roundtrip (p : Protocol) (msg_type : Z) (ser : bytes) :
  0 <= msg_type < 2 ^ 16 ->
  Z.of_nat (length ser) < 2 ^ 32 ->
  exists chunks,
    write p msg_type ser
    = Ok (mkProtocol
            (mkHandle (calls (handle p) ++ map h_write_chunk chunks)
               (pending (handle p)))
            (session_counter p))
    /\ forall (q : Protocol) (later : list bytes),
         pending (handle q) = chunks ++ later ->
         read q
         = Ok (msg_type, ser,
               mkProtocol
                 (mkHandle
                    (calls (handle q) ++ repeat h_read_chunk (length chunks))
                    later)
                 (session_counter q)).
Proof.
  intros Ht Hlen.
  destruct (pack_HL_ok msg_type (Z.of_nat (length ser))) as (h1 & h2 & h3 & h4 & h5 & h6 & Hpack);
    [exact Ht | lia |].
  pose proof (unpack_pack_HL _ _ _ Hpack) as Hunpack.
  set (header := [h1; h2; h3; h4; h5; h6]) in *.
  set (buffer := [x23; x23] ++ header ++ ser).
  assert (Hbuf : length buffer = (8 + length ser)%nat) by reflexivity.
  destruct (write_loop_chunks (length buffer) buffer (handle p) eq_refl)
    as (chunks & Hw & Hn & Hnth & Hcat).
  exists chunks. split.
  { unfold write. rewrite Hpack. cbn [bind]. fold buffer. now rewrite Hw. }
  intros q later Hq.
  destruct chunks as [|first chunks].
  { exfalso. cbn [length] in Hn. rewrite Hbuf in Hn. clear -Hn. div_lia. }
  assert (Hfirst : first = block_of buffer 0).
  { apply (Hnth 0%nat). cbn [length]. lia. }
  assert (Hrest : Forall (fun chunk => length chunk = REPLEN /\ firstn 1 chunk = [x3f]) chunks).
  { apply Forall_of_nth with (d := []). intros i Hi.
    specialize (Hnth (S i)). cbn [nth length] in Hnth. rewrite Hnth by lia.
    split; [apply block_of_length | reflexivity]. }
  assert (Hfirst_len : length first = 64%nat).
  { rewrite Hfirst. apply block_of_length. }
  (* the first block: magic, header, and the first payload bytes *)
  assert (Hhead : firstn 3 first = [x3f; x23; x23]
                  /\ firstn 6 (skipn 3 first) = header).
  { rewrite Hfirst. split; reflexivity. }
  destruct Hhead as [Hmagic Hheader].
  unfold read, read_first, read_chunk. rewrite Hq. cbn [app bind].
  rewrite Hmagic, bytes_eqb_refl. cbn [negb].
  rewrite Hheader, Hunpack. cbn [bind Nat.add].
  cbn [length] in Hn. rewrite Hbuf in Hn.
  rewrite (read_loop_blocks chunks
             (mkHandle (calls (handle q) ++ [h_read_chunk]) (chunks ++ later))
             (Z.of_nat (length ser)) (skipn 9 first) later eq_refl Hrest).
  - cbn [bind calls]. rewrite Nat2Z.id.
    cbn [map concat] in Hcat.
    assert (Hskip : skipn 9 first ++ concat (map (skipn 1) chunks)
                    = ser ++ repeat x00 (63 * S (length chunks) - length buffer)).
    { replace (skipn 9 first) with (skipn 8 (skipn 1 first))
        by (now rewrite skipn_skipn).
      replace (skipn 8 (skipn 1 first) ++ concat (map (skipn 1) chunks))
        with (skipn 8 (skipn 1 first ++ concat (map (skipn 1) chunks))).
      - rewrite Hcat. reflexivity.
      - rewrite skipn_app, length_skipn, Hfirst_len. reflexivity. }
    rewrite Hskip, firstn_app, firstn_all, Nat.sub_diag. cbn [firstn].
    rewrite app_nil_r. cbn [length repeat]. rewrite <- app_assoc. reflexivity.
  - rewrite length_skipn, Hfirst_len. clear -Hn. div_lia.
  - intros _. rewrite length_skipn, Hfirst_len. clear -Hn. div_lia.
Qed.

Lemma write_read_roundtrip_witness :
  exists chunks,
    write (init (mkHandle [] [])) 17 (repeat x01 200)
    = Ok (mkProtocol (mkHandle (map h_write_chunk chunks) []) 0)
    /\ read (init (mkHandle [] chunks))
       = Ok (17, repeat x01 200,
             mkProtocol (mkHandle (repeat h_read_chunk (length chunks)) []) 0).
Proof.
  assert (Ht : 0 <= 17 < 2 ^ 16) by lia.
  assert (Hlen : Z.of_nat (length (repeat x01 200)) < 2 ^ 32) by (vm_compute; reflexivity).
  destruct (write_read_roundtrip (init (mkHandle [] [])) 17 (repeat x01 200) Ht Hlen)
    as (chunks & Hw & Hr).
  exists chunks. split; [exact Hw|].
  apply (Hr (init (mkHandle [] chunks)) []). cbn. now rewrite app_nil_r.
Defined.

(** ** [sign_tx]: how a failure inside the loops ends the call *)

Section SignTx.

Variable ser : Serializations.
Variable ERR_GENERIC : Z.
Variable bb02 : BitBox02.
Variable is_testnet : bool.

#[local] Abbreviation input_step := (input_step ser).
#[local] Abbreviation input_loop := (input_loop ser).
#[local] Abbreviation output_step := (output_step ser).
#[local] Abbreviation output_loop := (output_loop ser).
#[local] Abbreviation build_request := (build_request ser is_testnet).
#[local] Abbreviation sign_tx := (sign_tx ser ERR_GENERIC bb02 is_testnet).

Lemma bitbox02_exception_other {A} (e : exn) :
  vendor_exception e = false ->
  bitbox02_exception ERR_GENERIC (@Raise A e) = Raise e.
Proof. destruct e; simpl; congruence. Qed.

Lemma input_loop_app master_fp l1 : forall l2 st idx,
  input_loop master_fp st idx (l1 ++ l2) =
  (st' <- input_loop master_fp st idx l1 ;;
   input_loop master_fp st' (idx + length l1) l2).
Proof.
  induction l1 as [|[psbt_in tx_in] l1 IH]; intros l2 st idx; cbn [app input_loop length bind].
  - now rewrite Nat.add_0_r.
  - destruct (input_step master_fp st idx psbt_in tx_in) as [st1|e]; cbn [bind].
    + rewrite IH. now replace (S idx + length l1)%nat with (idx + S (length l1))%nat by lia.
    + reflexivity.
Qed.

Lemma nth_error_split_firstn {A} (l : list A) i x :
  nth_error l i = Some x -> l = firstn i l ++ x :: skipn (S i) l /\ length (firstn i l) = i.
Proof.
  revert i. induction l as [|a l IH]; intros [|i] H; try discriminate.
  - inversion H. now split.
  - destruct (IH i H) as [E L]. split.
    + cbn [firstn skipn app]. cbn [skipn] in E. now rewrite <- E.
    + cbn [firstn length]. now rewrite L.
Qed.

(** The loop stops at the first input whose iteration raises. *)
Lemma input_loop_raises master_fp zipped i psbt_in tx_in st e :
  nth_error zipped i = Some (psbt_in, tx_in) ->
  input_loop master_fp initial_locals 0 (firstn i zipped) = Ok st ->
  input_step master_fp st i psbt_in tx_in = Raise e ->
  input_loop master_fp initial_locals 0 zipped = Raise e.
Proof.
  intros Hnth Hpre Hstep.
  destruct (nth_error_split_firstn _ _ _ Hnth) as [Hsplit Hlen].
  rewrite Hsplit, input_loop_app, Hpre, Hlen. cbn [bind Nat.add input_loop].
  now rewrite Hstep.
Qed.

(** An input no iteration accepts makes the loop fail, whatever precedes. *)
Lemma input_loop_never_ok master_fp zipped i psbt_in tx_in :
  nth_error zipped i = Some (psbt_in, tx_in) ->
  (forall st, is_ok (input_step master_fp st i psbt_in tx_in) = false) ->
  is_ok (input_loop master_fp initial_locals 0 zipped) = false.
Proof.
  intros Hnth Hstep.
  destruct (nth_error_split_firstn _ _ _ Hnth) as [Hsplit Hlen].
  rewrite Hsplit, input_loop_app, Hlen.
  destruct (input_loop master_fp initial_locals 0 (firstn i zipped)) as [st|e];
    cbn [bind Nat.add input_loop]; [|reflexivity].
  specialize (Hstep st).
  destruct (input_step master_fp st i psbt_in tx_in); [discriminate|reflexivity].
Qed.

Lemma build_request_input_raise master_fp psbt e :
  input_loop master_fp initial_locals 0 (combine (inputs psbt) (vin (tx psbt))) = Raise e ->
  build_request master_fp psbt = Raise e.
Proof. intro H. unfold Bitbox02.build_request. now rewrite H. Qed.

Lemma build_request_input_not_ok master_fp psbt :
  is_ok (input_loop master_fp initial_locals 0 (combine (inputs psbt) (vin (tx psbt)))) = false ->
  is_ok (build_request master_fp psbt) = false.
Proof.
  intro H. unfold Bitbox02.build_request.
  destruct (input_loop _ _ _ _); [discriminate|reflexivity].
Qed.

(** A [btc_sign] call in the trace carries a request [build_request] built. *)
Lemma sign_tx_btc_sign_built psbt req :
  In (call_btc_sign req) (fst (sign_tx psbt)) ->
  exists master_fp st,
    unpack_I_le (root_fingerprint bb02) = Ok master_fp
    /\ build_request master_fp psbt = Ok (req, st).
Proof.
  unfold Bitbox02.sign_tx, sign_tx_body, get_master_fingerprint_hex.
  destruct (initialized bb02); cbn [negb].
  - destruct (unpack_I_le (root_fingerprint bb02)) as [master_fp|e]; cbn [bind].
    + destruct (Bitbox02.build_request ser is_testnet master_fp psbt) as [[req' st]|e] eqn:E;
        cbn [fst].
      * intro Hin. apply in_app_or in Hin. destruct Hin as [Hin|Hin].
        -- cbn in Hin. destruct Hin as [H|[H|[]]]; discriminate.
        -- cbn in Hin. destruct Hin as [H|[]]. inversion H; subst.
           exists master_fp, st. now split.
      * cbn. intros [H|[H|[]]]; discriminate.
    + cbn. intros [H|[H|[]]]; discriminate.
  - cbn. intros [H|[]]; discriminate.
Qed.

(** When no request can be built, the call fails without a [btc_sign]. *)
Lemma sign_tx_not_built psbt :
  (forall master_fp, unpack_I_le (root_fingerprint bb02) = Ok master_fp ->
                     is_ok (build_request master_fp psbt) = false) ->
  is_ok (snd (sign_tx psbt)) = false
  /\ (forall req, ~ In (call_btc_sign req) (fst (sign_tx psbt)))
  /\ incl (fst (sign_tx psbt)) [call_device_info; call_root_fingerprint].
Proof.
  intro Hno. split; [|split].
  - unfold Bitbox02.sign_tx, sign_tx_body, get_master_fingerprint_hex.
    destruct (initialized bb02); cbn [negb]; [|reflexivity].
    destruct (unpack_I_le (root_fingerprint bb02)) as [master_fp|e] eqn:E; cbn [bind].
    + specialize (Hno master_fp eq_refl).
      destruct (Bitbox02.build_request ser is_testnet master_fp psbt) as [[req st]|e'];
        [discriminate|].
      cbn. destruct e'; try reflexivity. cbn. now destruct (_ || _).
    + cbn. destruct e; try reflexivity. cbn. now destruct (_ || _).
  - intros req Hin. destruct (sign_tx_btc_sign_built _ _ Hin) as (fp & st & Hfp & Hb).
    specialize (Hno fp Hfp). rewrite Hb in Hno. discriminate.
  - unfold Bitbox02.sign_tx, sign_tx_body, get_master_fingerprint_hex.
    destruct (initialized bb02); cbn [negb].
    + destruct (unpack_I_le (root_fingerprint bb02)) as [master_fp|e] eqn:E; cbn [bind].
      * specialize (Hno master_fp eq_refl).
        destruct (Bitbox02.build_request ser is_testnet master_fp psbt) as [[req st]|e'];
          [discriminate|].
        cbn [fst]. apply incl_refl.
      * cbn [fst]. apply incl_refl.
    + cbn [fst]. intros c [H|[]]. subst. now left.
Qed.

(** With the fingerprint obtained, a failure of the translation is the
    failure of the call, after the identity query alone. *)
Lemma sign_tx_build_raise psbt master_fp e :
  initialized bb02 = true ->
  unpack_I_le (root_fingerprint bb02) = Ok master_fp ->
  build_request master_fp psbt = Raise e ->
  vendor_exception e = false ->
  sign_tx psbt = ([call_device_info; call_root_fingerprint], Raise e).
Proof.
  intros Hinit Hfp Hb He.
  unfold Bitbox02.sign_tx, sign_tx_body, get_master_fingerprint_hex.
  rewrite Hinit. cbn [negb]. rewrite Hfp. cbn [bind]. rewrite Hb.
  now rewrite bitbox02_exception_other.
Qed.

End SignTx.

(** ** Keypath policy *)

Lemma _keypath_check_account_range account :
  _keypath_check_account account = true
  <-> HARDENED <= account <= HARDENED + 99.
Proof.
  unfold _keypath_check_account. rewrite andb_true_iff, !Z.leb_le. tauto.
Qed.

Lemma get_pubkey_at_path_rejects bb02 (is_testnet : bool) purpose coin account :
  coin <> (if is_testnet then 1 + HARDENED else 0 + HARDENED)
  \/ _keypath_check_account account = false ->
  get_pubkey_at_path bb02 is_testnet [purpose; coin; account]
  = ([], Raise (KeypathError [purpose; coin; account] is_testnet)).
Proof.
  intro H. unfold get_pubkey_at_path, _get_xpub.
  replace (negb (coin =? (if is_testnet then 1 + HARDENED else 0 + HARDENED))
           || negb (_keypath_check_account account)) with true; [reflexivity|].
  symmetry. apply orb_true_iff. destruct H as [H|H].
  - left. apply negb_true_iff, Z.eqb_neq, H.
  - right. now rewrite H.
Qed.

Lemma get_xpub_mainnet_forwards bb02 purpose account :
  purpose = 49 + HARDENED \/ purpose = 84 + HARDENED ->
  HARDENED <= account <= HARDENED + 99 ->
  let req := mkXpubRequest [purpose; 0 + HARDENED; account] BTC XPUB false in
  _get_xpub bb02 false [purpose; 0 + HARDENED; account]
  = ([call_btc_xpub req], btc_xpub bb02 req).
Proof.
  intros Hp Ha. cbv zeta. unfold _get_xpub, _get_coin.
  rewrite Z.eqb_refl, (proj2 (_keypath_check_account_range account) Ha).
  cbn [negb orb]. destruct Hp as [-> | ->]; reflexivity.
Qed.

(** The export entry point on a path [_get_xpub] forwards: the request
    reaches the device, whose answer is the method's, a [ValueError] of the
    device apart. *)
Lemma get_pubkey_at_path_forwards bb02 (is_testnet : bool) keypath req :
  _get_xpub bb02 is_testnet keypath = ([call_btc_xpub req], btc_xpub bb02 req) ->
  fst (get_pubkey_at_path bb02 is_testnet keypath) = [call_btc_xpub req]
  /\ (forall xpub, btc_xpub bb02 req = Ok xpub ->
        get_pubkey_at_path bb02 is_testnet keypath = ([call_btc_xpub req], Ok xpub))
  /\ (forall e, btc_xpub bb02 req = Raise e -> e <> ValueError ->
        get_pubkey_at_path bb02 is_testnet keypath = ([call_btc_xpub req], Raise e)).
Proof.
  intros H. unfold get_pubkey_at_path. rewrite H.
  destruct (btc_xpub bb02 req) as [xpub|e].
  - split; [reflexivity|]. split; [intros x [= <-]; reflexivity | discriminate].
  - split; [destruct e; reflexivity|]. split; [discriminate|].
    intros e' [= <-] Hne. destruct e; try reflexivity. contradiction.
Qed.

(** C8: on mainnet public-key export of [84',0',0'] is accepted:
    [get_pubkey_at_path] sends the path to the device, through the
    singlesig branch of [_get_xpub] under the native-segwit purpose, and
    returns the device's xpub; so it is for account 99' and for every
    account from 0' to 99'.  [get_pubkey_at_path] answers [84',1',0'] and
    account 100' with a keypath error, without any device call.  More
    generally a three-element path with another coin type than 0', or with
    an account outside 0' .. 99', ends in the keypath error. *)
Theorem keypath_policy_mainnet (bb02 : BitBox02) :
  let h := HARDENED in
  let request (keypath : list Z) := mkXpubRequest keypath BTC XPUB false in
  let forwarded (keypath : list Z) :=
    ([call_btc_xpub (request keypath)], btc_xpub bb02 (request keypath)) in
  let exported (keypath : list Z) :=
    fst (get_pubkey_at_path bb02 false keypath) = [call_btc_xpub (request keypath)]
    /\ (forall xpub, btc_xpub bb02 (request keypath) = Ok xpub ->
          get_pubkey_at_path bb02 false keypath
          = ([call_btc_xpub (request keypath)], Ok xpub))
    /\ (forall e, btc_xpub bb02 (request keypath) = Raise e -> e <> ValueError ->
          get_pubkey_at_path bb02 false keypath
          = ([call_btc_xpub (request keypath)], Raise e)) in
  (PURPOSE_P2WPKH = 84 + h
   /\ dict_get (xpub_types false) PURPOSE_P2WPKH = Some XPUB)
  /\ _get_xpub bb02 false [84 + h; 0 + h; 0 + h] = forwarded [84 + h; 0 + h; 0 + h]
  /\ _get_xpub bb02 false [84 + h; 0 + h; 99 + h] = forwarded [84 + h; 0 + h; 99 + h]
  /\ exported [84 + h; 0 + h; 0 + h]
  /\ exported [84 + h; 0 + h; 99 + h]
  /\ (forall account, h <= account <= h + 99 -> exported [84 + h; 0 + h; account])
  /\ get_pubkey_at_path bb02 false [84 + h; 1 + h; 0 + h]
     = ([], Raise (KeypathError [84 + h; 1 + h; 0 + h] false))
  /\ get_pubkey_at_path bb02 false [84 + h; 0 + h; 100 + h]
     = ([], Raise (KeypathError [84 + h; 0 + h; 100 + h] false))
  /\ (forall purpose coin account,
        coin <> 0 + h \/ ~ (h <= account <= h + 99) ->
        get_pubkey_at_path bb02 false [purpose; coin; account]
        = ([], Raise (KeypathError [purpose; coin; account] false))).
Proof.
  cbv zeta.
  assert (Hacc : forall account, HARDENED <= account <= HARDENED + 99 ->
            _get_xpub bb02 false [84 + HARDENED; 0 + HARDENED; account]
            = ([call_btc_xpub
                  (mkXpubRequest [84 + HARDENED; 0 + HARDENED; account] BTC XPUB false)],
               btc_xpub bb02
                 (mkXpubRequest [84 + HARDENED; 0 + HARDENED; account] BTC XPUB false))).
  { intros account Ha. apply (get_xpub_mainnet_forwards bb02 (84 + HARDENED) account); auto. }
  split; [split; reflexivity|].
  split; [reflexivity|]. split; [reflexivity|].
  split; [apply get_pubkey_at_path_forwards, Hacc; unfold HARDENED; lia|].
  split; [apply get_pubkey_at_path_forwards, Hacc; unfold HARDENED; lia|].
  split; [intros account Ha; apply get_pubkey_at_path_forwards, Hacc, Ha|].
  split; [apply (get_pubkey_at_path_rejects bb02 false); left; unfold HARDENED; lia|].
  split; [apply (get_pubkey_at_path_rejects bb02 false); right; reflexivity|].
  intros purpose coin account H. apply (get_pubkey_at_path_rejects bb02 false).
  destruct H as [H|H]; [now left | right].
  destruct (_keypath_check_account account) eqn:E; [|reflexivity].
  apply _keypath_check_account_range in E. contradiction.
Qed.

(** ** Previous outputs *)




(** ** One account per transaction *)

Section Accounts.

Variable ser : Serializations.
Variable master_fp : Z.

#[local] Abbreviation input_step := (input_step ser master_fp).
#[local] Abbreviation input_loop := (input_loop ser master_fp).
#[local] Abbreviation output_loop := (output_loop ser master_fp).

Lemma check_account_ok bip44_account keypath r :
  check_account bip44_account keypath = Ok r ->
  exists a, r = Some a /\ py_index keypath 2 = Ok a
            /\ (forall a0, bip44_account = Some a0 -> a0 = a).
Proof.
  unfold check_account. destruct bip44_account as [account|];
    destruct (py_index keypath 2) as [v|e]; cbn [bind]; try discriminate.
  - destruct (Z.eqb_spec account v) as [E|E]; cbn [negb]; [|discriminate].
    intro H. inversion H; subst. exists v. repeat split. congruence.
  - intro H. inversion H; subst. exists v. repeat split. discriminate.
Qed.

(** What an accepted input leaves behind. *)
Lemma input_step_ok st idx psbt_in tx_in st' :
  input_step st idx psbt_in tx_in = Ok st' ->
  exists pubkey path account input,
    find_our_key master_fp (hd_keypaths psbt_in) = Ok (Some (pubkey, path))
    /\ py_index path 2 = Ok account
    /\ (forall a0, bip44_account st = Some a0 -> a0 = account)
    /\ bip44_account st' = Some account
    /\ inputs_acc st' = inputs_acc st ++ [input]
    /\ in_keypath input = path
    /\ (in_script_config_index input = 0 \/ in_script_config_index input = 1)
    /\ outputs_acc st' = outputs_acc st.
Proof.
  unfold Bitbox02.input_step.
  destruct (check_sighash psbt_in); cbn [bind]; [|discriminate].
  destruct (resolve_utxo idx psbt_in tx_in) as [[utxo prevtx]|]; cbn [bind]; [|discriminate].
  destruct (find_our_key master_fp (hd_keypaths psbt_in)) as [[[pubkey path]|]|];
    cbn [bind]; try discriminate.
  destruct (truthy pubkey); cbn [negb]; [|discriminate].
  destruct (check_account (bip44_account st) path) as [r|] eqn:Hacc; cbn [bind]; [|discriminate].
  destruct (get_simple_type ser (Some idx) utxo (redeem_script psbt_in)) as [t|];
    cbn [bind]; [|discriminate].
  intro H. inversion H; subst; clear H.
  destruct (check_account_ok _ _ _ Hacc) as (acct & -> & Hidx & Hsame).
  eexists pubkey, path, acct, _. cbn.
  repeat split; try reflexivity; try assumption.
  destruct t; [right | left]; reflexivity.
Qed.

Lemma input_loop_ok zipped : forall st idx st',
  input_loop st idx zipped = Ok st' ->
  (forall a0, bip44_account st = Some a0 -> bip44_account st' = Some a0)
  /\ (forall i psbt_in tx_in,
        nth_error zipped i = Some (psbt_in, tx_in) ->
        exists pubkey path account,
          find_our_key master_fp (hd_keypaths psbt_in) = Ok (Some (pubkey, path))
          /\ py_index path 2 = Ok account
          /\ bip44_account st' = Some account)
  /\ (forall account (Q : BTCInputType -> Prop),
        (forall input, py_index (in_keypath input) 2 = Ok account ->
                       in_script_config_index input = 0
                       \/ in_script_config_index input = 1 -> Q input) ->
        bip44_account st' = Some account ->
        Forall Q (inputs_acc st) -> Forall Q (inputs_acc st'))
  /\ outputs_acc st' = outputs_acc st.
Proof.
  induction zipped as [|[psbt_in tx_in] zipped IH]; intros st idx st' H; cbn [Bitbox02.input_loop] in H.
  - inversion H; subst. repeat split; try tauto.
    intros [|i] ? ? Hn; discriminate.
  - destruct (input_step st idx psbt_in tx_in) as [st1|] eqn:Hstep; cbn [bind] in H;
      [|discriminate].
    destruct (input_step_ok _ _ _ _ _ Hstep)
      as (pubkey & path & account & input & Hfind & Hidx & Hsame & Hacc1 & Hins & Hpath & Hcfg & Houts).
    destruct (IH _ _ _ H) as (Hkeep & Hall & Hacc & Houts').
    pose proof (Hkeep _ Hacc1) as Hacc'.
    split; [|split; [|split]].
    + intros a0 Ha0. rewrite (Hsame a0 Ha0). exact Hacc'.
    + intros [|i] pin tin Hn; cbn [nth_error] in Hn.
      * assert (pin = psbt_in) by congruence. subst pin.
        now exists pubkey, path, account.
      * eapply Hall; eassumption.
    + intros account' Q HQ Hst' Hprev. apply (Hacc account' Q HQ Hst').
      rewrite Hins. apply Forall_app. split; [assumption|].
      constructor; [|constructor]. apply HQ; [|assumption].
      rewrite Hpath. congruence.
    + congruence.
Qed.

Lemma output_loop_ok zipped : forall st idx st',
  output_loop st idx zipped = Ok st' ->
  bip44_account st' = bip44_account st /\ inputs_acc st' = inputs_acc st.
Proof.
  induction zipped as [|[psbt_out tx_out] zipped IH]; intros st idx st' H;
    cbn [Bitbox02.output_loop] in H.
  - inversion H; subst. now split.
  - destruct (output_step ser master_fp st idx psbt_out tx_out); cbn [bind] in H;
      [|discriminate].
    destruct (IH _ _ _ H) as [H1 H2]. now split.
Qed.

End Accounts.

(** C6: when two inputs' matched key paths differ in their account
    component, no request can be built: [sign_tx] fails, having made no
    device call other than the identity query, and no [btc_sign] call in
    particular.  It fails at the first divergence: if the inputs before
    input [j] were accepted and input [j] passes the tests that precede the
    account test, the failure is the bad-argument error of that test. *)
Theorem sign_tx_mixed_accounts (ser : Serializations) (ERR_GENERIC : Z)
  (bb02 : BitBox02) (is_testnet : bool) (psbt : PSBT) (master_fp : Z)
  (i j : nat) (in_i in_j : PartiallySignedInput) (tx_i tx_j : CTxIn)
  (pubkey_i pubkey_j : bytes) (path_i path_j : list Z) (account_i account_j : Z) :
  let zipped := combine (inputs psbt) (vin (tx psbt)) in
  unpack_I_le (root_fingerprint bb02) = Ok master_fp ->
  nth_error zipped i = Some (in_i, tx_i) ->
  nth_error zipped j = Some (in_j, tx_j) ->
  find_our_key master_fp (hd_keypaths in_i) = Ok (Some (pubkey_i, path_i)) ->
  find_our_key master_fp (hd_keypaths in_j) = Ok (Some (pubkey_j, path_j)) ->
  py_index path_i 2 = Ok account_i ->
  py_index path_j 2 = Ok account_j ->
  account_i <> account_j ->
  is_ok (build_request ser is_testnet master_fp psbt) = false
  /\ is_ok (snd (sign_tx ser ERR_GENERIC bb02 is_testnet psbt)) = false
  /\ (forall req,
        ~ In (call_btc_sign req) (fst (sign_tx ser ERR_GENERIC bb02 is_testnet psbt)))
  /\ incl (fst (sign_tx ser ERR_GENERIC bb02 is_testnet psbt))
       [call_device_info; call_root_fingerprint]
  /\ (forall st,
        (i < j)%nat ->
        input_loop ser master_fp initial_locals 0 (firstn j zipped) = Ok st ->
        check_sighash in_j = Ok tt ->
        is_ok (resolve_utxo j in_j tx_j) = true ->
        truthy pubkey_j = true ->
        build_request ser is_testnet master_fp psbt
        = Raise (BadArgumentError AccountMismatch)
        /\ (initialized bb02 = true ->
            sign_tx ser ERR_GENERIC bb02 is_testnet psbt
            = ([call_device_info; call_root_fingerprint],
               Raise (BadArgumentError AccountMismatch)))).
Proof.
  intros zipped Hfp Hi Hj Hki Hkj Hai Haj Hneq.
  assert (Hloop : is_ok (input_loop ser master_fp initial_locals 0 zipped) = false).
  { destruct (input_loop ser master_fp initial_locals 0 zipped) as [st|] eqn:E;
      [|reflexivity].
    destruct (input_loop_ok _ _ _ _ _ _ E) as (_ & Hall & _).
    destruct (Hall _ _ _ Hi) as (? & ? & ai & Hki' & Hai' & Hst_i).
    destruct (Hall _ _ _ Hj) as (? & ? & aj & Hkj' & Haj' & Hst_j).
    exfalso. apply Hneq. congruence. }
  assert (Hbuild : is_ok (build_request ser is_testnet master_fp psbt) = false).
  { now apply build_request_input_not_ok. }
  destruct (sign_tx_not_built ser ERR_GENERIC bb02 is_testnet psbt) as (H1 & H2 & H3).
  { intros fp' Hfp'. assert (fp' = master_fp) by congruence. now subst. }
  split; [exact Hbuild|]. split; [exact H1|]. split; [exact H2|]. split; [exact H3|].
  intros st Hij Hpre Hsig Hres Hpk.
  assert (Hraise : input_loop ser master_fp initial_locals 0 zipped
                   = Raise (BadArgumentError AccountMismatch)).
  { apply (input_loop_raises ser master_fp zipped j in_j tx_j st); try assumption.
    assert (Hacc : bip44_account st = Some account_i).
    { destruct (input_loop_ok _ _ _ _ _ _ Hpre) as (_ & Hall & _).
      destruct (Hall i in_i tx_i) as (? & ? & ai & Hki' & Hai' & Hst_i).
      - rewrite nth_error_firstn.
        replace (i <? j)%nat with true by (symmetry; apply Nat.ltb_lt; assumption).
        exact Hi.
      - congruence. }
    unfold input_step. rewrite Hsig. cbn [bind].
    destruct (resolve_utxo j in_j tx_j) as [[utxo prevtx]|]; [|discriminate].
    cbn [bind]. rewrite Hkj. cbn [bind]. rewrite Hpk. cbn [negb].
    unfold check_account. rewrite Hacc, Haj. cbn [bind].
    replace (account_i =? account_j) with false by (symmetry; now apply Z.eqb_neq).
    reflexivity. }
  apply (build_request_input_raise ser is_testnet) in Hraise.
  split; [exact Hraise|].
  intro Hinit.
  now apply (sign_tx_build_raise ser ERR_GENERIC bb02 is_testnet psbt master_fp).
Qed.

Lemma sign_tx_mixed_accounts_witness :
  sign_tx sample_serializations 103 sample_device false psbt_mixed_accounts
  = ([call_device_info; call_root_fingerprint],
     Raise (BadArgumentError AccountMismatch)).
Proof.
  assert (Hneq : 0 + HARDENED <> 1 + HARDENED) by (vm_compute; discriminate).
  destruct (sign_tx_mixed_accounts sample_serializations 103 sample_device false
              psbt_mixed_accounts 1 0 1 (sample_input 0) (sample_input 1)
              sample_tx_in sample_tx_in [x03] [x03]
              [84 + HARDENED; 0 + HARDENED; 0 + HARDENED; 0; 0]
              [84 + HARDENED; 0 + HARDENED; 1 + HARDENED; 0; 0]
              (0 + HARDENED) (1 + HARDENED)
              eq_refl eq_refl eq_refl eq_refl eq_refl eq_refl eq_refl Hneq)
    as (_ & _ & _ & _ & Hfirst).
  edestruct Hfirst as [_ Hsign];
    [ apply Nat.lt_0_1 | vm_compute; reflexivity
    | reflexivity | reflexivity | reflexivity | ].
  exact (Hsign eq_refl).
Defined.

(** ** The sighash test *)

Lemma check_sighash_ok psbt_in :
  check_sighash psbt_in = Ok tt
  <-> sighash psbt_in = None \/ sighash psbt_in = Some 0 \/ sighash psbt_in = Some 1.
Proof.
  unfold check_sighash. destruct (sighash psbt_in) as [v|].
  - destruct (Z.eqb_spec v 0) as [E0|E0]; destruct (Z.eqb_spec v 1) as [E1|E1];
      cbn [negb andb]; subst; split; intro H; try reflexivity; try tauto;
      try discriminate.
    destruct H as [H|[H|H]]; congruence.
  - split; [now left | reflexivity].
Qed.

(** C9: an input whose sighash is present and neither 0 nor 1 makes its
    iteration raise the bad-argument error of the sighash test, whatever
    else the input carries; [sign_tx] then fails with no [btc_sign] call
    (the identity query is its only device traffic), and with that very
    error when the inputs before it were accepted.  An input whose sighash
    is absent, 0 or 1 passes the test. *)
Theorem sign_tx_sighash_not_all (ser : Serializations) (ERR_GENERIC : Z)
  (bb02 : BitBox02) (is_testnet : bool) (psbt : PSBT)
  (i : nat) (psbt_in : PartiallySignedInput) (tx_in : CTxIn) (v : Z) :
  let zipped := combine (inputs psbt) (vin (tx psbt)) in
  nth_error zipped i = Some (psbt_in, tx_in) ->
  sighash psbt_in = Some v ->
  v <> 0 ->
  v <> 1 ->
  (forall master_fp st,
     input_step ser master_fp st i psbt_in tx_in
     = Raise (BadArgumentError (SighashNotAll v)))
  /\ is_ok (snd (sign_tx ser ERR_GENERIC bb02 is_testnet psbt)) = false
  /\ (forall req,
        ~ In (call_btc_sign req) (fst (sign_tx ser ERR_GENERIC bb02 is_testnet psbt)))
  /\ incl (fst (sign_tx ser ERR_GENERIC bb02 is_testnet psbt))
       [call_device_info; call_root_fingerprint]
  /\ (forall master_fp st,
        initialized bb02 = true ->
        unpack_I_le (root_fingerprint bb02) = Ok master_fp ->
        input_loop ser master_fp initial_locals 0 (firstn i zipped) = Ok st ->
        sign_tx ser ERR_GENERIC bb02 is_testnet psbt
        = ([call_device_info; call_root_fingerprint],
           Raise (BadArgumentError (SighashNotAll v))))
  /\ (forall other : PartiallySignedInput,
        sighash other = None \/ sighash other = Some 0 ->
        check_sighash other = Ok tt).
Proof.
  intros zipped Hnth Hsig Hv0 Hv1.
  assert (Hstep : forall master_fp st,
             input_step ser master_fp st i psbt_in tx_in
             = Raise (BadArgumentError (SighashNotAll v))).
  { intros master_fp st. unfold input_step, check_sighash. rewrite Hsig.
    replace (v =? 0) with false by (symmetry; now apply Z.eqb_neq).
    replace (v =? 1) with false by (symmetry; now apply Z.eqb_neq).
    reflexivity. }
  destruct (sign_tx_not_built ser ERR_GENERIC bb02 is_testnet psbt) as (H1 & H2 & H3).
  { intros master_fp _. apply build_request_input_not_ok.
    apply (input_loop_never_ok ser master_fp _ i psbt_in tx_in Hnth).
    intro st. now rewrite Hstep. }
  split; [exact Hstep|]. split; [exact H1|]. split; [exact H2|]. split; [exact H3|].
  split.
  - intros master_fp st Hinit Hfp Hpre.
    apply (sign_tx_build_raise ser ERR_GENERIC bb02 is_testnet psbt master_fp);
      try assumption; [|reflexivity].
    apply build_request_input_raise.
    apply (input_loop_raises ser master_fp _ i psbt_in tx_in st); try assumption.
    apply Hstep.
  - intros other H. apply check_sighash_ok. tauto.
Qed.

Lemma sign_tx_sighash_not_all_witness :
  sign_tx sample_serializations 103 sample_device false psbt_sighash_single
  = ([call_device_info; call_root_fingerprint],
     Raise (BadArgumentError (SighashNotAll 3))).
Proof.
  assert (H0 : 3 <> 0) by discriminate.
  assert (H1 : 3 <> 1) by discriminate.
  destruct (sign_tx_sighash_not_all sample_serializations 103 sample_device false
              psbt_sighash_single 1 sighash_single_input sample_tx_in 3
              eq_refl eq_refl H0 H1)
    as (_ & _ & _ & _ & Hfirst & _).
  eapply (Hfirst 1); [reflexivity | reflexivity | vm_compute; reflexivity].
Defined.

(** ** Key paths that are too short *)

Lemma py_index_short {A} (l : list A) (i : Z) :
  Z.of_nat (length l) <= i \/ i < - Z.of_nat (length l) ->
  py_index l i = Raise IndexError.
Proof.
  intro H. unfold py_index.
  destruct (Z.ltb_spec i 0) as [Hneg|Hpos].
  - replace ((0 <=? i + Z.of_nat (length l)) && (i + Z.of_nat (length l) <? Z.of_nat (length l)))
      with false; [reflexivity|].
    symmetry. apply andb_false_iff. left. apply Z.leb_gt. lia.
  - replace ((0 <=? i) && (i <? Z.of_nat (length l))) with false; [reflexivity|].
    symmetry. apply andb_false_iff. right. apply Z.ltb_ge. lia.
Qed.

Lemma output_loop_app ser master_fp l1 : forall l2 st idx,
  output_loop ser master_fp st idx (l1 ++ l2) =
  (st' <- output_loop ser master_fp st idx l1 ;;
   output_loop ser master_fp st' (idx + length l1) l2).
Proof.
  induction l1 as [|[psbt_out tx_out] l1 IH]; intros l2 st idx;
    cbn [app output_loop length bind].
  - now rewrite Nat.add_0_r.
  - destruct (output_step ser master_fp st idx psbt_out tx_out) as [o|e]; cbn [bind].
    + rewrite IH. now replace (S idx + length l1)%nat with (idx + S (length l1))%nat by lia.
    + reflexivity.
Qed.

(** The output loop stops at the first output whose iteration raises. *)
Lemma output_loop_raises ser master_fp zipped j psbt_out tx_out st st_j e :
  nth_error zipped j = Some (psbt_out, tx_out) ->
  output_loop ser master_fp st 0 (firstn j zipped) = Ok st_j ->
  output_step ser master_fp st_j j psbt_out tx_out = Raise e ->
  output_loop ser master_fp st 0 zipped = Raise e.
Proof.
  intros Hnth Hpre Hstep.
  destruct (nth_error_split_firstn _ _ _ Hnth) as [Hsplit Hlen].
  rewrite Hsplit, output_loop_app, Hpre, Hlen. cbn [bind Nat.add output_loop].
  now rewrite Hstep.
Qed.

(** C10: [sign_tx] does not check the length of a matched key path.  An
    input that the loop reaches and that passes the tests before the
    account test, with a matched path of fewer than 3 elements, makes the
    read of index 2 raise [IndexError], which is how the call ends.  An
    output that the loop reaches with a matched path of exactly one
    element makes the read of index -2 raise [IndexError], likewise. *)
Theorem sign_tx_short_keypath (ser : Serializations) (ERR_GENERIC : Z)
  (bb02 : BitBox02) (is_testnet : bool) (psbt : PSBT) (master_fp : Z) :
  let zipped_in := combine (inputs psbt) (vin (tx psbt)) in
  let zipped_out := combine (outputs psbt) (vout (tx psbt)) in
  let index_error := ([call_device_info; call_root_fingerprint], Raise IndexError) in
  initialized bb02 = true ->
  unpack_I_le (root_fingerprint bb02) = Ok master_fp ->
  (forall i psbt_in tx_in st pubkey path,
     nth_error zipped_in i = Some (psbt_in, tx_in) ->
     input_loop ser master_fp initial_locals 0 (firstn i zipped_in) = Ok st ->
     check_sighash psbt_in = Ok tt ->
     is_ok (resolve_utxo i psbt_in tx_in) = true ->
     find_our_key master_fp (hd_keypaths psbt_in) = Ok (Some (pubkey, path)) ->
     truthy pubkey = true ->
     (length path < 3)%nat ->
     py_index path 2 = Raise IndexError
     /\ input_step ser master_fp st i psbt_in tx_in = Raise IndexError
     /\ sign_tx ser ERR_GENERIC bb02 is_testnet psbt = index_error)
  /\ (forall j psbt_out tx_out st st_j pubkey path,
        input_loop ser master_fp initial_locals 0 zipped_in = Ok st ->
        nth_error zipped_out j = Some (psbt_out, tx_out) ->
        output_loop ser master_fp st 0 (firstn j zipped_out) = Ok st_j ->
        find_our_key master_fp (out_hd_keypaths psbt_out) = Ok (Some (pubkey, path)) ->
        length path = 1%nat ->
        py_index path (-2) = Raise IndexError
        /\ output_step ser master_fp st_j j psbt_out tx_out = Raise IndexError
        /\ sign_tx ser ERR_GENERIC bb02 is_testnet psbt = index_error).
Proof.
  intros zipped_in zipped_out index_error Hinit Hfp. split.
  - intros i psbt_in tx_in st pubkey path Hnth Hpre Hsig Hres Hkey Hpk Hlen.
    assert (Hidx : py_index path 2 = Raise IndexError).
    { apply py_index_short. left. lia. }
    assert (Hstep : input_step ser master_fp st i psbt_in tx_in = Raise IndexError).
    { unfold input_step. rewrite Hsig. cbn [bind].
      destruct (resolve_utxo i psbt_in tx_in) as [[utxo prevtx]|]; [|discriminate].
      cbn [bind]. rewrite Hkey. cbn [bind]. rewrite Hpk. cbn [negb].
      unfold check_account. rewrite Hidx. now destruct (bip44_account st). }
    split; [exact Hidx|]. split; [exact Hstep|].
    apply (sign_tx_build_raise ser ERR_GENERIC bb02 is_testnet psbt master_fp);
      try assumption; [|reflexivity].
    apply build_request_input_raise.
    now apply (input_loop_raises ser master_fp zipped_in i psbt_in tx_in st).
  - intros j psbt_out tx_out st st_j pubkey path Hins Hnth Hpre Hkey Hlen.
    assert (Hidx : py_index path (-2) = Raise IndexError).
    { apply py_index_short. right. lia. }
    assert (Hstep : output_step ser master_fp st_j j psbt_out tx_out = Raise IndexError).
    { unfold output_step. rewrite Hkey. cbn [bind option_map snd is_change].
      destruct path as [|x [|y path]]; try discriminate.
      cbn [truthy]. now rewrite Hidx. }
    split; [exact Hidx|]. split; [exact Hstep|].
    apply (sign_tx_build_raise ser ERR_GENERIC bb02 is_testnet psbt master_fp);
      try assumption; [|reflexivity].
    unfold build_request. fold zipped_in zipped_out. rewrite Hins. cbn [bind].
    now rewrite (output_loop_raises ser master_fp zipped_out j psbt_out tx_out st st_j IndexError).
Qed.

Lemma sign_tx_short_keypath_witness :
  sign_tx sample_serializations 103 sample_device false psbt_short_input_path
  = ([call_device_info; call_root_fingerprint], Raise IndexError)
  /\ sign_tx sample_serializations 103 sample_device false psbt_short_output_path
     = ([call_device_info; call_root_fingerprint], Raise IndexError).
Proof.
  split.
  - destruct (sign_tx_short_keypath sample_serializations 103 sample_device false
                psbt_short_input_path 1 eq_refl eq_refl) as [Hin _].
    assert (Hlen : (length [84 + HARDENED; 0 + HARDENED]%Z < 3)%nat) by (cbn; lia).
    exact (proj2 (proj2 (Hin 0%nat short_path_input sample_tx_in initial_locals [x03]
                           [84 + HARDENED; 0 + HARDENED]
                           eq_refl eq_refl eq_refl eq_refl eq_refl eq_refl Hlen))).
  - destruct (sign_tx_short_keypath sample_serializations 103 sample_device false
                psbt_short_output_path 1 eq_refl eq_refl) as [_ Hout].
    edestruct (Hout 0%nat short_path_output) as (_ & _ & Hsign);
      [ vm_compute; reflexivity | reflexivity | reflexivity | reflexivity | reflexivity | ].
    exact Hsign.
Defined.

(** ** Change outputs *)

Lemma py_index_0_cons {A} (a : A) (l : list A) : py_index (a :: l) 0 = Ok a.
Proof.
  unfold py_index. cbn [length Z.ltb Z.compare Z.leb].
  replace (0 <? Z.of_nat (S (length l))) with true by (symmetry; apply Z.ltb_lt; lia).
  reflexivity.
Qed.

Lemma find_our_key_first_match master_fp keypaths pubkey path :
  find_our_key master_fp keypaths = Ok (Some (pubkey, path))
  <-> first_match master_fp keypaths pubkey path.
Proof.
  split.
  - induction keypaths as [|[pk kwf] rest IH]; cbn [find_our_key]; [discriminate|].
    destruct kwf as [|fp kp]; [discriminate|].
    rewrite py_index_0_cons. cbn [bind skipn].
    destruct (Z.eqb_spec fp master_fp) as [E|E]; cbn [negb].
    + intro H. inversion H; subst. exists [], rest. split; [reflexivity|constructor].
    + intro H. destruct (IH H) as (before & after & -> & Hall).
      exists ((pk, fp :: kp) :: before), after. split; [reflexivity|].
      constructor; [|assumption]. now exists fp, kp.
  - intros (before & after & -> & Hall).
    induction before as [|[pk kwf] before IH]; cbn [app find_our_key].
    + rewrite py_index_0_cons. cbn [bind skipn]. now rewrite Z.eqb_refl.
    + inversion Hall as [|? ? (fp & kp & Hk & Hne) Hall']; subst. cbn [snd] in Hk. subst kwf.
      rewrite py_index_0_cons. cbn [bind].
      replace (fp =? master_fp) with false by (symmetry; now apply Z.eqb_neq).
      cbn [negb]. now apply IH.
Qed.

Lemma py_index_second_to_last (path : list Z) (v : Z) :
  py_index path (-2) = Ok v <-> second_to_last path v.
Proof.
  unfold second_to_last, py_index. cbn [Z.ltb Z.compare]. split.
  - destruct ((0 <=? -2 + Z.of_nat (length path))
              && (-2 + Z.of_nat (length path) <? Z.of_nat (length path))) eqn:E;
      [|discriminate].
    apply andb_true_iff in E. destruct E as [E _]. apply Z.leb_le in E.
    destruct (nth_error path (Z.to_nat (-2 + Z.of_nat (length path)))) as [x|] eqn:Hn;
      [|discriminate].
    intro H. inversion H; subst x.
    destruct (nth_error_split path _ Hn) as (front & tail & -> & Hlen).
    rewrite length_app in Hlen, E.
    destruct tail as [|y [|z tail]]; cbn [length] in Hlen, E; try lia.
    now exists front, y.
  - intros (front & last & ->). rewrite length_app. cbn [length].
    replace ((0 <=? -2 + Z.of_nat (length front + 2))
             && (-2 + Z.of_nat (length front + 2) <? Z.of_nat (length front + 2)))
      with true by (symmetry; apply andb_true_iff; split;
                    [apply Z.leb_le | apply Z.ltb_lt]; lia).
    replace (Z.to_nat (-2 + Z.of_nat (length front + 2))) with (length front + 0)%nat by lia.
    now rewrite nth_error_app2, Nat.add_comm, Nat.add_sub by lia.
Qed.

Lemma is_change_iff (keypath : option (list Z)) :
  is_change keypath = Ok true
  <-> exists path, keypath = Some path /\ second_to_last path 1.
Proof.
  unfold is_change. destruct keypath as [path|].
  - destruct path as [|x path].
    + cbn [truthy]. split; [discriminate|].
      intros (p & Hp & front & last & E). inversion Hp; subst.
      destruct front; discriminate.
    + cbn [truthy]. destruct (py_index (x :: path) (-2)) as [v|e] eqn:Hidx; cbn [bind].
      * apply py_index_second_to_last in Hidx. split.
        -- intro H. inversion H as [Hv]. apply Z.eqb_eq in Hv. subst v.
           now exists (x :: path).
        -- intros (p & Hp & Hone). inversion Hp; subst p.
           apply py_index_second_to_last in Hidx, Hone.
           rewrite Hidx in Hone. inversion Hone. reflexivity.
      * split; [discriminate|].
        intros (p & Hp & Hone). inversion Hp; subst p.
        apply py_index_second_to_last in Hone. congruence.
  - split; [discriminate|]. intros (p & Hp & _). discriminate.
Qed.


(** C5: [psbt_other_account_change] spends one input of the device's
    account 0' and pays to one output that carries a change path of the
    device's account 5'.  The output does not meet the stated condition
    for a change output (a change path of the inputs' account), and
    [sign_tx] sends a request over account 0' that describes it as an
    internal output all the same, by its path and value: the output loop
    never compares the account. *)
Theorem other_account_change_is_internal :
  let r :=
    sign_tx sample_serializations 103 sample_device false psbt_other_account_change in
  (exists req,
     fst r = [call_device_info; call_root_fingerprint; call_btc_sign req]
     /\ map keypath (req_script_configs req)
        = [[84 + HARDENED; 0 + HARDENED; 0 + HARDENED];
           [49 + HARDENED; 0 + HARDENED; 0 + HARDENED]]
     /\ map in_keypath (req_inputs req)
        = [[84 + HARDENED; 0 + HARDENED; 0 + HARDENED; 0; 0]]
     /\ req_outputs req
        = [BTCOutputInternal [84 + HARDENED; 0 + HARDENED; 5 + HARDENED; 1; 0] 4000 0])
  /\ is_ok (snd r) = true
  /\ (exists req st,
        build_request sample_serializations false 1 psbt_other_account_change
        = Ok (req, st)
        /\ bip44_account st = Some (0 + HARDENED)
        /\ req_outputs req
           = [BTCOutputInternal [84 + HARDENED; 0 + HARDENED; 5 + HARDENED; 1; 0] 4000 0])
  /\ ~ claimed_internal 1 (0 + HARDENED) (out_hd_keypaths other_account_change).
Proof.
  cbv zeta. split; [|split; [|split]].
  - eexists. split; [vm_compute; reflexivity|]. repeat split; reflexivity.
  - vm_compute. reflexivity.
  - do 2 eexists. split; [vm_compute; reflexivity|]. split; reflexivity.
  - intros (pubkey & path & Hin & _ & Hacc).
    destruct Hin as [Hin|[]]. inversion Hin; subst. vm_compute in Hacc. discriminate.
Qed.

(** * Further properties of the two files *)

(** ** [ProtocolV1.read] on an arbitrary stream *)

Lemma Z_of_byte_range b : 0 <= Z_of_byte b < 256.
Proof. unfold Z_of_byte. pose proof (Byte.to_N_bounded b). lia. Qed.

Lemma unpack_HL_range data a b :
  unpack_HL data = Ok (a, b) -> 0 <= a < 2 ^ 16 /\ 0 <= b < 2 ^ 32.
Proof.
  unfold unpack_HL.
  destruct data as [|a1 [|a0 [|b3 [|b2 [|b1 [|b0 [|]]]]]]]; try discriminate.
  intro H. inversion H; subst; clear H.
  pose proof (Z_of_byte_range a1). pose proof (Z_of_byte_range a0).
  pose proof (Z_of_byte_range b3). pose proof (Z_of_byte_range b2).
  pose proof (Z_of_byte_range b1). pose proof (Z_of_byte_range b0).
  change (2 ^ 8) with 256. change (2 ^ 16) with 65536.
  change (2 ^ 24) with 16777216. change (2 ^ 32) with 4294967296. lia.
Qed.

Lemma bytes_eqb_eq (a b : bytes) : bytes_eqb a b = true <-> a = b.
Proof.
  split.
  - revert b. induction a as [|x a IH]; intros [|y b] H; try discriminate; [reflexivity|].
    cbn [bytes_eqb] in H. apply andb_true_iff in H. destruct H as [Hx Hab].
    apply Byte.byte_dec_bl in Hx. subst y. now rewrite (IH b Hab).
  - intros ->. apply bytes_eqb_refl.
Qed.

Lemma read_next_ok h data h' :
  read_next h = Ok (data, h') ->
  exists chunk,
    pending h = chunk :: pending h'
    /\ firstn 1 chunk = [x3f]
    /\ data = skipn 1 chunk
    /\ calls h' = calls h ++ [h_read_chunk].
Proof.
  unfold read_next, read_chunk. destruct (pending h) as [|chunk rest] eqn:Hp;
    cbn [bind]; [discriminate|].
  destruct (bytes_eqb (firstn 1 chunk) [x3f]) eqn:E; cbn [negb]; [|discriminate].
  intro H. inversion H; subst; clear H. exists chunk. cbn.
  repeat split. now apply bytes_eqb_eq.
Qed.

(** What the loop has done when it returns. *)
Lemma read_loop_ok : forall (fuel : nat) h datalen buffer buffer' h',
  length (pending h) = fuel ->
  read_loop h datalen buffer = Ok (buffer', h') ->
  exists consumed,
    pending h = consumed ++ pending h'
    /\ calls h' = calls h ++ repeat h_read_chunk (length consumed)
    /\ buffer' = buffer ++ concat (map (skipn 1) consumed)
    /\ Forall (fun chunk => firstn 1 chunk = [x3f]) consumed
    /\ datalen <= Z.of_nat (length buffer').
Proof.
  induction fuel as [fuel IH] using lt_wf_ind.
  intros h datalen buffer buffer' h' Hfuel. rewrite read_loop_unfold.
  destruct (Z.ltb_spec (Z.of_nat (length buffer)) datalen) as [Hlt|Hge].
  - destruct (read_next h) as [[data h1]|e] eqn:Hnext; [|discriminate].
    destruct (read_next_ok _ _ _ Hnext) as (chunk & Hp & Hmagic & -> & Hcalls).
    intro Hloop.
    assert (Hless : (length (pending h1) < fuel)%nat).
    { rewrite <- Hfuel, Hp. cbn [length]. lia. }
    destruct (IH _ Hless _ _ _ _ _ eq_refl Hloop)
      as (consumed & Hp1 & Hcalls1 & Hbuf & Hall & Hlen).
    exists (chunk :: consumed). cbn [app length repeat map concat].
    split; [now rewrite Hp, Hp1|].
    split; [now rewrite Hcalls1, Hcalls, <- app_assoc|].
    split; [now rewrite Hbuf, <- app_assoc|].
    split; [now constructor | exact Hlen].
  - intro H. inversion H; subst; clear H. exists [].
    cbn [app length repeat map concat]. rewrite !app_nil_r.
    repeat split; [constructor | lia].
Qed.

(** X1: whenever [read] returns a message, the payload has exactly the
    length the header declares, whatever the blocks held: the tag and the
    length are those of bytes 3..8 of the first block, which starts with
    the magic; the blocks consumed after it all start with ['?']; the
    payload is the first [datalen] bytes of the block bodies put end to
    end; and only [read_chunk] calls were made on the handle. *)
Theorem read_returns_declared_length (q : Protocol) (msg_type : Z) (data : bytes)
  (q' : Protocol) :
  read q = Ok (msg_type, data, q') ->
  exists datalen first rest,
    pending (handle q) = first :: rest ++ pending (handle q')
    /\ firstn 3 first = [x3f; x23; x23]
    /\ unpack_HL (firstn 6 (skipn 3 first)) = Ok (msg_type, datalen)
    /\ 0 <= msg_type < 2 ^ 16
    /\ Z.of_nat (length data) = datalen
    /\ Forall (fun chunk => firstn 1 chunk = [x3f]) rest
    /\ data = firstn (Z.to_nat datalen)
                (skipn 9 first ++ concat (map (skipn 1) rest))
    /\ calls (handle q')
       = calls (handle q) ++ repeat h_read_chunk (S (length rest))
    /\ session_counter q' = session_counter q.
Proof.
  unfold read, read_first, read_chunk.
  destruct (pending (handle q)) as [|first tail] eqn:Hp; cbn [bind]; [discriminate|].
  destruct (bytes_eqb (firstn 3 first) [x3f; x23; x23]) eqn:Hmagic; cbn [negb];
    [|discriminate].
  destruct (unpack_HL (firstn 6 (skipn 3 first))) as [[t datalen]|e] eqn:Hhdr;
    [|discriminate].
  cbn [bind app Nat.add].
  destruct (read_loop _ datalen (skipn 9 first)) as [[buffer h1]|e] eqn:Hloop;
    cbn [bind]; [|discriminate].
  intro H. inversion H; subst; clear H.
  destruct (read_loop_ok _ _ _ _ _ _ eq_refl Hloop)
    as (rest & Hp1 & Hcalls & Hbuf & Hall & Hlen).
  cbn [pending calls] in Hp1, Hcalls.
  destruct (unpack_HL_range _ _ _ Hhdr) as [Ht Hd].
  exists datalen, first, rest. cbn [handle session_counter].
  split; [now rewrite Hp1|].
  split; [now apply bytes_eqb_eq|].
  split; [exact Hhdr|]. split; [exact Ht|].
  split; [rewrite length_firstn; lia|].
  split; [exact Hall|].
  split; [now rewrite Hbuf|].
  split; [|reflexivity].
  rewrite Hcalls. cbn [repeat]. now rewrite <- app_assoc.
Qed.

Lemma read_returns_declared_length_witness :
  exists datalen first rest,
    [sample_block] = first :: rest ++ []
    /\ firstn 3 first = [x3f; x23; x23]
    /\ unpack_HL (firstn 6 (skipn 3 first)) = Ok (17, datalen)
    /\ 0 <= 17 < 2 ^ 16
    /\ Z.of_nat (length [xaa; xbb]) = datalen
    /\ Forall (fun chunk => firstn 1 chunk = [x3f]) rest
    /\ [xaa; xbb] = firstn (Z.to_nat datalen)
                      (skipn 9 first ++ concat (map (skipn 1) rest))
    /\ [h_read_chunk] = [] ++ repeat h_read_chunk (S (length rest))
    /\ 0 = 0.
Proof.
  assert (Hread : read (init (mkHandle [] [sample_block]))
                  = Ok (17, [xaa; xbb], mkProtocol (mkHandle [h_read_chunk] []) 0)).
  { vm_compute. reflexivity. }
  exact (read_returns_declared_length _ _ _ _ Hread).
Defined.

(** ** Framing errors *)

Lemma read_next_bad h bad rest :
  pending h = bad :: rest ->
  firstn 1 bad <> [x3f] ->
  read_next h = Raise (RuntimeError "Unexpected magic characters").
Proof.
  intros Hp Hbad. unfold read_next, read_chunk. rewrite Hp. cbn [bind].
  destruct (bytes_eqb (firstn 1 bad) [x3f]) eqn:E; [|reflexivity].
  apply bytes_eqb_eq in E. contradiction.
Qed.

(** The loop raises at the first block without the marker that it needs. *)
Lemma read_loop_bad : forall (good : list bytes) h datalen buffer bad later,
  pending h = good ++ bad :: later ->
  Forall (fun chunk => length chunk = REPLEN /\ firstn 1 chunk = [x3f]) good ->
  firstn 1 bad <> [x3f] ->
  Z.of_nat (length buffer) + 63 * Z.of_nat (length good) < datalen ->
  read_loop h datalen buffer = Raise (RuntimeError "Unexpected magic characters").
Proof.
  induction good as [|chunk good IH]; intros h datalen buffer bad later Hp Hall Hbad Hlen;
    rewrite read_loop_unfold; cbn [length] in Hlen;
    (replace (Z.of_nat (length buffer) <? datalen) with true
      by (symmetry; apply Z.ltb_lt; lia)).
  - now rewrite (read_next_bad h bad later Hp Hbad).
  - inversion Hall as [|? ? [Hsize Hmagic] Hall']; subst.
    rewrite (read_next_cons h chunk (good ++ bad :: later) Hp Hmagic).
    apply (IH (mkHandle (calls h ++ [h_read_chunk]) (good ++ bad :: later))
             datalen (buffer ++ skipn 1 chunk) bad later eq_refl Hall' Hbad).
    rewrite length_app, length_skipn, Hsize. unfold REPLEN. lia.
Qed.

(** X2: a stream [write] produced, with one of its blocks replaced by a
    block that lacks the marker the reader expects there (the three magic
    bytes for the first block, ['?'] for a later one), is refused: [read]
    raises "Unexpected magic characters" and returns no message. *)
Theorem read_rejects_corrupted_marker (p : Protocol) (msg_type : Z) (ser : bytes) :
  0 <= msg_type < 2 ^ 16 ->
  Z.of_nat (length ser) < 2 ^ 32 ->
  exists chunks,
    write p msg_type ser
    = Ok (mkProtocol
            (mkHandle (calls (handle p) ++ map h_write_chunk chunks)
               (pending (handle p)))
            (session_counter p))
    /\ forall (i : nat) (bad : bytes) (q : Protocol) (later : list bytes),
         (i < length chunks)%nat ->
         (if Nat.eqb i 0 then firstn 3 bad <> [x3f; x23; x23]
          else firstn 1 bad <> [x3f]) ->
         pending (handle q) = firstn i chunks ++ bad :: skipn (S i) chunks ++ later ->
         read q = Raise (RuntimeError "Unexpected magic characters").
Proof.
  intros Ht Hlen.
  destruct (pack_HL_ok msg_type (Z.of_nat (length ser))) as (h1 & h2 & h3 & h4 & h5 & h6 & Hpack);
    [exact Ht | lia |].
  pose proof (unpack_pack_HL _ _ _ Hpack) as Hunpack.
  set (header := [h1; h2; h3; h4; h5; h6]) in *.
  set (buffer := [x23; x23] ++ header ++ ser).
  assert (Hbuf : length buffer = (8 + length ser)%nat) by reflexivity.
  destruct (write_loop_chunks (length buffer) buffer (handle p) eq_refl)
    as (chunks & Hw & Hn & Hnth & _).
  exists chunks. split.
  { unfold write. rewrite Hpack. cbn [bind]. fold buffer. now rewrite Hw. }
  intros i bad q later Hi Hbad Hq.
  destruct i as [|i].
  - cbn [Nat.eqb firstn app] in Hbad, Hq.
    unfold read, read_first, read_chunk. rewrite Hq. cbn [bind].
    destruct (bytes_eqb (firstn 3 bad) [x3f; x23; x23]) eqn:E; [|reflexivity].
    apply bytes_eqb_eq in E. contradiction.
  - cbn [Nat.eqb] in Hbad.
    destruct chunks as [|first chunks]; [cbn in Hi; lia|].
    cbn [firstn app length] in Hq, Hi, Hn.
    change (skipn (S (S i)) (first :: chunks)) with (skipn (S i) chunks) in Hq.
    assert (Hfirst : first = block_of buffer 0).
    { apply (Hnth 0%nat). cbn [length]. lia. }
    assert (Hgood : Forall (fun chunk => length chunk = REPLEN /\ firstn 1 chunk = [x3f])
                      (firstn i chunks)).
    { apply Forall_of_nth with (d := []). intros k Hk.
      rewrite length_firstn in Hk.
      assert (Hk' : nth k (firstn i chunks) [] = nth (S k) (first :: chunks) []).
      { cbn [nth]. rewrite nth_firstn.
        now replace (k <? i)%nat with true by (symmetry; apply Nat.ltb_lt; lia). }
      rewrite Hk', Hnth by (cbn [length]; lia).
      split; [apply block_of_length | reflexivity]. }
    assert (Hfirst_len : length first = 64%nat).
    { rewrite Hfirst. apply block_of_length. }
    assert (Hhead : firstn 3 first = [x3f; x23; x23]
                    /\ firstn 6 (skipn 3 first) = header).
    { rewrite Hfirst. split; reflexivity. }
    destruct Hhead as [Hmagic Hheader].
    unfold read, read_first, read_chunk. rewrite Hq. cbn [app bind].
    rewrite Hmagic, bytes_eqb_refl. cbn [negb].
    rewrite Hheader, Hunpack. cbn [bind Nat.add].
    rewrite (read_loop_bad (firstn i chunks)
               (mkHandle (calls (handle q) ++ [h_read_chunk])
                  (firstn i chunks ++ bad :: skipn (S i) chunks ++ later))
               (Z.of_nat (length ser)) (skipn 9 first) bad
               (skipn (S i) chunks ++ later) eq_refl Hgood Hbad).
    + reflexivity.
    + rewrite length_skipn, Hfirst_len, length_firstn, Hbuf in *.
      clear -Hn Hi. div_lia.
Qed.

Lemma read_rejects_corrupted_marker_witness :
  exists chunks,
    write (init (mkHandle [] [])) 17 (repeat x01 200)
    = Ok (mkProtocol (mkHandle (map h_write_chunk chunks) []) 0)
    /\ read (init (mkHandle [] (firstn 2 chunks ++ repeat x00 64 :: skipn 3 chunks ++ [])))
       = Raise (RuntimeError "Unexpected magic characters").
Proof.
  assert (Ht : 0 <= 17 < 2 ^ 16) by lia.
  assert (Hlen : Z.of_nat (length (repeat x01 200)) < 2 ^ 32) by (vm_compute; reflexivity).
  destruct (read_rejects_corrupted_marker (init (mkHandle [] [])) 17 (repeat x01 200) Ht Hlen)
    as (chunks & Hw & Hr).
  exists chunks. split; [exact Hw|].
  assert (Hl : length chunks = 4%nat).
  { apply (f_equal (fun r => match r with
                             | Ok p0 => length (calls (handle p0))
                             | Raise _ => 0%nat
                             end)) in Hw.
    cbn [handle calls app init] in Hw. rewrite length_map in Hw. rewrite <- Hw.
    vm_compute. reflexivity. }
  apply (Hr 2%nat (repeat x00 64) _ []).
  - rewrite Hl. lia.
  - cbn. discriminate.
  - reflexivity.
Defined.

(** ** Messages one after the other *)

(** One message: what [write] sends is what [read] takes back. *)
Lemma written_then_read (p : Protocol) (msg_type : Z) (ser : bytes) :
  0 <= msg_type < 2 ^ 16 ->
  Z.of_nat (length ser) < 2 ^ 32 ->
  exists chunks,
    write p msg_type ser
    = Ok (mkProtocol
            (mkHandle (calls (handle p) ++ map h_write_chunk chunks)
               (pending (handle p)))
            (session_counter p))
    /\ forall (q : Protocol) (later : list bytes),
         pending (handle q) = chunks ++ later ->
         read q
         = Ok (msg_type, ser,
               mkProtocol
                 (mkHandle
                    (calls (handle q) ++ repeat h_read_chunk (length chunks))
                    later)
                 (session_counter q)).
Proof.
  intros Ht Hlen.
  destruct (pack_HL_ok msg_type (Z.of_nat (length ser))) as (h1 & h2 & h3 & h4 & h5 & h6 & Hpack);
    [exact Ht | lia |].
  pose proof (unpack_pack_HL _ _ _ Hpack) as Hunpack.
  set (header := [h1; h2; h3; h4; h5; h6]) in *.
  set (buffer := [x23; x23] ++ header ++ ser).
  assert (Hbuf : length buffer = (8 + length ser)%nat) by reflexivity.
  destruct (write_loop_chunks (length buffer) buffer (handle p) eq_refl)
    as (chunks & Hw & Hn & Hnth & Hcat).
  exists chunks. split.
  { unfold write. rewrite Hpack. cbn [bind]. fold buffer. now rewrite Hw. }
  intros q later Hq.
  destruct chunks as [|first chunks].
  { exfalso. cbn [length] in Hn. rewrite Hbuf in Hn. clear -Hn. div_lia. }
  assert (Hfirst : first = block_of buffer 0).
  { apply (Hnth 0%nat). cbn [length]. lia. }
  assert (Hrest : Forall (fun chunk => length chunk = REPLEN /\ firstn 1 chunk = [x3f]) chunks).
  { apply Forall_of_nth with (d := []). intros i Hi.
    specialize (Hnth (S i)). cbn [nth length] in Hnth. rewrite Hnth by lia.
    split; [apply block_of_length | reflexivity]. }
  assert (Hfirst_len : length first = 64%nat).
  { rewrite Hfirst. apply block_of_length. }
  assert (Hhead : firstn 3 first = [x3f; x23; x23]
                  /\ firstn 6 (skipn 3 first) = header).
  { rewrite Hfirst. split; reflexivity. }
  destruct Hhead as [Hmagic Hheader].
  unfold read, read_first, read_chunk. rewrite Hq. cbn [app bind].
  rewrite Hmagic, bytes_eqb_refl. cbn [negb].
  rewrite Hheader, Hunpack. cbn [bind Nat.add].
  cbn [length] in Hn. rewrite Hbuf in Hn.
  rewrite (read_loop_blocks chunks
             (mkHandle (calls (handle q) ++ [h_read_chunk]) (chunks ++ later))
             (Z.of_nat (length ser)) (skipn 9 first) later eq_refl Hrest).
  - cbn [bind calls]. rewrite Nat2Z.id.
    cbn [map concat] in Hcat.
    assert (Hskip : skipn 9 first ++ concat (map (skipn 1) chunks)
                    = ser ++ repeat x00 (63 * S (length chunks) - length buffer)).
    { replace (skipn 9 first) with (skipn 8 (skipn 1 first))
        by (now rewrite skipn_skipn).
      replace (skipn 8 (skipn 1 first) ++ concat (map (skipn 1) chunks))
        with (skipn 8 (skipn 1 first ++ concat (map (skipn 1) chunks))).
      - rewrite Hcat. reflexivity.
      - rewrite skipn_app, length_skipn, Hfirst_len. reflexivity. }
    rewrite Hskip, firstn_app, firstn_all, Nat.sub_diag. cbn [firstn].
    rewrite app_nil_r. cbn [length repeat]. rewrite <- app_assoc. reflexivity.
  - rewrite length_skipn, Hfirst_len. clear -Hn. div_lia.
  - intros _. rewrite length_skipn, Hfirst_len. clear -Hn. div_lia.
Qed.

(** X3: messages written one after the other on a link are read back in
    the same order, each whole, by as many calls of [read]; the blocks of
    one message never run into the next, and what the link delivers after
    them is left untouched. *)
Theorem write_all_read_n (msgs : list (Z * bytes)) :
  Forall packable msgs ->
  forall p : Protocol,
  exists chunks,
    write_all p msgs
    = Ok (mkProtocol
            (mkHandle (calls (handle p) ++ map h_write_chunk chunks)
               (pending (handle p)))
            (session_counter p))
    /\ forall (q : Protocol) (later : list bytes),
         pending (handle q) = chunks ++ later ->
         read_n (length msgs) q
         = Ok (msgs,
               mkProtocol
                 (mkHandle
                    (calls (handle q) ++ repeat h_read_chunk (length chunks))
                    later)
                 (session_counter q)).
Proof.
  induction msgs as [|[msg_type ser] msgs IH]; intros Hall p.
  - exists []. cbn [write_all read_n map length repeat]. rewrite app_nil_r. split.
    + now destruct p as [[? ?] ?].
    + intros q later Hq. cbn [app] in Hq. rewrite app_nil_r, <- Hq.
      now destruct q as [[? ?] ?].
  - inversion Hall as [|? ? [Ht Hlen] Hall']; subst. cbn [fst snd] in Ht, Hlen.
    destruct (written_then_read p msg_type ser Ht Hlen) as (chunks1 & Hw & Hr).
    destruct (IH Hall'
                (mkProtocol
                   (mkHandle (calls (handle p) ++ map h_write_chunk chunks1)
                      (pending (handle p)))
                   (session_counter p)))
      as (chunks2 & Hw2 & Hr2).
    exists (chunks1 ++ chunks2). split.
    + cbn [write_all]. rewrite Hw. cbn [bind]. rewrite Hw2.
      cbn [handle calls pending session_counter].
      now rewrite map_app, app_assoc.
    + intros q later Hq. cbn [read_n length].
      rewrite (Hr q (chunks2 ++ later)) by (now rewrite Hq, <- app_assoc).
      cbn [bind].
      rewrite (Hr2 (mkProtocol
                      (mkHandle (calls (handle q) ++ repeat h_read_chunk (length chunks1))
                         (chunks2 ++ later))
                      (session_counter q))
                 later eq_refl).
      cbn [bind handle calls session_counter].
      now rewrite length_app, repeat_app, app_assoc.
Qed.

Lemma write_all_read_n_witness :
  let msgs := [(17, repeat x01 200); (2, []); (65535, repeat x02 55)] in
  exists chunks,
    write_all (init (mkHandle [] [])) msgs
    = Ok (mkProtocol (mkHandle (map h_write_chunk chunks) []) 0)
    /\ read_n 3 (init (mkHandle [] chunks))
       = Ok (msgs, mkProtocol (mkHandle (repeat h_read_chunk (length chunks)) []) 0).
Proof.
  intro msgs.
  assert (Hall : Forall packable msgs).
  { repeat constructor; cbn; try lia; vm_compute; try reflexivity; discriminate. }
  destruct (write_all_read_n msgs Hall (init (mkHandle [] []))) as (chunks & Hw & Hr).
  exists chunks. split; [exact Hw|].
  apply (Hr (init (mkHandle [] chunks)) []). cbn. now rewrite app_nil_r.
Defined.

(** ** Session calls in any order *)

Lemma concat_repeat_snoc {A} (x : list A) (k : nat) :
  concat (repeat x (S k)) = concat (repeat x k) ++ x.
Proof.
  cbn [repeat concat]. induction k as [|k IH]; cbn [repeat concat].
  - now rewrite app_nil_r.
  - now rewrite <- app_assoc, <- IH.
Qed.

Lemma session_step_pairs base c p pairs :
  calls (handle p)
  = base ++ concat (repeat [h_open; h_close] pairs)
      ++ (if 1 <=? session_counter p then [h_open] else []) ->
  exists pairs',
    calls (handle (session_step c p))
    = base ++ concat (repeat [h_open; h_close] pairs')
        ++ (if 1 <=? session_counter (session_step c p) then [h_open] else []).
Proof.
  intro H. destruct c; cbn [session_step]; unfold begin_session, end_session;
    cbn [handle session_counter].
  - destruct (Z.eqb_spec (session_counter p) 0) as [E|E].
    + exists pairs. cbn [open calls]. rewrite H, E. cbn.
      now rewrite app_nil_r, <- app_assoc.
    + exists pairs. rewrite H.
      destruct (Z.leb_spec 1 (session_counter p)), (Z.leb_spec 1 (session_counter p + 1));
        try reflexivity; lia.
  - destruct (Z.eqb_spec (session_counter p) 1) as [E|E].
    + exists (S pairs). cbn [close calls]. rewrite H, E, concat_repeat_snoc.
      cbn. rewrite app_nil_r, <- !app_assoc. reflexivity.
    + exists pairs. rewrite H.
      destruct (Z.leb_spec 1 (session_counter p)), (Z.leb_spec 1 (session_counter p - 1));
        try reflexivity; lia.
Qed.

Lemma run_session_pairs base cs : forall p pairs,
  calls (handle p)
  = base ++ concat (repeat [h_open; h_close] pairs)
      ++ (if 1 <=? session_counter p then [h_open] else []) ->
  exists pairs',
    calls (handle (run_session cs p))
    = base ++ concat (repeat [h_open; h_close] pairs')
        ++ (if 1 <=? session_counter (run_session cs p) then [h_open] else []).
Proof.
  induction cs as [|c cs IH]; intros p pairs H.
  - now exists pairs.
  - destruct (session_step_pairs base c p pairs H) as (pairs1 & H1).
    exact (IH (session_step c p) pairs1 H1).
Qed.

Lemma run_session_counter cs : forall p,
  session_counter (run_session cs p) = session_counter p + net_depth cs
  /\ pending (handle (run_session cs p)) = pending (handle p).
Proof.
  induction cs as [|c cs IH]; intro p; cbn [net_depth].
  - split; [cbn; lia | reflexivity].
  - change (run_session (c :: cs) p) with (run_session cs (session_step c p)).
    destruct (IH (session_step c p)) as [Hc Hp]. rewrite Hc, Hp.
    destruct c; cbn [session_step]; unfold begin_session, end_session;
      cbn [session_counter handle]; (split; [lia|]).
    + now destruct (session_counter p =? 0).
    + now destruct (session_counter p =? 1).
Qed.

(** X4: for session calls in any order on a fresh protocol object, balanced
    or not, the counter is the number of sessions begun minus the number
    ended (it goes negative on an unmatched [end_session]); the handle has
    seen whole open/close pairs, followed by one more [open] exactly when
    the counter is at least 1; so the link is open if and only if the
    counter is positive, and a session begun while the counter is negative
    runs on a closed link.  The chunks waiting on the link are untouched. *)
Theorem session_link_open_iff_positive (h : Handle) (cs : list SessionCall) :
  let p := run_session cs (init h) in
  session_counter p = net_depth cs
  /\ pending (handle p) = pending h
  /\ exists pairs,
       calls (handle p)
       = calls h ++ concat (repeat [h_open; h_close] pairs)
           ++ (if 1 <=? net_depth cs then [h_open] else []).
Proof.
  cbv zeta. destruct (run_session_counter cs (init h)) as [Hc Hp].
  cbn [init session_counter handle] in Hc, Hp.
  split; [rewrite Hc; lia|]. split; [exact Hp|].
  destruct (run_session_pairs (calls h) cs (init h) 0) as (pairs & H).
  { cbn. now rewrite app_nil_r. }
  exists pairs. rewrite H, Hc. reflexivity.
Qed.

(** ** The keypath policy as a whole *)

Lemma classic_exportable (is_testnet : bool) (keypath : list Z) :
  exportable is_testnet keypath \/ ~ exportable is_testnet keypath.
Proof.
  unfold exportable. cbv zeta.
  set (coin := if is_testnet then 1 + HARDENED else 0 + HARDENED).
  destruct keypath as [|purpose [|c [|account [|script_type [|]]]]];
    try (right; intros [(? & ? & H & _) | (? & H & _)]; discriminate).
  - destruct (Z.eq_dec c coin) as [->|Hc];
      [|right; intros [(? & ? & H & _) | (? & H & _)]; inversion H; congruence].
    destruct (Z_le_dec HARDENED account);
      [|right; intros [(? & ? & H & _ & Ha) | (? & H & _)]; inversion H; subst; lia].
    destruct (Z_le_dec account (HARDENED + 99));
      [|right; intros [(? & ? & H & _ & Ha) | (? & H & _)]; inversion H; subst; lia].
    destruct (Z.eq_dec purpose (49 + HARDENED)) as [->|H49].
    { left. left. exists (49 + HARDENED), account. auto. }
    destruct (Z.eq_dec purpose (84 + HARDENED)) as [->|H84].
    { left. left. exists (84 + HARDENED), account. auto. }
    right. intros [(? & ? & H & Hp & _) | (? & H & _)]; inversion H; subst.
    destruct Hp; congruence.
  - destruct (Z.eq_dec purpose (48 + HARDENED)) as [->|Hp];
      [|right; intros [(? & ? & H & _) | (? & H & _)]; inversion H; congruence].
    destruct (Z.eq_dec c coin) as [->|Hc];
      [|right; intros [(? & ? & H & _) | (? & H & _)]; inversion H; congruence].
    destruct (Z.eq_dec script_type (2 + HARDENED)) as [->|Hs];
      [|right; intros [(? & ? & H & _) | (? & H & _)]; inversion H; congruence].
    destruct (Z_le_dec HARDENED account);
      [|right; intros [(? & ? & H & _) | (? & H & Ha)]; inversion H; subst; lia].
    destruct (Z_le_dec account (HARDENED + 99));
      [|right; intros [(? & ? & H & _) | (? & H & Ha)]; inversion H; subst; lia].
    left. right. exists account. auto.
Qed.



(** X5: on either network [_get_xpub] sends a path to the device exactly
    when it is one of the supported account paths, always asking for the
    network's plain format (xpub on mainnet, tpub on testnet) without
    display; every other path, of any length, ends in [ValueError] with no
    device call, which [get_pubkey_at_path] turns into the keypath error. *)
Theorem get_xpub_accepts_iff (bb02 : BitBox02) (is_testnet : bool) (keypath : list Z) :
  let req := mkXpubRequest keypath (if is_testnet then TBTC else BTC)
               (if is_testnet then TPUB else XPUB) false in
  (exportable is_testnet keypath <->
   _get_xpub bb02 is_testnet keypath = ([call_btc_xpub req], btc_xpub bb02 req))
  /\ (~ exportable is_testnet keypath <->
      _get_xpub bb02 is_testnet keypath = ([], Raise ValueError))
  /\ (~ exportable is_testnet keypath ->
      get_pubkey_at_path bb02 is_testnet keypath
      = ([], Raise (KeypathError keypath is_testnet))).
Proof.
  cbv zeta.
  assert (Hyes : exportable is_testnet keypath ->
                 _get_xpub bb02 is_testnet keypath
                 = ([call_btc_xpub (mkXpubRequest keypath (if is_testnet then TBTC else BTC)
                                      (if is_testnet then TPUB else XPUB) false)],
                    btc_xpub bb02 (mkXpubRequest keypath (if is_testnet then TBTC else BTC)
                                     (if is_testnet then TPUB else XPUB) false))).
  { intros [(purpose & account & -> & Hp & Ha) | (account & -> & Ha)];
      unfold _get_xpub, _get_coin; rewrite !Z.eqb_refl; cbn [negb orb];
      apply _keypath_check_account_range in Ha; rewrite Ha; cbn [negb].
    - destruct Hp as [-> | ->]; destruct is_testnet; reflexivity.
    - now destruct is_testnet. }
  assert (Hno : ~ exportable is_testnet keypath ->
                _get_xpub bb02 is_testnet keypath = ([], Raise ValueError)).
  { intro Hn. unfold _get_xpub.
    destruct keypath as [|purpose [|coin [|account [|script_type [|]]]]]; try reflexivity.
    - destruct (Z.eqb_spec coin (if is_testnet then 1 + HARDENED else 0 + HARDENED)) as [Ec|Ec];
        cbn [negb orb]; [|reflexivity].
      destruct (_keypath_check_account account) eqn:Ha; cbn [negb]; [|reflexivity].
      apply _keypath_check_account_range in Ha.
      destruct (dict_get (xpub_types is_testnet) purpose) as [t|] eqn:Hd; [|reflexivity].
      exfalso. apply Hn. left. exists purpose, account. subst coin.
      split; [reflexivity|]. split; [|exact Ha].
      unfold xpub_types in Hd. destruct is_testnet; cbn [dict_get] in Hd;
        unfold PURPOSE_P2WPKH_P2SH, PURPOSE_P2WPKH in Hd;
        destruct (Z.eqb_spec (49 + HARDENED) purpose);
        destruct (Z.eqb_spec (84 + HARDENED) purpose); try discriminate; auto.
    - destruct (Z.eqb_spec purpose PURPOSE_MULTISIG_P2WSH) as [Ep|Ep]; cbn [negb orb];
        [|reflexivity].
      destruct (Z.eqb_spec coin (if is_testnet then 1 + HARDENED else 0 + HARDENED)) as [Ec|Ec];
        cbn [negb orb]; [|reflexivity].
      destruct (_keypath_check_account account) eqn:Ha; cbn [negb orb]; [|reflexivity].
      destruct (Z.eqb_spec script_type (2 + HARDENED)) as [Es|Es]; cbn [negb]; [|reflexivity].
      apply _keypath_check_account_range in Ha.
      exfalso. apply Hn. right. exists account. subst. now split. }
  split; [|split].
  - split; [exact Hyes|]. intro H.
    destruct (classic_exportable is_testnet keypath) as [Hex|Hex]; [exact Hex|].
    rewrite (Hno Hex) in H. discriminate.
  - split; [exact Hno|]. intros H Hex. rewrite (Hyes Hex) in H. discriminate.
  - intro Hn. unfold get_pubkey_at_path. now rewrite (Hno Hn).
Qed.

Lemma check_address_keypath_iff (is_testnet : bool) (keypath : list Z) (purpose : Z) :
  Bitbox02Client._check_address_keypath_simple is_testnet keypath purpose = true
  <-> address_path is_testnet purpose keypath.
Proof.
  unfold Bitbox02Client._check_address_keypath_simple, address_path. cbv zeta. split.
  - destruct keypath as [|p [|coin [|account [|change [|address [|]]]]]];
      try discriminate. cbn [length Nat.eqb negb].
    destruct (Z.eqb_spec p purpose) as [->|]; cbn [negb]; [|discriminate].
    destruct (Z.eqb_spec coin (if is_testnet then 1 + HARDENED else 0 + HARDENED))
      as [->|]; cbn [negb]; [|discriminate].
    destruct (_keypath_check_account account) eqn:Ha; cbn [negb]; [|discriminate].
    apply _keypath_check_account_range in Ha.
    destruct (Z.eqb_spec change 0) as [E0|E0]; destruct (Z.eqb_spec change 1) as [E1|E1];
      cbn [orb negb]; try discriminate;
      (destruct ((0 <=? address) && (address <=? 9999)) eqn:Hr; cbn [negb];
       [|discriminate]);
      apply andb_true_iff in Hr; destruct Hr as [Hr0 Hr1];
      apply Z.leb_le in Hr0, Hr1; intros _;
      exists account, change, address; repeat split; auto; lia.
  - intros (account & change & address & -> & Ha & Hc & Hr).
    cbn [length Nat.eqb negb]. rewrite !Z.eqb_refl. cbn [negb].
    apply _keypath_check_account_range in Ha. rewrite Ha. cbn [negb].
    replace ((change =? 0) || (change =? 1)) with true
      by (destruct Hc as [-> | ->]; reflexivity).
    cbn [negb].
    replace ((0 <=? address) && (address <=? 9999)) with true; [reflexivity|].
    symmetry. apply andb_true_iff. split; apply Z.leb_le; lia.
Qed.

(** X6: [_check_address_keypath_simple] accepts exactly the five-element
    paths [purpose, coin', account', change, address] of the network's
    coin type with the account between 0' and 99', the change flag 0 or 1
    and the address index between 0 and 9999; and every address path it
    accepts under the purposes 49' and 84' lies under an account path that
    [_get_xpub] exports. *)
Theorem address_keypath_policy (is_testnet : bool) (keypath : list Z) (purpose : Z) :
  (Bitbox02Client._check_address_keypath_simple is_testnet keypath purpose = true
   <-> address_path is_testnet purpose keypath)
  /\ (purpose = 49 + HARDENED \/ purpose = 84 + HARDENED ->
      Bitbox02Client._check_address_keypath_simple is_testnet keypath purpose = true ->
      exportable is_testnet (firstn 3 keypath)).
Proof.
  split; [apply check_address_keypath_iff|].
  intros Hp Hc. apply check_address_keypath_iff in Hc.
  destruct Hc as (account & change & address & -> & Ha & _).
  left. exists purpose, account. cbn [firstn]. auto.
Qed.

(** ** [display_address] *)

(** X7: [display_address] asks the device for an address at most once,
    always with display on, and only for a path that passes the address
    policy of the script type asked for: segwit-in-P2SH (purpose 49') when
    [p2sh_p2wpkh] is set, whatever [bech32] says, native segwit (purpose
    84') when only [bech32] is set.  A non-empty redeem script ends in
    [NotImplementedError] before anything else is looked at, no flag set in
    the "legacy p2pkh" error, and a path outside the policy in the keypath
    error, each without a device call. *)
Theorem display_address_requests (ERR_GENERIC : Z) (is_testnet : bool)
  (btc_address : Bitbox02Client.AddressRequest -> result String.string)
  (keypath : list Z) (p2sh_p2wpkh bech32 : bool) (redeem_script : option String.string) :
  let r := Bitbox02Client.display_address ERR_GENERIC is_testnet btc_address
             keypath p2sh_p2wpkh bech32 redeem_script in
  let given := match redeem_script with
               | Some s => Bitbox02Client.nonempty s
               | None => false
               end in
  let script_config :=
    if p2sh_p2wpkh then BTCScriptConfig_P2WPKH_P2SH else BTCScriptConfig_P2WPKH in
  let req := Bitbox02Client.mkAddressRequest keypath
               (if is_testnet then TBTC else BTC) script_config true in
  (forall sent, In sent (fst r) ->
     fst r = [req] /\ sent = req
     /\ given = false
     /\ (p2sh_p2wpkh = true \/ bech32 = true)
     /\ address_path is_testnet (purpose_of script_config) keypath
     /\ snd r = Bitbox02Client.decorated ERR_GENERIC (Bitbox02Client.lift (btc_address req)))
  /\ (given = true ->
      r = ([], Bitbox02Client.Throw
                 (Bitbox02Client.NotImplementedError
                    "BitBox02 multisig not integrated into HWI yet")))
  /\ (given = false -> p2sh_p2wpkh = false -> bech32 = false ->
      r = ([], Bitbox02Client.Throw
                 (Bitbox02Client.Known
                    (UnavailableActionError
                       "The BitBox02 does not support legacy p2pkh addresses"))))
  /\ (given = false -> p2sh_p2wpkh = true \/ bech32 = true ->
      ~ address_path is_testnet (purpose_of script_config) keypath ->
      r = ([], Bitbox02Client.Throw
                 (Bitbox02Client.Known (KeypathError keypath is_testnet))))
  /\ (given = false -> p2sh_p2wpkh = true \/ bech32 = true ->
      address_path is_testnet (purpose_of script_config) keypath ->
      r = ([req], Bitbox02Client.decorated ERR_GENERIC
                    (Bitbox02Client.lift (btc_address req)))).
Proof.
  cbv zeta. unfold Bitbox02Client.display_address.
  set (given := match redeem_script with
                | Some s => Bitbox02Client.nonempty s
                | None => false
                end).
  pose proof (check_address_keypath_iff is_testnet keypath PURPOSE_P2WPKH_P2SH) as H49.
  pose proof (check_address_keypath_iff is_testnet keypath PURPOSE_P2WPKH) as H84.
  assert (Hor : forall b : bool, false = true \/ b = true -> b = true)
    by (intros b [|]; [discriminate | assumption]).
  destruct given; [|destruct p2sh_p2wpkh; [|destruct bech32]]; cbn [purpose_of].
  - cbn [fst snd].
    split; [intros sent []|]. split; [reflexivity|].
    split; [discriminate|]. split; discriminate.
  - destruct (Bitbox02Client._check_address_keypath_simple is_testnet keypath
                PURPOSE_P2WPKH_P2SH) eqn:Hc; cbn [negb fst snd].
    + pose proof (proj1 H49 eq_refl) as Ha. unfold _get_coin.
      split; [intros sent [<-|[]]; auto 10|]. split; [discriminate|].
      split; [discriminate|]. split; [intros; contradiction|reflexivity].
    + assert (Hn : ~ address_path is_testnet PURPOSE_P2WPKH_P2SH keypath)
        by (intro Ha; apply H49 in Ha; discriminate).
      split; [intros sent []|]. split; [discriminate|].
      split; [discriminate|]. split; [reflexivity|intros; contradiction].
  - destruct (Bitbox02Client._check_address_keypath_simple is_testnet keypath
                PURPOSE_P2WPKH) eqn:Hc; cbn [negb fst snd].
    + pose proof (proj1 H84 eq_refl) as Ha. unfold _get_coin.
      split; [intros sent [<-|[]]; auto 10|]. split; [discriminate|].
      split; [discriminate|]. split; [intros; contradiction|reflexivity].
    + assert (Hn : ~ address_path is_testnet PURPOSE_P2WPKH keypath)
        by (intro Ha; apply H84 in Ha; discriminate).
      split; [intros sent []|]. split; [discriminate|].
      split; [discriminate|]. split; [reflexivity|intros; contradiction].
  - cbn [fst snd].
    split; [intros sent []|]. split; [discriminate|].
    split; [reflexivity|].
    split; intros _ H; apply Hor in H; discriminate.
Qed.

(** ** [init], [setup_device] and [restore_device] *)

(** X8: [init] returns the connected device it already holds without
    looking at the enumeration; otherwise only the first enumerated device
    counts: the rest of the list changes nothing, a first device on
    another path ends the call in [NameError] even when a later device is
    on the wanted path, and a device is kept in [self.bb02] and returned
    exactly when it is on that path, was connected and passed
    [check_min_version], whose exception leaves [self.bb02] unset. *)
Theorem init_first_device_only {DI BB : Type} (device_path : String.string)
  (path_of : DI -> String.string) (connect : DI -> result BB)
  (check_min_version : BB -> result unit) (d : DI) (ds : list DI) :
  let init_ self_bb02 enumerated :=
    Bitbox02Client.init self_bb02 device_path enumerated path_of connect
      check_min_version in
  (forall bb02 enumerated,
     init_ (Some bb02) enumerated = (Some bb02, Bitbox02Client.Return bb02))
  /\ init_ None (d :: ds) = init_ None [d]
  /\ (path_of d <> device_path ->
      init_ None (d :: ds)
      = (None, Bitbox02Client.Throw (Bitbox02Client.Known NameError)))
  /\ (forall bb02,
        fst (init_ None (d :: ds)) = Some bb02
        <-> path_of d = device_path /\ connect d = Ok bb02
            /\ check_min_version bb02 = Ok tt)
  /\ (forall bb02,
        snd (init_ None (d :: ds)) = Bitbox02Client.Return bb02
        <-> fst (init_ None (d :: ds)) = Some bb02)
  /\ (forall exc bb02,
        path_of d = device_path -> connect d = Ok bb02 ->
        check_min_version bb02 = Raise exc ->
        init_ None (d :: ds)
        = (None, Bitbox02Client.Throw (Bitbox02Client.Known exc))).
Proof.
  cbv zeta. unfold Bitbox02Client.init.
  split; [reflexivity|]. split; [reflexivity|].
  destruct (String.eqb_spec (path_of d) device_path) as [Hp|Hp].
  - split; [intros; contradiction|].
    destruct (connect d) as [b|e] eqn:Hc.
    + destruct (check_min_version b) as [[]|e] eqn:Hv; cbn [fst snd].
      * split; [|split].
        -- intros bb02. split.
           ++ intros [= <-]. auto.
           ++ intros (_ & [= <-] & _). reflexivity.
        -- intros bb02. split; intros [= <-]; reflexivity.
        -- intros exc bb02 _ [= <-]. congruence.
      * split; [|split].
        -- intros bb02. split; [discriminate|].
           intros (_ & [= <-] & Hv'). congruence.
        -- intros bb02. split; discriminate.
        -- intros exc bb02 _ [= <-]. congruence.
    + cbn [fst snd]. split; [|split].
      * intros bb02. split; [discriminate|]. intros (_ & [=] & _).
      * intros bb02. split; discriminate.
      * intros exc bb02 _ [=].
  - split; [reflexivity|]. cbn [fst snd]. split; [|split].
    + intros bb02. split; [discriminate|]. intros (Hp' & _). contradiction.
    + intros bb02. split; discriminate.
    + intros exc bb02 Hp'. contradiction.
Qed.

Lemma bitbox02_exception_ok_inv (ERR_GENERIC : Z) {A} (r : result A) (v : A) :
  bitbox02_exception ERR_GENERIC r = Ok v -> r = Ok v.
Proof.
  destruct r as [a|e]; [exact (fun H => H)|].
  destruct e; cbn; try discriminate.
  destruct ((code =? ERR_GENERIC) || (code =? ERR_INVALID_INPUT)); discriminate.
Qed.

Ltac mgmt_facts :=
  repeat match goal with
    | H : _ \/ _ |- _ => destruct H
    | H : _ /\ _ |- _ => destruct H
    | H : False |- _ => destruct H
    | H : bitbox02_exception _ _ = Ok _ |- _ => apply bitbox02_exception_ok_inv in H
    | H : true = true -> _ |- _ => specialize (H eq_refl)
    | H : Bitbox02Client.m_set_device_name _ = Bitbox02Client.m_set_device_name _ |- _ =>
        injection H as <-
    end.

(** X9: [setup_device] never sends a modifying call to a device that
    reports itself initialized, nor when a passphrase is given (then it
    makes no call at all); the device name is set only for a non-empty
    label and before the password, the backup is created only after
    [set_password] answered true, and the method reports success exactly
    when the name (if any) was set and both [set_password] and
    [create_backup] answered true. *)
Theorem setup_device_guards (ERR_GENERIC : Z) (bb02 : Bitbox02Client.MgmtDevice)
  (label passphrase : String.string) :
  let r := Bitbox02Client.setup_device ERR_GENERIC bb02 label passphrase in
  let named :=
    Bitbox02Client.nonempty label = true ->
    Bitbox02Client.set_device_name bb02 label = Ok tt in
  (Bitbox02Client.nonempty passphrase = true ->
   r = ([], Raise (UnavailableActionError
                     "Passphrase not needed when setting up a BitBox02.")))
  /\ (Bitbox02Client.nonempty passphrase = false ->
      Bitbox02Client.info_initialized bb02 = true ->
      r = ([Bitbox02Client.m_device_info],
           Raise (UnavailableActionError "The BitBox02 must be wiped before setup.")))
  /\ (forall c, In c (fst r) -> c <> Bitbox02Client.m_device_info ->
      Bitbox02Client.nonempty passphrase = false
      /\ Bitbox02Client.info_initialized bb02 = false)
  /\ (forall l, In (Bitbox02Client.m_set_device_name l) (fst r) ->
      l = label /\ Bitbox02Client.nonempty label = true)
  /\ (In Bitbox02Client.m_set_password (fst r) -> named)
  /\ (In Bitbox02Client.m_create_backup (fst r) ->
      named /\ Bitbox02Client.set_password bb02 = Ok true)
  /\ (snd r = Ok true <->
      Bitbox02Client.nonempty passphrase = false
      /\ Bitbox02Client.info_initialized bb02 = false
      /\ named
      /\ Bitbox02Client.set_password bb02 = Ok true
      /\ Bitbox02Client.create_backup bb02 = Ok true)
  /\ (snd r = Ok true ->
      fst r = [Bitbox02Client.m_device_info]
              ++ (if Bitbox02Client.nonempty label
                  then [Bitbox02Client.m_set_device_name label] else [])
              ++ [Bitbox02Client.m_set_password; Bitbox02Client.m_create_backup]).
Proof.
  cbv zeta.
  unfold Bitbox02Client.setup_device, Bitbox02Client.finish, Bitbox02Client.then_,
    Bitbox02Client.call, Bitbox02Client.ret.
  destruct (Bitbox02Client.nonempty passphrase);
    [|destruct (Bitbox02Client.info_initialized bb02);
      [|destruct (Bitbox02Client.nonempty label);
        [destruct (Bitbox02Client.set_device_name bb02 label) as [[]|e0]|];
        (destruct (Bitbox02Client.set_password bb02) as [[|]|e1];
         [destruct (Bitbox02Client.create_backup bb02) as [[|]|e2]| |])]];
    cbn [fst snd app negb In];
    repeat match goal with |- _ /\ _ => split end;
    try (split; intros); intros; mgmt_facts; try discriminate; try congruence;
    repeat match goal with |- _ /\ _ => split end;
    try reflexivity; try congruence; try discriminate; auto.
Qed.

(** X10: [restore_device] never sends a modifying call to a device that
    reports itself initialized; the mnemonic is restored only after the
    name (if any) was set, the method's result is then the device's answer
    seen through the decorator, no password is set and no backup made, and
    [word_count] has no effect. *)
Theorem restore_device_guards (ERR_GENERIC : Z) (bb02 : Bitbox02Client.MgmtDevice)
  (label : String.string) (word_count : Z) :
  let r := Bitbox02Client.restore_device ERR_GENERIC bb02 label word_count in
  let named :=
    Bitbox02Client.nonempty label = true ->
    Bitbox02Client.set_device_name bb02 label = Ok tt in
  (Bitbox02Client.info_initialized bb02 = true ->
   r = ([Bitbox02Client.m_device_info],
        Raise (UnavailableActionError "The BitBox02 must be wiped before restore.")))
  /\ (forall c, In c (fst r) -> c <> Bitbox02Client.m_device_info ->
      Bitbox02Client.info_initialized bb02 = false)
  /\ (forall l, In (Bitbox02Client.m_set_device_name l) (fst r) ->
      l = label /\ Bitbox02Client.nonempty label = true)
  /\ (In Bitbox02Client.m_restore_from_mnemonic (fst r) ->
      named
      /\ snd r = bitbox02_exception ERR_GENERIC
                   (Bitbox02Client.restore_from_mnemonic bb02))
  /\ (forall ok, snd r = Ok ok <->
      Bitbox02Client.info_initialized bb02 = false
      /\ named
      /\ Bitbox02Client.restore_from_mnemonic bb02 = Ok ok)
  /\ ~ In Bitbox02Client.m_set_password (fst r)
  /\ ~ In Bitbox02Client.m_create_backup (fst r)
  /\ (forall other_count,
        Bitbox02Client.restore_device ERR_GENERIC bb02 label other_count = r).
Proof.
  cbv zeta.
  unfold Bitbox02Client.restore_device, Bitbox02Client.finish, Bitbox02Client.then_,
    Bitbox02Client.call, Bitbox02Client.ret.
  destruct (Bitbox02Client.info_initialized bb02);
    [|destruct (Bitbox02Client.nonempty label);
      [destruct (Bitbox02Client.set_device_name bb02 label) as [[]|e0]|];
      destruct (Bitbox02Client.restore_from_mnemonic bb02) as [ok0|e1]];
    cbn [fst snd app negb In];
    repeat match goal with |- _ /\ _ => split end;
    try (intros ok; split; intros); try (intros H; mgmt_facts; discriminate);
    intros; mgmt_facts; try discriminate; try congruence;
    repeat match goal with |- _ /\ _ => split end;
    try reflexivity; try congruence; try discriminate; auto.
Qed.

(** ** The decorator [bitbox02_exception] *)


(** ** The signing request, entry by entry *)

Section Request.

Variable ser : Serializations.
Variable master_fp : Z.

Lemma resolve_utxo_ok idx psbt_in tx_in utxo prevtx :
  resolve_utxo idx psbt_in tx_in = Ok (utxo, prevtx) ->
  non_witness_utxo psbt_in = Some prevtx
  /\ sha256 prevtx = Some (hash (prevout tx_in))
  /\ py_index (vout prevtx) (n (prevout tx_in)) = Ok utxo.
Proof.
  unfold resolve_utxo.
  destruct (non_witness_utxo psbt_in) as [prev|].
  - destruct (sha256 prev) as [h|] eqn:Hh; [|discriminate].
    destruct (Z.eqb_spec (hash (prevout tx_in)) h) as [E|E]; cbn [negb]; [|discriminate].
    destruct (py_index (vout prev) (n (prevout tx_in))) as [u|e] eqn:Hp; cbn [bind];
      [|discriminate].
    intros [= <- <-]. subst h. auto.
  - destruct (witness_utxo psbt_in); cbn [bind]; discriminate.
Qed.

Lemma get_simple_type_script_type input_index output redeem t :
  get_simple_type ser input_index output redeem = Ok t ->
  script_type_of ser output redeem t.
Proof.
  unfold get_simple_type, script_type_of.
  destruct (is_p2pkh ser (scriptPubKey output)); [discriminate|].
  destruct (is_p2wpkh ser (scriptPubKey output)).
  { intros [= <-]. auto. }
  destruct (CTxOut_is_p2sh ser output); destruct (is_p2wpkh ser redeem); cbn [andb];
    try (destruct input_index; discriminate).
  intros [= <-]. auto.
Qed.

Lemma input_step_describes st idx psbt_in tx_in st' :
  input_step ser master_fp st idx psbt_in tx_in = Ok st' ->
  exists input pubkey,
    inputs_acc st' = inputs_acc st ++ [input]
    /\ found_pubkeys st' = found_pubkeys st ++ [pubkey]
    /\ outputs_acc st' = outputs_acc st
    /\ describes_input ser master_fp (psbt_in, tx_in) input
    /\ signing_key master_fp (psbt_in, tx_in) pubkey
    /\ bip44_account st' <> None
    /\ input_index st' = Some idx
    /\ script_config_index_map st' = Some script_config_index_map_literal.
Proof.
  unfold input_step.
  destruct (check_sighash psbt_in); cbn [bind]; [|discriminate].
  destruct (resolve_utxo idx psbt_in tx_in) as [[utxo prevtx]|] eqn:Hu; cbn [bind];
    [|discriminate].
  apply resolve_utxo_ok in Hu. destruct Hu as (Hnw & Hsha & Hidx).
  destruct (find_our_key master_fp (hd_keypaths psbt_in)) as [[[pubkey path]|]|] eqn:Hk;
    cbn [bind]; try discriminate.
  destruct (truthy pubkey); cbn [negb]; [|discriminate].
  destruct (check_account (bip44_account st) path) as [account|] eqn:Ha; cbn [bind];
    [|discriminate].
  apply check_account_ok in Ha. destruct Ha as (acct & -> & _).
  destruct (get_simple_type ser (Some idx) utxo (redeem_script psbt_in)) as [t|] eqn:Ht;
    cbn [bind]; [|discriminate].
  intros [= <-]. cbn.
  eexists; exists pubkey. split; [reflexivity|]. split; [reflexivity|].
  split; [reflexivity|]. split.
  - apply get_simple_type_script_type in Ht.
    exists prevtx, utxo, pubkey, t. cbn. rewrite !map_map. cbn.
    assert (Hcfg : script_config_index_map_literal t = 0
                   \/ script_config_index_map_literal t = 1)
      by (destruct t; cbn; auto).
    assert (Hdesc : script_config_index_map_literal t = descriptor_index t)
      by (destruct t; reflexivity).
    repeat (split; [first [assumption | reflexivity]|]). reflexivity.
  - split; [exists path; exact Hk|]. split; [discriminate|]. auto.
Qed.

Lemma input_loop_describes zipped : forall st idx st',
  input_loop ser master_fp st idx zipped = Ok st' ->
  exists new_inputs new_pubkeys,
    inputs_acc st' = inputs_acc st ++ new_inputs
    /\ found_pubkeys st' = found_pubkeys st ++ new_pubkeys
    /\ outputs_acc st' = outputs_acc st
    /\ Forall2 (describes_input ser master_fp) zipped new_inputs
    /\ Forall2 (signing_key master_fp) zipped new_pubkeys
    /\ (zipped = [] -> st' = st).
Proof.
  induction zipped as [|[psbt_in tx_in] zipped IH]; intros st idx st' H;
    cbn [input_loop] in H.
  - injection H as <-. exists [], []. rewrite !app_nil_r. repeat split; constructor.
  - destruct (input_step ser master_fp st idx psbt_in tx_in) as [st1|] eqn:Hs;
      cbn [bind] in H; [|discriminate].
    apply input_step_describes in Hs.
    destruct Hs as (input & pubkey & Hi & Hp & Ho & Hd & Hk & _).
    destruct (IH _ _ _ H) as (ins & pks & Hi' & Hp' & Ho' & Hd' & Hk' & _).
    exists (input :: ins), (pubkey :: pks).
    rewrite Hi', Hp', Ho', Hi, Hp, Ho, <- !app_assoc.
    repeat split; try reflexivity; try (constructor; assumption). discriminate.
Qed.

Lemma output_step_value st idx psbt_out tx_out o :
  output_step ser master_fp st idx psbt_out tx_out = Ok o ->
  output_value o = nValue tx_out.
Proof.
  unfold output_step.
  destruct (find_our_key master_fp (out_hd_keypaths psbt_out)) as [found|]; cbn [bind];
    [|discriminate].
  destruct (is_change (option_map snd found)) as [[|]|]; cbn [bind]; try discriminate.
  - destruct (get_simple_type ser (input_index st) tx_out (out_redeem_script psbt_out));
      cbn [bind]; [|discriminate].
    destruct (script_config_index_map st); [|discriminate].
    destruct (option_map snd found); [|discriminate].
    intros [= <-]. reflexivity.
  - unfold external_output.
    repeat match goal with
      | |- context [if ?b then _ else _] => destruct b
      end; try discriminate; intros [= <-]; reflexivity.
Qed.

Lemma output_loop_values zipped : forall st idx st',
  output_loop ser master_fp st idx zipped = Ok st' ->
  exists new_outputs,
    outputs_acc st' = outputs_acc st ++ new_outputs
    /\ found_pubkeys st' = found_pubkeys st
    /\ Forall2 (fun pair o => output_value o = nValue (snd pair)) zipped new_outputs.
Proof.
  induction zipped as [|[psbt_out tx_out] zipped IH]; intros st idx st' H;
    cbn [output_loop] in H.
  - injection H as <-. exists []. rewrite app_nil_r. repeat split. constructor.
  - destruct (output_step ser master_fp st idx psbt_out tx_out) as [o|] eqn:Hs;
      cbn [bind] in H; [|discriminate].
    apply output_step_value in Hs.
    destruct (IH _ _ _ H) as (outs & Ho & Hp & Hv). cbn in Ho, Hp.
    exists (o :: outs). rewrite Ho, Hp, <- app_assoc.
    repeat split. constructor; assumption.
Qed.

Lemma build_request_describes is_testnet psbt req st :
  build_request ser is_testnet master_fp psbt = Ok (req, st) ->
  Forall2 (describes_input ser master_fp)
    (combine (inputs psbt) (vin (tx psbt))) (req_inputs req)
  /\ Forall2 (signing_key master_fp)
       (combine (inputs psbt) (vin (tx psbt))) (found_pubkeys st)
  /\ Forall2 (fun pair o => output_value o = nValue (snd pair))
       (combine (outputs psbt) (vout (tx psbt))) (req_outputs req)
  /\ req_locktime req = nLockTime (tx psbt)
  /\ req_version req = nVersion (tx psbt)
  /\ req_coin req = (if is_testnet then TBTC else BTC)
  /\ req_inputs req <> [].
Proof.
  unfold build_request.
  destruct (input_loop ser master_fp initial_locals 0
              (combine (inputs psbt) (vin (tx psbt)))) as [st1|] eqn:Hi;
    cbn [bind]; [|discriminate].
  destruct (output_loop ser master_fp st1 0
              (combine (outputs psbt) (vout (tx psbt)))) as [st2|] eqn:Ho;
    cbn [bind]; [|discriminate].
  destruct (bip44_account st2) as [account|] eqn:Ha; [|discriminate].
  intros [= <- <-]. cbn.
  destruct (output_loop_ok _ _ _ _ _ _ Ho) as [Hacc Hins].
  apply input_loop_describes in Hi.
  destruct Hi as (ins & pks & Hi1 & Hi2 & Hi3 & Hd & Hk & Hnil).
  apply output_loop_values in Ho. destruct Ho as (outs & Ho1 & Ho2 & Hv).
  cbn in Hi1, Hi2, Hi3. rewrite Hi3 in Ho1. cbn in Ho1.
  rewrite Hins, Hi1, Ho1, Ho2, Hi2.
  repeat split; auto.
  intros ->. inversion Hd as [Hz|]; subst.
  symmetry in Hz. specialize (Hnil Hz). subst st1.
  rewrite Hacc in Ha. discriminate.
Qed.

End Request.

(** ** The script-type descriptors of the request *)

(** C2, as stated, fails: both inputs of [psbt_two_segwit] are native
    segwit (script config index 0), and the one request sent carries two
    script-type descriptors. *)
Lemma all_segwit_inputs_two_script_configs :
  let calls :=
    fst (sign_tx sample_serializations 103 sample_device false psbt_two_segwit) in
  map (fun req => map in_script_config_index (req_inputs req)) (sign_requests calls)
  = [[0; 0]]
  /\ map (fun req => length (req_script_configs req)) (sign_requests calls)
     = [2%nat].
Proof. split; vm_compute; reflexivity. Qed.

(** C2, amended: every signing request [sign_tx] sends carries exactly two
    script-type descriptors, whatever the inputs use: native segwit first,
    with the path [84', coin', account'], then segwit-in-P2SH with
    [49', coin', account'], where [account'] is the account component of
    every input's key path; each input refers to one of the two by its
    index 0 or 1, and the one it refers to is the descriptor of its own
    script type: the native-segwit one when the output it spends has a
    p2wpkh script, the segwit-in-P2SH one when that output is p2sh over a
    p2wpkh redeem script. *)
Theorem sign_request_script_configs (ser : Serializations) (ERR_GENERIC : Z)
  (bb02 : BitBox02) (is_testnet : bool) (psbt : PSBT) (req : SignRequest) :
  In (call_btc_sign req) (fst (sign_tx ser ERR_GENERIC bb02 is_testnet psbt)) ->
  exists account,
    let bip44_network := if is_testnet then 1 + HARDENED else 0 + HARDENED in
    req_script_configs req
    = [ mkScriptConfig BTCScriptConfig_P2WPKH [84 + HARDENED; bip44_network; account];
        mkScriptConfig BTCScriptConfig_P2WPKH_P2SH [49 + HARDENED; bip44_network; account] ]
    /\ Forall (fun input =>
                 py_index (in_keypath input) 2 = Ok account
                 /\ (in_script_config_index input = 0
                     \/ in_script_config_index input = 1))
         (req_inputs req)
    /\ Forall2 (refers_to_descriptor ser (req_script_configs req))
         (combine (inputs psbt) (vin (tx psbt))) (req_inputs req).
Proof.
  intro Hin.
  destruct (sign_tx_btc_sign_built _ _ _ _ _ _ Hin) as (master_fp & st & _ & Hb).
  destruct (build_request_describes ser master_fp is_testnet psbt req st Hb)
    as (Hdescribes & _).
  unfold build_request in Hb.
  destruct (input_loop ser master_fp initial_locals 0 _) as [st1|] eqn:Hin1;
    cbn [bind] in Hb; [|discriminate].
  destruct (output_loop ser master_fp st1 0 _) as [st2|] eqn:Hout; cbn [bind] in Hb;
    [|discriminate].
  destruct (bip44_account st2) as [account|] eqn:Hacc; [|discriminate].
  inversion Hb; subst; clear Hb. cbn [req_script_configs req_inputs] in *.
  exists account. split; [reflexivity|].
  destruct (output_loop_ok _ _ _ _ _ _ Hout) as [Hacc2 Hins2].
  destruct (input_loop_ok _ _ _ _ _ _ Hin1) as (_ & _ & Hall & _).
  split.
  - rewrite Hins2. apply (Hall account).
    + intros input H1 H2. now split.
    + congruence.
    + constructor.
  - revert Hdescribes. apply Forall2_impl.
    intros [psbt_in tx_in] input
      (prevtx & utxo & pubkey & t & Hnw & _ & Hidx & _ & _ & _ & _ & _ & _ & Htype & Hcfg & _).
    unfold refers_to_descriptor. rewrite Hcfg.
    destruct t.
    + exists prevtx, utxo, BTCScriptConfig_P2WPKH_P2SH. eexists.
      repeat (split; [first [eassumption | reflexivity]|]). reflexivity.
    + exists prevtx, utxo, BTCScriptConfig_P2WPKH. eexists.
      repeat (split; [first [eassumption | reflexivity]|]). reflexivity.
Qed.

Lemma sign_request_script_configs_witness :
  In (call_btc_sign sample_request)
    (fst (sign_tx sample_serializations 103 sample_device false psbt_two_segwit))
  /\ exists account,
       req_script_configs sample_request
       = [ mkScriptConfig BTCScriptConfig_P2WPKH [84 + HARDENED; 0 + HARDENED; account];
           mkScriptConfig BTCScriptConfig_P2WPKH_P2SH [49 + HARDENED; 0 + HARDENED; account] ].
Proof.
  assert (Hin : In (call_btc_sign sample_request)
                  (fst (sign_tx sample_serializations 103 sample_device false psbt_two_segwit))).
  { vm_compute. right. right. left. reflexivity. }
  split; [exact Hin|].
  destruct (sign_request_script_configs _ _ _ _ _ _ Hin) as (account & Hcfg & _).
  exists account. exact Hcfg.
Defined.

(** X12: every signing request that reaches the device describes the
    transaction entry by entry and in order: one input record per pair of
    [zip(psbt.inputs, psbt.tx.vin)], at least one, whose amount is read in
    the full previous transaction, at the output the input spends, that
    transaction having the hash the input names, and whose key path is
    that of the device's first key of the input; one output record per
    pair of [zip(psbt.outputs, psbt.tx.vout)] with the output's amount;
    the transaction's lock time and version; the network's coin. *)
Theorem sign_request_mirrors_transaction (ser : Serializations) (ERR_GENERIC : Z)
  (bb02 : BitBox02) (is_testnet : bool) (psbt : PSBT) (req : SignRequest) :
  In (call_btc_sign req) (fst (sign_tx ser ERR_GENERIC bb02 is_testnet psbt)) ->
  exists master_fp,
    unpack_I_le (root_fingerprint bb02) = Ok master_fp
    /\ Forall2 (describes_input ser master_fp)
         (combine (inputs psbt) (vin (tx psbt))) (req_inputs req)
    /\ Forall2 (fun pair o => output_value o = nValue (snd pair))
         (combine (outputs psbt) (vout (tx psbt))) (req_outputs req)
    /\ length (req_inputs req)
       = Nat.min (length (inputs psbt)) (length (vin (tx psbt)))
    /\ length (req_outputs req)
       = Nat.min (length (outputs psbt)) (length (vout (tx psbt)))
    /\ req_inputs req <> []
    /\ req_locktime req = nLockTime (tx psbt)
    /\ req_version req = nVersion (tx psbt)
    /\ req_coin req = (if is_testnet then TBTC else BTC).
Proof.
  intros Hin.
  destruct (sign_tx_btc_sign_built _ _ _ _ _ _ Hin) as (master_fp & st & Hfp & Hb).
  apply build_request_describes in Hb.
  destruct Hb as (Hd & _ & Hv & Hl & Hver & Hc & Hne).
  exists master_fp. split; [exact Hfp|]. split; [exact Hd|]. split; [exact Hv|].
  split; [|split].
  - rewrite <- (Forall2_length Hd). apply length_combine.
  - rewrite <- (Forall2_length Hv). apply length_combine.
  - auto.
Qed.

Lemma sign_request_mirrors_transaction_witness :
  In (call_btc_sign sample_request)
    (fst (sign_tx sample_serializations 103 sample_device false psbt_two_segwit))
  /\ length (req_inputs sample_request) = 2%nat
  /\ req_inputs sample_request <> [].
Proof.
  assert (Hin : In (call_btc_sign sample_request)
                  (fst (sign_tx sample_serializations 103 sample_device false
                          psbt_two_segwit))).
  { vm_compute. right. right. left. reflexivity. }
  split; [exact Hin|].
  destruct (sign_request_mirrors_transaction _ _ _ _ _ _ Hin)
    as (master_fp & _ & _ & _ & Hlen & _ & Hne & _).
  split; [exact Hlen | exact Hne].
Defined.

(** ** The signatures, merged into the PSBT *)

Lemma dict_lookup_set_same d k v : dict_lookup (dict_set d k v) k = Some v.
Proof.
  induction d as [|[k' v'] d IH]; cbn [dict_set dict_lookup].
  - now rewrite bytes_eqb_refl.
  - destruct (bytes_eqb k' k) eqn:E; cbn [dict_lookup]; rewrite E; auto.
Qed.

Lemma dict_lookup_set_other d k v other :
  other <> k -> dict_lookup (dict_set d k v) other = dict_lookup d other.
Proof.
  intros Hne. induction d as [|[k' v'] d IH]; cbn [dict_set dict_lookup].
  - destruct (bytes_eqb k other) eqn:E; [|reflexivity].
    apply bytes_eqb_eq in E. congruence.
  - destruct (bytes_eqb k' k) eqn:E; cbn [dict_lookup].
    + destruct (bytes_eqb k' other) eqn:E'; [|reflexivity].
      apply bytes_eqb_eq in E, E'. congruence.
    + now rewrite IH.
Qed.

Lemma merge_sigs_length ser sigs : forall pubkeys psbt_ins,
  length (merge_sigs ser sigs pubkeys psbt_ins) = length psbt_ins.
Proof.
  induction sigs as [|[marker sig] sigs IH]; intros [|pubkey pubkeys] [|psbt_in psbt_ins];
    cbn [merge_sigs length]; try reflexivity.
  now rewrite IH.
Qed.

Lemma merge_sigs_nth ser sigs : forall pubkeys psbt_ins i psbt_in,
  nth_error psbt_ins i = Some psbt_in ->
  exists signed_in,
    nth_error (merge_sigs ser sigs pubkeys psbt_ins) i = Some signed_in
    /\ same_but_sigs signed_in psbt_in
    /\ (forall marker sig pubkey,
          nth_error sigs i = Some (marker, sig) ->
          nth_error pubkeys i = Some pubkey ->
          partial_sigs signed_in
          = dict_set (partial_sigs psbt_in) pubkey (stored_signature ser sig))
    /\ (nth_error sigs i = None \/ nth_error pubkeys i = None -> signed_in = psbt_in).
Proof.
  assert (Hsame : forall x, same_but_sigs x x) by (intro; repeat split).
  induction sigs as [|[marker0 sig0] sigs IH]; intros pubkeys psbt_ins i psbt_in Hi.
  - exists psbt_in. destruct pubkeys, psbt_ins; cbn [merge_sigs];
      (split; [exact Hi|]); (split; [apply Hsame|]); (split; [|reflexivity]);
      intros marker sig pubkey H; destruct i; discriminate.
  - destruct pubkeys as [|pubkey0 pubkeys].
    { exists psbt_in. destruct psbt_ins; cbn [merge_sigs];
        (split; [exact Hi|]); (split; [apply Hsame|]); (split; [|reflexivity]);
        intros marker sig pubkey _ H; destruct i; discriminate. }
    destruct psbt_ins as [|psbt_in0 psbt_ins]; [destruct i; discriminate|].
    cbn [merge_sigs]. destruct i as [|i]; cbn [nth_error] in *.
    + injection Hi as <-. eexists. split; [reflexivity|].
      split; [repeat split|]. split.
      * intros marker sig pubkey [= <- <-] [= <-]. reflexivity.
      * intros [H|H]; discriminate.
    + apply IH. exact Hi.
Qed.

Lemma nth_error_combine {A B} (l1 : list A) : forall (l2 : list B) i a b,
  nth_error l1 i = Some a -> nth_error l2 i = Some b ->
  nth_error (combine l1 l2) i = Some (a, b).
Proof.
  induction l1 as [|x l1 IH]; intros [|y l2] [|i] a b H1 H2; try discriminate;
    cbn [combine nth_error] in *.
  - congruence.
  - now apply IH.
Qed.

Lemma Forall2_nth_error_l {A B} (R : A -> B -> Prop) l1 l2 :
  Forall2 R l1 l2 ->
  forall i a, nth_error l1 i = Some a ->
  exists b, nth_error l2 i = Some b /\ R a b.
Proof.
  induction 1 as [|x y l1 l2 Hxy H IH]; intros [|i] a Ha; try discriminate;
    cbn [nth_error] in *.
  - injection Ha as <-. eauto.
  - now apply IH.
Qed.

(** X13: when [sign_tx] returns, the device was asked exactly once to
    sign, after the identity query, and answered with signatures; the
    PSBT that is serialized has the transaction and the outputs of the one
    received and as many inputs; input [i], when the transaction has an
    input [i] and the device gave a signature [i], differs from the
    received one in [partial_sigs] alone, where the entry of the device's
    first key of that input is now the DER form of the two 32-byte halves of
    the signature and every other key's entry is as before; an input
    without a signature or without a transaction input is left as
    received, the call succeeding all the same. *)
Theorem sign_tx_merges_signatures (ser : Serializations) (ERR_GENERIC : Z)
  (bb02 : BitBox02) (is_testnet : bool) (psbt signed : PSBT) :
  snd (sign_tx ser ERR_GENERIC bb02 is_testnet psbt) = Ok signed ->
  exists master_fp req sigs,
    unpack_I_le (root_fingerprint bb02) = Ok master_fp
    /\ fst (sign_tx ser ERR_GENERIC bb02 is_testnet psbt)
       = [call_device_info; call_root_fingerprint; call_btc_sign req]
    /\ btc_sign bb02 req = Ok sigs
    /\ tx signed = tx psbt
    /\ outputs signed = outputs psbt
    /\ length (inputs signed) = length (inputs psbt)
    /\ forall i psbt_in,
         nth_error (inputs psbt) i = Some psbt_in ->
         exists signed_in,
           nth_error (inputs signed) i = Some signed_in
           /\ same_but_sigs signed_in psbt_in
           /\ (forall tx_in marker sig,
                 nth_error (vin (tx psbt)) i = Some tx_in ->
                 nth_error sigs i = Some (marker, sig) ->
                 exists pubkey,
                   signing_key master_fp (psbt_in, tx_in) pubkey
                   /\ partial_sigs signed_in
                      = dict_set (partial_sigs psbt_in) pubkey (stored_signature ser sig)
                   /\ dict_lookup (partial_sigs signed_in) pubkey
                      = Some (stored_signature ser sig)
                   /\ forall other, other <> pubkey ->
                        dict_lookup (partial_sigs signed_in) other
                        = dict_lookup (partial_sigs psbt_in) other)
           /\ (nth_error sigs i = None \/ nth_error (vin (tx psbt)) i = None ->
               signed_in = psbt_in).
Proof.
  unfold sign_tx, sign_tx_body, get_master_fingerprint_hex.
  destruct (initialized bb02); cbn [negb]; [|discriminate].
  destruct (unpack_I_le (root_fingerprint bb02)) as [master_fp|e] eqn:Hfp; cbn [bind];
    [|cbn [snd]; intro H; apply bitbox02_exception_ok_inv in H; discriminate].
  destruct (build_request ser is_testnet master_fp psbt) as [[req st]|e] eqn:Hb;
    [|cbn [snd]; intro H; apply bitbox02_exception_ok_inv in H; discriminate].
  cbn [snd fst app]. intro H. apply bitbox02_exception_ok_inv in H.
  destruct (btc_sign bb02 req) as [sigs|e] eqn:Hs; cbn [bind] in H; [|discriminate].
  injection H as <-. cbn [tx outputs inputs].
  exists master_fp, req, sigs.
  split; [reflexivity|]. split; [reflexivity|]. split; [exact Hs|].
  split; [reflexivity|]. split; [reflexivity|].
  split; [apply merge_sigs_length|].
  apply build_request_describes in Hb. destruct Hb as (_ & Hk & _).
  intros i psbt_in Hi.
  destruct (merge_sigs_nth ser sigs (found_pubkeys st) _ _ _ Hi)
    as (signed_in & Hn & Hsame & Hset & Hkeep).
  exists signed_in. split; [exact Hn|]. split; [exact Hsame|]. split.
  - intros tx_in marker sig Htx Hsig.
    destruct (Forall2_nth_error_l _ _ _ Hk _ _ (nth_error_combine _ _ _ _ _ Hi Htx))
      as (pubkey & Hpk & Hkey).
    exists pubkey. split; [exact Hkey|].
    rewrite (Hset _ _ _ Hsig Hpk). split; [reflexivity|]. split.
    + apply dict_lookup_set_same.
    + intros other Hne. now apply dict_lookup_set_other.
  - intros [Hnone|Hnone]; apply Hkeep; [now left|right].
    apply nth_error_None. rewrite <- (Forall2_length Hk), length_combine.
    apply nth_error_None in Hnone. lia.
Qed.

Lemma sign_tx_merges_signatures_witness :
  exists signed,
    snd (sign_tx sample_serializations 103 sample_device false psbt_two_segwit)
    = Ok signed
    /\ tx signed = tx psbt_two_segwit
    /\ length (inputs signed) = 2%nat.
Proof.
  destruct (snd (sign_tx sample_serializations 103 sample_device false psbt_two_segwit))
    as [signed|e] eqn:E; [|vm_compute in E; discriminate].
  exists signed. split; [reflexivity|].
  destruct (sign_tx_merges_signatures _ _ _ _ _ _ E)
    as (master_fp & req & sigs & _ & _ & _ & Htx & _ & Hlen & _).
  split; [exact Htx | exact Hlen].
Defined.

(** ** What [write] does to the link *)

(** X14: [write] fails, with [struct.error] and before any block is
    handed to the link, exactly when the type tag does not fit 16 bits or
    the payload length does not fit 32; otherwise it returns, having made
    at least one [write_chunk] call and no other call on the handle, and
    having left the pending blocks and the session counter as they were. *)
Theorem write_fails_iff_unpackable (p : Protocol) (msg_type : Z) (ser : bytes) :
  (write p msg_type ser = Raise StructError <-> ~ packable (msg_type, ser))
  /\ (is_ok (write p msg_type ser) = true <-> packable (msg_type, ser))
  /\ (forall p', write p msg_type ser = Ok p' ->
        session_counter p' = session_counter p
        /\ pending (handle p') = pending (handle p)
        /\ exists chunks,
             chunks <> []
             /\ calls (handle p') = calls (handle p) ++ map h_write_chunk chunks).
Proof.
  unfold packable. cbn [fst snd].
  assert (Hlen : 0 <= Z.of_nat (length ser)) by lia.
  unfold write, pack_HL.
  destruct ((0 <=? msg_type) && (msg_type <? 2 ^ 16)
            && (0 <=? Z.of_nat (length ser)) && (Z.of_nat (length ser) <? 2 ^ 32)) eqn:E;
    cbn [bind is_ok].
  - repeat rewrite andb_true_iff in E. destruct E as [[[E1 E2] _] E4].
    apply Z.leb_le in E1. apply Z.ltb_lt in E2, E4.
    split; [split; [discriminate|intros H; exfalso; apply H; lia]|].
    split; [split; [intros _; lia|reflexivity]|].
    intros p' [= <-]. cbn [session_counter handle].
    match goal with |- context [write_loop _ ?b] => set (buffer := b) end.
    destruct (write_loop_chunks (length buffer) buffer (handle p) eq_refl)
      as (chunks & Hw & Hn & _).
    rewrite Hw. cbn [pending calls]. repeat split.
    exists chunks. split; [|reflexivity].
    intros ->. cbn [length] in Hn. subst buffer. cbn [app length] in Hn.
    clear -Hn. div_lia.
  - split; [split; [intros _|reflexivity]|].
    + intros [[H1 H2] H3].
      assert (Ht : (0 <=? msg_type) && (msg_type <? 2 ^ 16)
                   && (0 <=? Z.of_nat (length ser))
                   && (Z.of_nat (length ser) <? 2 ^ 32) = true).
      { repeat rewrite andb_true_iff.
        repeat split; try apply Z.leb_le; try apply Z.ltb_lt; lia. }
      congruence.
    + split; [split; [discriminate|]|discriminate].
      intros [[H1 H2] H3].
      assert (Ht : (0 <=? msg_type) && (msg_type <? 2 ^ 16)
                   && (0 <=? Z.of_nat (length ser))
                   && (Z.of_nat (length ser) <? 2 ^ 32) = true).
      { repeat rewrite andb_true_iff.
        repeat split; try apply Z.leb_le; try apply Z.ltb_lt; lia. }
      congruence.
Qed.

(** ** [sign_tx] and the device *)

(** X15: whatever the PSBT and the device, the device calls of [sign_tx]
    are the identity query alone (cut short after [device_info] on a
    device that is not initialized, which ends the call in "Not
    initialized") or the identity query followed by one [btc_sign]; no
    xpub is asked for.  When the device refuses [btc_sign], the user's
    abort comes out as [ActionCanceledError], the vendor's generic and
    invalid-input codes as the bad-argument error "invalid input", an
    outdated firmware as [DeviceNotReadyError], and in no case is a PSBT
    returned. *)
Theorem sign_tx_device_calls (ser : Serializations) (ERR_GENERIC : Z)
  (bb02 : BitBox02) (is_testnet : bool) (psbt : PSBT) :
  let r := sign_tx ser ERR_GENERIC bb02 is_testnet psbt in
  (initialized bb02 = false ->
   r = ([call_device_info], Raise (UnavailableActionError "Not initialized")))
  /\ (fst r = [call_device_info] /\ initialized bb02 = false
      \/ fst r = [call_device_info; call_root_fingerprint] /\ is_ok (snd r) = false
      \/ exists req,
           fst r = [call_device_info; call_root_fingerprint; call_btc_sign req])
  /\ (forall req, ~ In (call_btc_xpub req) (fst r))
  /\ (forall req, In (call_btc_sign req) (fst r) ->
        (btc_sign bb02 req = Raise UserAbortException ->
         snd r = Raise ActionCanceledError)
        /\ (forall code, btc_sign bb02 req = Raise (Bitbox02Exception code) ->
              code = ERR_GENERIC \/ code = ERR_INVALID_INPUT ->
              snd r = Raise (BadArgumentError InvalidInput))
        /\ (btc_sign bb02 req = Raise FirmwareVersionOutdatedException ->
            snd r = Raise DeviceNotReadyError)
        /\ (is_ok (btc_sign bb02 req) = is_ok (snd r))).
Proof.
  cbv zeta. unfold sign_tx, sign_tx_body, get_master_fingerprint_hex.
  destruct (initialized bb02); cbn [negb].
  2:{ cbn. split; [reflexivity|]. split; [left; auto|].
      split; [intros req [H|[]]; discriminate|]. intros req [H|[]]. discriminate. }
  split; [discriminate|].
  destruct (unpack_I_le (root_fingerprint bb02)) as [master_fp|e]; cbn [bind].
  2:{ cbn [fst snd]. split.
      - right. left. split; [reflexivity|].
        destruct (bitbox02_exception ERR_GENERIC (Raise e)) eqn:E; [|reflexivity].
        apply bitbox02_exception_ok_inv in E. discriminate.
      - split; intros req [H|[H|[]]]; discriminate. }
  destruct (build_request ser is_testnet master_fp psbt) as [[req st]|e].
  2:{ cbn [fst snd]. split.
      - right. left. split; [reflexivity|].
        destruct (bitbox02_exception ERR_GENERIC (Raise e)) eqn:E; [|reflexivity].
        apply bitbox02_exception_ok_inv in E. discriminate.
      - split; intros req [H|[H|[]]]; discriminate. }
  cbn [fst snd app]. split; [right; right; exists req; reflexivity|].
  split; [intros r [H|[H|[H|[]]]]; discriminate|].
  intros req' [H|[H|[H|[]]]]; try discriminate. injection H as <-.
  destruct (btc_sign bb02 req) as [sigs|e]; cbn [bind].
  - repeat split; try discriminate.
  - split; [intros [= ->]; reflexivity|].
    split; [|split].
    + intros code [= ->] Hcode. cbn.
      destruct (Z.eqb_spec code ERR_GENERIC); [reflexivity|].
      destruct (Z.eqb_spec code ERR_INVALID_INPUT); [reflexivity|].
      destruct Hcode; contradiction.
    + intros [= ->]. reflexivity.
    + cbn [is_ok].
      destruct (bitbox02_exception ERR_GENERIC (Raise e)) eqn:E; [|reflexivity].
      apply bitbox02_exception_ok_inv in E. discriminate.
Qed.

Lemma output_loop_keeps_locals ser master_fp zipped : forall st idx st',
  output_loop ser master_fp st idx zipped = Ok st' ->
  input_index st' = input_index st
  /\ script_config_index_map st' = script_config_index_map st.
Proof.
  induction zipped as [|[psbt_out tx_out] zipped IH]; intros st idx st' H;
    cbn [output_loop] in H.
  - injection H as <-. now split.
  - destruct (output_step ser master_fp st idx psbt_out tx_out); cbn [bind] in H;
      [|discriminate].
    destruct (IH _ _ _ H) as [H1 H2]. now split.
Qed.

Lemma combine_nil_either {A B} (l1 : list A) (l2 : list B) :
  l1 = [] \/ l2 = [] -> combine l1 l2 = [].
Proof. intros [-> | ->]; [reflexivity|]. now destruct l1. Qed.

(** X16: a PSBT without inputs, or over a transaction without inputs, is
    never sent for signing and [sign_tx] never returns on it.  On an
    initialized device whose fingerprint unpacks, the call ends in the
    failed assertion on the account when every output passes the output
    loop; and in [NameError] at the first output that fails when that
    output is one of the device's change outputs without a p2pkh script,
    because the names the input loop binds are read unbound. *)
Theorem sign_tx_without_inputs (ser : Serializations) (ERR_GENERIC : Z)
  (bb02 : BitBox02) (is_testnet : bool) (psbt : PSBT) :
  inputs psbt = [] \/ vin (tx psbt) = [] ->
  let r := sign_tx ser ERR_GENERIC bb02 is_testnet psbt in
  let zipped := combine (outputs psbt) (vout (tx psbt)) in
  is_ok (snd r) = false
  /\ (forall req, ~ In (call_btc_sign req) (fst r))
  /\ (forall master_fp st,
        initialized bb02 = true ->
        unpack_I_le (root_fingerprint bb02) = Ok master_fp ->
        output_loop ser master_fp initial_locals 0 zipped = Ok st ->
        r = ([call_device_info; call_root_fingerprint], Raise AssertionError))
  /\ (forall master_fp j psbt_out tx_out st pubkey path,
        initialized bb02 = true ->
        unpack_I_le (root_fingerprint bb02) = Ok master_fp ->
        nth_error zipped j = Some (psbt_out, tx_out) ->
        output_loop ser master_fp initial_locals 0 (firstn j zipped) = Ok st ->
        find_our_key master_fp (out_hd_keypaths psbt_out) = Ok (Some (pubkey, path)) ->
        second_to_last path 1 ->
        is_p2pkh ser (scriptPubKey tx_out) = false ->
        r = ([call_device_info; call_root_fingerprint], Raise NameError)).
Proof.
  intros Hempty. cbv zeta. apply combine_nil_either in Hempty.
  assert (Hbuild : forall master_fp,
            build_request ser is_testnet master_fp psbt
            = (st <- output_loop ser master_fp initial_locals 0
                       (combine (outputs psbt) (vout (tx psbt))) ;;
               Raise AssertionError)).
  { intros master_fp. unfold build_request. rewrite Hempty. cbn [input_loop bind].
    destruct (output_loop ser master_fp initial_locals 0
                (combine (outputs psbt) (vout (tx psbt)))) as [st|e] eqn:Ho;
      cbn [bind]; [|reflexivity].
    destruct (output_loop_ok _ _ _ _ _ _ Ho) as [Hacc _]. now rewrite Hacc. }
  assert (Hno : forall master_fp,
            unpack_I_le (root_fingerprint bb02) = Ok master_fp ->
            is_ok (build_request ser is_testnet master_fp psbt) = false).
  { intros master_fp _. rewrite Hbuild.
    now destruct (output_loop ser master_fp initial_locals 0
                    (combine (outputs psbt) (vout (tx psbt)))). }
  destruct (sign_tx_not_built ser ERR_GENERIC bb02 is_testnet psbt Hno) as (H1 & H2 & _).
  split; [exact H1|]. split; [exact H2|]. split.
  - intros master_fp st Hinit Hfp Ho.
    apply (sign_tx_build_raise ser ERR_GENERIC bb02 is_testnet psbt master_fp);
      auto.
    rewrite Hbuild, Ho. reflexivity.
  - intros master_fp j psbt_out tx_out st pubkey path Hinit Hfp Hnth Hpre Hkey Hchg Hp2pkh.
    apply (sign_tx_build_raise ser ERR_GENERIC bb02 is_testnet psbt master_fp);
      auto.
    rewrite Hbuild.
    rewrite (output_loop_raises ser master_fp _ j psbt_out tx_out initial_locals st
               NameError Hnth Hpre); [reflexivity|].
    destruct (output_loop_keeps_locals _ _ _ _ _ _ Hpre) as [Hidx Hmap].
    cbn [initial_locals input_index script_config_index_map] in Hidx, Hmap.
    unfold output_step. rewrite Hkey. cbn [bind option_map snd].
    rewrite (proj2 (is_change_iff (Some path))) by (exists path; auto).
    cbn [bind]. rewrite Hidx, Hmap. unfold get_simple_type. rewrite Hp2pkh.
    destruct (is_p2wpkh ser (scriptPubKey tx_out)); [reflexivity|].
    destruct (CTxOut_is_p2sh ser tx_out && is_p2wpkh ser (out_redeem_script psbt_out));
      reflexivity.
Qed.

Lemma sign_tx_without_inputs_witness :
  let psbt := mkPSBT (sample_tx 0 1) [] [sample_external_output] in
  inputs psbt = []
  /\ sign_tx sample_serializations 103 sample_device false psbt
     = ([call_device_info; call_root_fingerprint], Raise AssertionError).
Proof.
  cbv zeta. split; [reflexivity|].
  destruct (sign_tx_without_inputs sample_serializations 103 sample_device false
              (mkPSBT (sample_tx 0 1) [] [sample_external_output])
              (or_introl eq_refl)) as (_ & _ & Hassert & _).
  eapply (Hassert 1); [reflexivity| reflexivity|].
  vm_compute. reflexivity.
Defined.

(** ** The PSBTs [sign_tx] sends for signing *)

Section Acceptance.

Variable ser : Serializations.
Variable master_fp : Z.

Lemma get_simple_type_ok input_index output redeem :
  (exists t, get_simple_type ser input_index output redeem = Ok t)
  <-> simple_script ser output redeem.
Proof.
  unfold get_simple_type, simple_script.
  destruct (is_p2pkh ser (scriptPubKey output)).
  { split; [intros [t H]; discriminate | intros [H _]; discriminate]. }
  destruct (is_p2wpkh ser (scriptPubKey output)).
  { split; [auto | intros _; eexists; reflexivity]. }
  destruct (CTxOut_is_p2sh ser output); destruct (is_p2wpkh ser redeem); cbn [andb];
    try (split; [auto | intros _; eexists; reflexivity]);
    (split; [intros [t H]; destruct input_index; discriminate|]);
    intros (_ & [H | [H1 H2]]); discriminate.
Qed.

Lemma input_step_accepted st idx psbt_in tx_in st' :
  input_step ser master_fp st idx psbt_in tx_in = Ok st' ->
  exists account,
    acceptable_input ser master_fp account (psbt_in, tx_in)
    /\ (forall a0, bip44_account st = Some a0 -> a0 = account)
    /\ bip44_account st' = Some account
    /\ script_config_index_map st' = Some script_config_index_map_literal.
Proof.
  unfold input_step.
  destruct (check_sighash psbt_in) as [[]|] eqn:Hs; cbn [bind]; [|discriminate].
  apply check_sighash_ok in Hs.
  destruct (resolve_utxo idx psbt_in tx_in) as [[utxo prevtx]|] eqn:Hu; cbn [bind];
    [|discriminate].
  apply resolve_utxo_ok in Hu. destruct Hu as (Hnw & Hsha & Hidx).
  destruct (find_our_key master_fp (hd_keypaths psbt_in)) as [[[pubkey path]|]|] eqn:Hk;
    cbn [bind]; try discriminate.
  destruct (truthy pubkey) eqn:Ht; cbn [negb]; [|discriminate].
  destruct (check_account (bip44_account st) path) as [account|] eqn:Ha; cbn [bind];
    [|discriminate].
  apply check_account_ok in Ha. destruct Ha as (acct & -> & Hacc & Hcompat).
  destruct (get_simple_type ser (Some idx) utxo (redeem_script psbt_in)) as [t|] eqn:Hg;
    cbn [bind]; [|discriminate].
  intros [= <-]. cbn. exists acct. split; [|auto].
  split; [exact Hs|]. exists prevtx, utxo, pubkey, path.
  assert (Hsimple : simple_script ser utxo (redeem_script psbt_in))
    by (apply (get_simple_type_ok (Some idx)); eauto).
  assert (Hpk : pubkey <> []) by (intros ->; discriminate).
  repeat (split; [assumption|]). exact Hsimple.
Qed.


Lemma input_loop_accepted zipped : forall st idx st',
  input_loop ser master_fp st idx zipped = Ok st' ->
  zipped <> [] ->
  exists account,
    Forall (acceptable_input ser master_fp account) zipped
    /\ (forall a0, bip44_account st = Some a0 -> a0 = account)
    /\ bip44_account st' = Some account
    /\ script_config_index_map st' = Some script_config_index_map_literal.
Proof.
  induction zipped as [|[psbt_in tx_in] zipped IH]; intros st idx st' H Hne;
    [contradiction|].
  cbn [input_loop] in H.
  destruct (input_step ser master_fp st idx psbt_in tx_in) as [st1|] eqn:Hs;
    cbn [bind] in H; [|discriminate].
  apply input_step_accepted in Hs. destruct Hs as (account & Hacc & Hcompat & Hst1 & Hmap).
  destruct zipped as [|z zipped].
  - cbn [input_loop] in H. injection H as <-. exists account. auto.
  - destruct (IH _ _ _ H) as (account' & Hall & Hcompat' & Hst' & Hmap');
      [discriminate|].
    pose proof (Hcompat' _ Hst1) as Heq. subst account'.
    exists account. auto.
Qed.






End Acceptance.


(** ** The outputs of the request *)

Section Outputs.

Variable ser : Serializations.
Variable master_fp : Z.

Lemma external_output_shape j tx_out o :
  external_output ser j tx_out = Ok o ->
  exists output_type output_hash,
    external_shape ser tx_out output_type output_hash
    /\ o = BTCOutputExternal output_type output_hash (nValue tx_out).
Proof.
  unfold external_output, external_shape.
  destruct (CTxOut_is_p2pkh ser tx_out).
  { intros [= <-]. do 2 eexists. split; [left; auto | reflexivity]. }
  destruct (is_p2wpkh ser (scriptPubKey tx_out)).
  { intros [= <-]. do 2 eexists. split; [right; left; auto | reflexivity]. }
  destruct (CTxOut_is_p2sh ser tx_out).
  { intros [= <-]. do 2 eexists. split; [right; right; left; auto 6 | reflexivity]. }
  destruct (is_p2wsh ser (scriptPubKey tx_out)); [|discriminate].
  intros [= <-]. do 2 eexists. split; [right; right; right; auto 7 | reflexivity].
Qed.

Lemma output_step_describes st j psbt_out tx_out o :
  script_config_index_map st = Some script_config_index_map_literal ->
  output_step ser master_fp st j psbt_out tx_out = Ok o ->
  describes_output ser master_fp (psbt_out, tx_out) o.
Proof.
  intros Hmap. unfold output_step, describes_output.
  destruct (find_our_key master_fp (out_hd_keypaths psbt_out)) as [found|e] eqn:Hfind;
    cbn [bind]; [|discriminate].
  destruct (is_change (option_map snd found)) as [[|]|e] eqn:Hchg; cbn [bind];
    [| |discriminate].
  - apply is_change_iff in Hchg. destruct Hchg as (kp & Hkp & Hone).
    destruct found as [[pubkey kp']|]; [|discriminate].
    cbn [option_map snd] in Hkp |- *. injection Hkp as ->.
    apply find_our_key_first_match in Hfind.
    destruct (get_simple_type ser (input_index st) tx_out (out_redeem_script psbt_out))
      as [t|e] eqn:Ht; cbn [bind]; [|discriminate].
    apply get_simple_type_script_type in Ht.
    rewrite Hmap. intros [= <-]. left. exists pubkey, kp, t.
    split; [exact Hfind|]. split; [exact Hone|]. split; [exact Ht|].
    destruct t; reflexivity.
  - intros Hext. right. split.
    + intros pubkey path Hm Hone.
      apply find_our_key_first_match in Hm. rewrite Hfind in Hm.
      injection Hm as ->. cbn [option_map snd] in Hchg.
      assert (Htrue : is_change (Some path) = Ok true)
        by (apply is_change_iff; now exists path).
      congruence.
    + now apply (external_output_shape j).
Qed.

Lemma output_loop_describes zipped : forall st j st',
  script_config_index_map st = Some script_config_index_map_literal ->
  output_loop ser master_fp st j zipped = Ok st' ->
  exists new_outputs,
    outputs_acc st' = outputs_acc st ++ new_outputs
    /\ Forall2 (describes_output ser master_fp) zipped new_outputs.
Proof.
  induction zipped as [|[psbt_out tx_out] zipped IH]; intros st j st' Hmap H;
    cbn [output_loop] in H.
  - injection H as <-. exists []. rewrite app_nil_r. split; [reflexivity | constructor].
  - destruct (output_step ser master_fp st j psbt_out tx_out) as [o|] eqn:Hs;
      cbn [bind] in H; [|discriminate].
    apply (output_step_describes _ _ _ _ _ Hmap) in Hs.
    destruct (IH _ _ _ (Hmap : script_config_index_map (mkLocals _ _ _ _ _ _) = _) H)
      as (outs & Ho & Hd). cbn in Ho.
    exists (o :: outs). rewrite Ho, <- app_assoc.
    split; [reflexivity | constructor; assumption].
Qed.

Lemma build_request_describes_outputs is_testnet psbt req st :
  build_request ser is_testnet master_fp psbt = Ok (req, st) ->
  Forall2 (describes_output ser master_fp)
    (combine (outputs psbt) (vout (tx psbt))) (req_outputs req).
Proof.
  unfold build_request.
  destruct (input_loop ser master_fp initial_locals 0
              (combine (inputs psbt) (vin (tx psbt)))) as [st1|] eqn:Hi;
    cbn [bind]; [|discriminate].
  destruct (output_loop ser master_fp st1 0
              (combine (outputs psbt) (vout (tx psbt)))) as [st2|] eqn:Ho;
    cbn [bind]; [|discriminate].
  destruct (bip44_account st2) as [account|] eqn:Ha; [|discriminate].
  intros [= <- <-]. cbn [req_outputs].
  destruct (output_loop_ok _ _ _ _ _ _ Ho) as [Hacc _].
  assert (Hne : combine (inputs psbt) (vin (tx psbt)) <> []).
  { intros Hnil. rewrite Hnil in Hi. cbn [input_loop] in Hi. injection Hi as <-.
    rewrite Hacc in Ha. discriminate. }
  destruct (input_loop_accepted _ _ _ _ _ _ Hi Hne) as (account' & _ & _ & _ & Hmap).
  destruct (input_loop_describes _ _ _ _ _ _ Hi) as (ins & pks & _ & _ & Houts & _).
  destruct (output_loop_describes _ _ _ _ Hmap Ho) as (outs & Hnew & Hd).
  rewrite Hnew, Houts. exact Hd.
Qed.

End Outputs.

(** X18: every signing request [sign_tx] sends describes the outputs of
    [zip(psbt.outputs, psbt.tx.vout)] one by one and in order.  An output
    whose first key of the device's fingerprint has a path with 1 as
    second-to-last element is sent as internal, with that path, the
    output's amount and the index of the descriptor of its script type
    (0 for p2wpkh, 1 for p2sh over a p2wpkh redeem script), whatever
    account the path is of; every other output is sent as external, with
    the output's amount and the type and hash of the first shape its script
    has among p2pkh (bytes 3 to 22), p2wpkh (from byte 2), p2sh (bytes 2 to
    21) and p2wsh (from byte 2). *)
Theorem sign_request_describes_outputs (ser : Serializations) (ERR_GENERIC : Z)
  (bb02 : BitBox02) (is_testnet : bool) (psbt : PSBT) (req : SignRequest) :
  In (call_btc_sign req) (fst (sign_tx ser ERR_GENERIC bb02 is_testnet psbt)) ->
  exists master_fp,
    unpack_I_le (root_fingerprint bb02) = Ok master_fp
    /\ Forall2 (describes_output ser master_fp)
         (combine (outputs psbt) (vout (tx psbt))) (req_outputs req).
Proof.
  intros Hin.
  destruct (sign_tx_btc_sign_built _ _ _ _ _ _ Hin) as (master_fp & st & Hfp & Hb).
  exists master_fp. split; [exact Hfp|].
  exact (build_request_describes_outputs ser master_fp is_testnet psbt req st Hb).
Qed.

Lemma sign_request_describes_outputs_witness :
  In (call_btc_sign sample_request)
    (fst (sign_tx sample_serializations 103 sample_device false psbt_two_segwit))
  /\ exists master_fp,
       Forall2 (describes_output sample_serializations master_fp)
         (combine (outputs psbt_two_segwit) (vout (tx psbt_two_segwit)))
         (req_outputs sample_request).
Proof.
  assert (Hin : In (call_btc_sign sample_request)
                  (fst (sign_tx sample_serializations 103 sample_device false
                          psbt_two_segwit))).
  { vm_compute. right. right. left. reflexivity. }
  split; [exact Hin|].
  destruct (sign_request_describes_outputs _ _ _ _ _ _ Hin) as (master_fp & _ & Hd).
  exists master_fp. exact Hd.
Defined.
